(** * The Redi iOS project patcher ([ios-app/add-files-to-xcode.py])

    A shallow embedding of the script and of the parts of Python's
    standard library it calls ([str] operations, [uuid.uuid4], [re.sub],
    text-mode file reads and writes), followed by the properties of the
    patcher that are proved about it.

    Conventions of the model.
    - A Python [str] and the content of a file are both a [text]: a list of
      8-bit characters.  Decoding and encoding a file are the identity on
      it; the only change a text-mode read makes is the translation of
      line endings ([universal_newlines]).
    - The file system is a finite map from paths to the contents of the
      regular files; the DerivedData directory is a separate listing of
      its entries, and the script's working directory is assumed not to
      lie inside it.
    - [os.urandom] and the build subprocess are oracles passed to [main].
      What the subprocess does to the file system is outside the model. *)

From Stdlib Require Import Ascii String NArith ZArith List Lia Bool DecimalString.
From stdpp Require Import base option list gmap strings.
Import ListNotations.

Local Open Scope list_scope.

(** ** Text *)

(** A Python [str], and the content of a file. *)
Abbreviation text := (list ascii) (only parsing).

Definition txt (s : string) : text := list_ascii_of_string s.

Definition tab : ascii := "009"%char.
Definition nl : ascii := "010"%char.
Definition cr : ascii := "013"%char.
Definition dquote : ascii := "034"%char.
Definition backslash : ascii := "\"%char.

Definition ascii_eqb (a b : ascii) : bool := Ascii.eqb a b.

(** [s.startswith(p)] *)
Fixpoint starts_with (p s : text) : bool :=
  match p, s with
  | [], _ => true
  | _ :: _, [] => false
  | a :: p', b :: s' => ascii_eqb a b && starts_with p' s'
  end.

(** [u in s] for two strings: [u] occurs at some offset of [s]. *)
Fixpoint contains (u s : text) : bool :=
  starts_with u s ||
  match s with
  | [] => false
  | _ :: s' => contains u s'
  end.

(** [c * n] for a one-character string [c]. *)
Definition repeat_char (c : ascii) (n : nat) : text := repeat c n.

(** ** [generate_uuid] *)

(** [uuid.uuid4()]: sixteen bytes of [os.urandom], read as a big-endian
    integer, with the variant and version bits of RFC 4122 forced.  The
    argument [r] is the oracle's answer; only its low 128 bits are the
    sixteen bytes. *)
Definition uuid4 (r : N) : N :=
  let i := N.land r (N.ones 128) in
  let i := N.ldiff i (N.shiftl 0xc000 48) in
  let i := N.lor i (N.shiftl 0x8000 48) in
  let i := N.ldiff i (N.shiftl 0xf000 64) in
  N.lor i (N.shiftl 4 76).

Definition hex_digit (d : N) : ascii :=
  nth (N.to_nat d) (txt "0123456789abcdef") "0"%char.

(** [UUID.hex]: ['%032x' % self.int], most significant digit first. *)
Definition uuid_hex (u : N) : text :=
  map (fun k => hex_digit (N.land (N.shiftr u (4 * N.of_nat (31 - k))) 15))
      (seq 0 32).

(** [str.upper] on one character (ASCII letters; the others are kept). *)
Definition upper_char (c : ascii) : ascii :=
  let n := nat_of_ascii c in
  if (97 <=? n)%nat && (n <=? 122)%nat then ascii_of_nat (n - 32) else c.

Definition upper (s : text) : text := map upper_char s.

(** [uuid.uuid4().hex[:24].upper()] *)
Definition generate_uuid (r : N) : text :=
  upper (take 24 (uuid_hex (uuid4 r))).

Definition is_upper_hex (c : ascii) : bool :=
  let n := nat_of_ascii c in
  ((48 <=? n)%nat && (n <=? 57)%nat) || ((65 <=? n)%nat && (n <=? 70)%nat).

(** A generated identifier is well formed when it is a 24-character
    token of uppercase hexadecimal digits. *)
Definition well_formed_id (s : text) : Prop :=
  length s = 24%nat /\ forallb is_upper_hex s = true.

(** ** Exceptions *)

(** A Python computation either returns a value or raises. *)
Inductive result (A : Type) : Type :=
| Ok (a : A)
| Raised.
Arguments Ok {A} a.
Arguments Raised {A}.

(** ** Replacement templates of [re.sub]

    [re.sub] compiles its replacement string before it searches: the
    string is cut into tokens (a character, or a backslash with the
    character after it), and the tokens are read as literal characters and
    group references.  A malformed template raises [re.error]. *)

Inductive token : Type :=
| TChr (c : ascii)
| TEsc (c : ascii).

Fixpoint tokenize (s : text) : option (list token) :=
  match s with
  | [] => Some []
  | c :: r =>
      if ascii_eqb c backslash then
        match r with
        | [] => None
        | d :: r' => cons (TEsc d) <$> tokenize r'
        end
      else cons (TChr c) <$> tokenize r
  end.

Definition in_range (lo hi : nat) (c : ascii) : bool :=
  (lo <=? nat_of_ascii c)%nat && (nat_of_ascii c <=? hi)%nat.

Definition is_digit : ascii -> bool := in_range 48 57.
Definition is_octdigit : ascii -> bool := in_range 48 55.
Definition is_ascii_letter (c : ascii) : bool :=
  in_range 65 90 c || in_range 97 122 c.
Definition digit_val (c : ascii) : nat := nat_of_ascii c - 48.

(** The [ESCAPES] table of the template parser. *)
Definition escape_char (c : ascii) : option ascii :=
  if ascii_eqb c "a" then Some "007"%char
  else if ascii_eqb c "b" then Some "008"%char
  else if ascii_eqb c "f" then Some "012"%char
  else if ascii_eqb c "n" then Some "010"%char
  else if ascii_eqb c "r" then Some "013"%char
  else if ascii_eqb c "t" then Some "009"%char
  else if ascii_eqb c "v" then Some "011"%char
  else if ascii_eqb c backslash then Some backslash
  else None.

Inductive titem : Type :=
| ILit (c : ascii)
| IGroup (n : nat).

(** Parser state: at top level, or inside the name of [\g<...>]. *)
Inductive pmode : Type :=
| PTop
| PName (acc : option nat).

Definition add_group (groups n : nat) (rest : option (list titem))
  : option (list titem) :=
  if (n <=? groups)%nat then cons (IGroup n) <$> rest else None.

(** [parse_template]: [groups] is the number of groups of the pattern.
    None of the patterns here has a named group, so [\g<name>] is valid
    only with a decimal name. *)
Fixpoint parse_tokens (groups : nat) (m : pmode) (ts : list token)
  : option (list titem) :=
  match m with
  | PName acc =>
      match ts with
      | TChr c :: r =>
          if ascii_eqb c ">" then
            match acc with
            | Some n => add_group groups n (parse_tokens groups PTop r)
            | None => None
            end
          else if is_digit c then
            parse_tokens groups
              (PName (Some (10 * default 0%nat acc + digit_val c)%nat)) r
          else None
      | _ => None
      end
  | PTop =>
      match ts with
      | [] => Some []
      | TChr c :: r => cons (ILit c) <$> parse_tokens groups PTop r
      | TEsc c :: r =>
          if ascii_eqb c "g" then
            match r with
            | TChr lt :: r1 =>
                if ascii_eqb lt "<" then parse_tokens groups (PName None) r1
                else None
            | _ => None
            end
          else if ascii_eqb c "0" then
            match r with
            | TChr d1 :: r1 =>
                if is_octdigit d1 then
                  match r1 with
                  | TChr d2 :: r2 =>
                      if is_octdigit d2 then
                        cons (ILit (ascii_of_nat
                                ((8 * digit_val d1 + digit_val d2) mod 256)))
                          <$> parse_tokens groups PTop r2
                      else cons (ILit (ascii_of_nat (digit_val d1)))
                             <$> parse_tokens groups PTop r1
                  | _ => cons (ILit (ascii_of_nat (digit_val d1)))
                           <$> parse_tokens groups PTop r1
                  end
                else cons (ILit zero) <$> parse_tokens groups PTop r
            | _ => cons (ILit zero) <$> parse_tokens groups PTop r
            end
          else if is_digit c then
            match r with
            | TChr d1 :: r1 =>
                if is_digit d1 then
                  match r1 with
                  | TChr d2 :: r2 =>
                      if is_octdigit c && is_octdigit d1 && is_octdigit d2 then
                        let v := (64 * digit_val c + 8 * digit_val d1
                                  + digit_val d2)%nat in
                        if (255 <? v)%nat then None
                        else cons (ILit (ascii_of_nat v))
                               <$> parse_tokens groups PTop r2
                      else add_group groups (10 * digit_val c + digit_val d1)
                             (parse_tokens groups PTop r1)
                  | _ => add_group groups (10 * digit_val c + digit_val d1)
                           (parse_tokens groups PTop r1)
                  end
                else add_group groups (digit_val c)
                       (parse_tokens groups PTop r)
            | _ => add_group groups (digit_val c) (parse_tokens groups PTop r)
            end
          else
            match escape_char c with
            | Some e => cons (ILit e) <$> parse_tokens groups PTop r
            | None =>
                if is_ascii_letter c then None
                else (fun l => ILit backslash :: ILit c :: l)
                       <$> parse_tokens groups PTop r
            end
      end
  end.

Definition parse_template (groups : nat) (repl : text)
  : option (list titem) :=
  tokenize repl ≫= parse_tokens groups PTop.

(** [caps !! 0] is the whole match, [caps !! n] the text of group [n];
    a group that took no part in the match expands to the empty string. *)
Definition expand (tpl : list titem) (caps : gmap nat text) : text :=
  flat_map (fun i => match i with
                     | ILit c => [c]
                     | IGroup n => default [] (caps !! n)
                     end) tpl.

(** ** Regular expressions

    The fragment of Python's regular expressions the script uses:
    literal characters, a greedy [[^c]*], concatenation and numbered
    capturing groups.  [rmatch] is a backtracking matcher in
    continuation-passing style: it tries the alternatives in the order
    Python's engine does (a greedy star first takes as much as it can and
    gives characters back one at a time) and returns the first that lets
    the continuation succeed. *)

Inductive regex : Type :=
| REps
| RChar (c : ascii)
| RStarNot (c : ascii)
| RCat (r1 r2 : regex)
| RGroup (n : nat) (r : regex).

Definition match_state : Type := text * gmap nat text.

Fixpoint star_not (c : ascii) (s : text) (k : text -> option match_state)
  : option match_state :=
  match s with
  | [] => k []
  | x :: s' =>
      if ascii_eqb x c then k s
      else match star_not c s' k with
           | Some r => Some r
           | None => k s
           end
  end.

Fixpoint rmatch (r : regex) (s : text) (caps : gmap nat text)
    (k : text -> gmap nat text -> option match_state) : option match_state :=
  match r with
  | REps => k s caps
  | RChar c =>
      match s with
      | x :: s' => if ascii_eqb x c then k s' caps else None
      | [] => None
      end
  | RStarNot c => star_not c s (fun rest => k rest caps)
  | RCat r1 r2 => rmatch r1 s caps (fun rest caps' => rmatch r2 rest caps' k)
  | RGroup n r1 =>
      rmatch r1 s caps
        (fun rest caps' =>
           k rest (<[n := take (length s - length rest) s]> caps'))
  end.

(** The literal string [t] as a regular expression. *)
Definition lit (t : text) : regex :=
  fold_right (fun c r => RCat (RChar c) r) REps t.

(** [pattern.match] at the start of [s]: the text after the match and
    the groups, group 0 included. *)
Definition match_at (r : regex) (s : text) : option match_state :=
  match rmatch r s ∅ (fun rest caps => Some (rest, caps)) with
  | Some (rest, caps) =>
      Some (rest, <[0%nat := take (length s - length rest) s]> caps)
  | None => None
  end.

(** The left-to-right scan of [re.sub]: [skip] characters of [s] belong
    to the match just replaced.  At every other position the pattern is
    tried; a match is replaced by the expanded template and the scan
    resumes behind it, a character that starts no match is copied.  An
    empty match is replaced and the character after it copied. *)
Fixpoint scan (r : regex) (tpl : list titem) (skip : nat) (s : text) : text :=
  match s with
  | [] =>
      match match_at r [] with
      | Some (_, caps) => expand tpl caps
      | None => []
      end
  | c :: s' =>
      match skip with
      | S k => scan r tpl k s'
      | O =>
          match match_at r s with
          | Some (rest, caps) =>
              expand tpl caps ++
              match (length s - length rest)%nat with
              | O => c :: scan r tpl 0 s'
              | S k => scan r tpl k s'
              end
          | None => c :: scan r tpl 0 s'
          end
      end
  end.

Record pattern : Type := { pat_groups : nat; pat_regex : regex }.

(** [re.sub(pattern, repl, string)] *)
Definition re_sub (p : pattern) (repl : text) (s : text) : result text :=
  match parse_template (pat_groups p) repl with
  | None => Raised
  | Some tpl => Ok (scan (pat_regex p) tpl 0 s)
  end.

(** ** More string operations *)

Definition is_space (c : ascii) : bool :=
  in_range 9 13 c || in_range 28 32 c
  || (nat_of_ascii c =? 133)%nat || (nat_of_ascii c =? 160)%nat.

Fixpoint lstrip (s : text) : text :=
  match s with
  | c :: s' => if is_space c then lstrip s' else s
  | [] => []
  end.

(** [s.strip()] *)
Definition strip (s : text) : text := rev (lstrip (rev (lstrip s))).

(** [s.split('\n')] *)
Fixpoint split_lines (s : text) : list text :=
  match s with
  | [] => [[]]
  | c :: s' =>
      if ascii_eqb c nl then [] :: split_lines s'
      else match split_lines s' with
           | l :: ls => (c :: l) :: ls
           | [] => [[c]]
           end
  end.

(** [l[-n:]] for [n > 0] *)
Definition last_n {A} (n : nat) (l : list A) : list A :=
  drop (length l - n) l.

(** [str(n)] for a natural number *)
Definition str_of_nat (n : nat) : text :=
  txt (DecimalString.NilZero.string_of_uint (Nat.to_uint n)).

(** What a text-mode [read()] returns for the stored characters: the line
    endings [\r\n] and [\r] both become [\n]. *)
Fixpoint universal_newlines (s : text) : text :=
  match s with
  | [] => []
  | c :: s' =>
      if ascii_eqb c cr then
        match s' with
        | d :: s'' =>
            if ascii_eqb d nl then nl :: universal_newlines s''
            else nl :: universal_newlines s'
        | [] => [nl]
        end
      else c :: universal_newlines s'
  end.

(** ** The world the script runs in *)

Record World : Type := {
  files : gmap text text;
  derived_data : option (list text)
}.

(** [subprocess.CompletedProcess] *)
Record completed : Type := {
  returncode : Z;
  stdout : text;
  stderr : text
}.

Record Oracle : Type := {
  urandom : nat -> N;
  run_shell : text -> World -> completed
}.

(** What the script does, in the order it does it. *)
Inductive event : Type :=
| EPrint (line : text)
| ECopy (src dst : text)
| EWrite (path content : text)
| ERmtree (dir item : text)
| ERun (cmd : text).

Record State : Type := {
  world : World;
  drawn : nat;
  log : list event
}.

(** ** A state and exception monad *)

Definition M (A : Type) : Type := State -> State * result A.

#[global] Instance M_ret : MRet M := fun A a st => (st, Ok a).

#[global] Instance M_bind : MBind M := fun A B f m st =>
  match m st with
  | (st', Ok a) => f a st'
  | (st', Raised) => (st', Raised)
  end.

Definition raise {A} : M A := fun st => (st, Raised).

Definition emit (e : event) : M unit := fun st =>
  ({| world := world st; drawn := drawn st; log := log st ++ [e] |}, Ok tt).

Definition get_world : M World := fun st => (st, Ok (world st)).

Definition set_files (fs : gmap text text) : M unit := fun st =>
  ({| world := {| files := fs; derived_data := derived_data (world st) |};
      drawn := drawn st; log := log st |}, Ok tt).

Definition set_derived (d : option (list text)) : M unit := fun st =>
  ({| world := {| files := files (world st); derived_data := d |};
      drawn := drawn st; log := log st |}, Ok tt).

Definition print (line : text) : M unit := emit (EPrint line).

(** [os.path.exists(p)] *)
Definition path_exists (p : text) : M bool :=
  w ← get_world; mret (bool_decide (is_Some (files w !! p))).

(** [open(p, 'r').read()] *)
Definition read_text (p : text) : M text :=
  w ← get_world;
  match files w !! p with
  | Some c => mret (universal_newlines c)
  | None => raise
  end.

(** [shutil.copy(src, dst)] *)
Definition copy_file (src dst : text) : M unit :=
  w ← get_world;
  match files w !! src with
  | Some c => emit (ECopy src dst) ;; set_files (<[dst := c]> (files w))
  | None => raise
  end.

(** [open(p, 'w').write(c)] *)
Definition write_text (p c : text) : M unit :=
  w ← get_world;
  emit (EWrite p c) ;; set_files (<[p := c]> (files w)).

(** [shutil.rmtree(os.path.join(dir, item))] for an entry of DerivedData *)
Definition rmtree (dir item : text) : M unit :=
  w ← get_world;
  emit (ERmtree dir item) ;;
  set_derived (filter (fun x => x ≠ item) <$> derived_data w).

(** Lifting a computation that may raise *)
Definition lift {A} (r : result A) : M A := fun st => (st, r).

Fixpoint for_each {A} (l : list A) (body : A -> M unit) : M unit :=
  match l with
  | [] => mret tt
  | x :: l' => body x ;; for_each l' body
  end.

(** ** The script *)

Definition PROJECT_DIR : text := txt "Redi".
Definition PROJECT_NAME : text := txt "Redi".
Definition PBXPROJ_PATH : text :=
  PROJECT_DIR ++ txt "/" ++ PROJECT_NAME ++ txt ".xcodeproj/project.pbxproj".

Definition V5_FILES : list (text * text) :=
  [ (txt "V5/Config/V5Config.swift", txt "V5Config.swift");
    (txt "V5/Services/V5AudioService.swift", txt "V5AudioService.swift");
    (txt "V5/Services/V5WebSocketService.swift",
     txt "V5WebSocketService.swift");
    (txt "V5/Views/V5MainView.swift", txt "V5MainView.swift") ].

Definition BACKUP_PATH : text := PBXPROJ_PATH ++ txt ".backup".

Definition DERIVED_DATA : text :=
  txt "~/Library/Developer/Xcode/DerivedData".

(** The three patterns handed to [re.sub] (lines 64, 72 and 79 of the
    script).  The first two are a section-end comment as group 1, its
    stars escaped.  The third has two groups: group 1 is the literal
    [SOURCES_OPEN], a greedy run of characters other than the closing
    brace and the literal [FILES_OPEN]; group 2 is a greedy run of
    characters other than the closing parenthesis. *)
Definition END_FILE_REFERENCE : text :=
  txt "/* End PBXFileReference section */".
Definition END_BUILD_FILE : text := txt "/* End PBXBuildFile section */".
Definition SOURCES_OPEN : text := txt "/* Sources */ = {".
Definition FILES_OPEN : text := txt "files = (".

Definition file_reference_pattern : pattern :=
  {| pat_groups := 1; pat_regex := RGroup 1 (lit END_FILE_REFERENCE) |}.

Definition build_file_pattern : pattern :=
  {| pat_groups := 1; pat_regex := RGroup 1 (lit END_BUILD_FILE) |}.

Definition sources_pattern : pattern :=
  {| pat_groups := 2;
     pat_regex :=
       RCat (RGroup 1 (RCat (lit SOURCES_OPEN)
                         (RCat (RStarNot "}") (lit FILES_OPEN))))
            (RGroup 2 (RStarNot ")")) |}.

(** The f-string of the file-reference record. *)
Definition file_ref_record (file_ref_uuid filename relative_path : text)
  : text :=
  [tab; tab] ++ file_ref_uuid ++ txt " /* " ++ filename
  ++ txt " */ = {isa = PBXFileReference; lastKnownFileType = sourcecode.swift; path = "
  ++ relative_path ++ txt "; sourceTree = " ++ [dquote] ++ txt "<group>"
  ++ [dquote] ++ txt "; };" ++ [nl].

(** The f-string of the build-file record. *)
Definition build_file_record (build_file_uuid file_ref_uuid filename : text)
  : text :=
  [tab; tab] ++ build_file_uuid ++ txt " /* " ++ filename
  ++ txt " in Sources */ = {isa = PBXBuildFile; fileRef = " ++ file_ref_uuid
  ++ txt " /* " ++ filename ++ txt " */; };" ++ [nl].

(** The replacement of the third substitution: the raw string
    [\1\2\n\t\t\t\t], then the identifier and the comment. *)
Definition sources_template (build_file_uuid filename : text) : text :=
  txt "\1\2\n\t\t\t\t" ++ build_file_uuid ++ txt " /* " ++ filename
  ++ txt " in Sources */,".

(** The three substitutions of one insertion, in the order of the loop
    body. *)
Definition insert_records
    (file_ref_uuid build_file_uuid relative_path filename content : text)
  : result text :=
  let file_ref := file_ref_record file_ref_uuid filename relative_path in
  match re_sub file_reference_pattern (file_ref ++ txt "\1") content with
  | Raised => Raised
  | Ok content =>
      let build_file :=
        build_file_record build_file_uuid file_ref_uuid filename in
      match re_sub build_file_pattern (build_file ++ txt "\1") content with
      | Raised => Raised
      | Ok content =>
          re_sub sources_pattern
            (sources_template build_file_uuid filename) content
      end
  end.

Section Script.

Variable orc : Oracle.

(** [generate_uuid()], drawing the next answer of [os.urandom]. *)
Definition fresh_uuid : M text := fun st =>
  ({| world := world st; drawn := S (drawn st); log := log st |},
   Ok (generate_uuid (urandom orc (drawn st)))).

(** One iteration of the loop over the candidates; the loop variables
    [content] and [files_added] are passed in and returned. *)
Definition process_candidate (cand : text * text) (content : text)
    (files_added : nat) : M (text * nat) :=
  let '(relative_path, filename) := cand in
  let full_path := PROJECT_DIR ++ txt "/" ++ relative_path in
  on_disk ← path_exists full_path;
  if negb on_disk then
    print (txt "SKIP: " ++ filename ++ txt " not on disk") ;;
    mret (content, files_added)
  else if contains filename content then
    print (txt "OK: " ++ filename ++ txt " already in project") ;;
    mret (content, files_added)
  else
    print (txt "ADDING: " ++ filename ++ txt "...") ;;
    file_ref_uuid ← fresh_uuid;
    build_file_uuid ← fresh_uuid;
    content ← lift (insert_records file_ref_uuid build_file_uuid
                      relative_path filename content);
    print (txt "  Added " ++ filename) ;;
    mret (content, S files_added).

Fixpoint add_files (cands : list (text * text)) (content : text)
    (files_added : nat) : M (text * nat) :=
  match cands with
  | [] => mret (content, files_added)
  | cand :: rest =>
      '(content, files_added) ← process_candidate cand content files_added;
      add_files rest content files_added
  end.

(** Clean derived data *)
Definition clean_derived_data : M unit :=
  w ← get_world;
  match derived_data w with
  | Some items =>
      for_each items (fun item =>
        if contains (txt "Redi") item then
          rmtree DERIVED_DATA item ;;
          print (txt "  Removed: " ++ item)
        else mret tt)
  | None => mret tt
  end.

Definition BUILD_CMD : text :=
  txt "xcodebuild -project " ++ PROJECT_DIR ++ txt "/" ++ PROJECT_NAME
  ++ txt ".xcodeproj -scheme " ++ PROJECT_NAME
  ++ txt " -destination 'platform=iOS Simulator,name=iPhone 16' clean build 2>&1".

(** Build *)
Definition build : M Z :=
  print (nl :: txt "Building project...") ;;
  w ← get_world;
  emit (ERun BUILD_CMD) ;;
  let result := run_shell orc BUILD_CMD w in
  let output := stdout result ++ stderr result in
  let lines := split_lines (strip output) in
  print (nl :: txt "Build output (last 30 lines):") ;;
  for_each (last_n 30 lines) (fun line => print (txt "  " ++ line)) ;;
  (if (returncode result =? 0)%Z
   then print (nl :: txt "✅ BUILD SUCCEEDED")
   else print (nl :: txt "❌ BUILD FAILED")) ;;
  mret (returncode result).

(** [main()], over a list of candidates; the value returned is what the
    script hands to [exit]. *)
Definition main_with (cands : list (text * text)) : M Z :=
  print (repeat_char "=" 50) ;;
  print (txt "REDI iOS PROJECT SYNC") ;;
  print (repeat_char "=" 50) ;;
  found ← path_exists PBXPROJ_PATH;
  if negb found then
    print (txt "ERROR: Cannot find " ++ PBXPROJ_PATH) ;;
    mret 1%Z
  else
    content ← read_text PBXPROJ_PATH;
    copy_file PBXPROJ_PATH BACKUP_PATH ;;
    print (txt "Created backup: " ++ PBXPROJ_PATH ++ txt ".backup") ;;
    '(content, files_added) ← add_files cands content 0;
    (if (0 <? files_added)%nat then
       write_text PBXPROJ_PATH content ;;
       print (nl :: txt "Updated project with " ++ str_of_nat files_added
                ++ txt " files")
     else print (nl :: txt "No files needed adding")) ;;
    print (nl :: txt "Cleaning Xcode caches...") ;;
    clean_derived_data ;;
    build.

Definition main : M Z := main_with V5_FILES.

End Script.

Definition initial_state (w : World) : State :=
  {| world := w; drawn := 0; log := [] |}.

(** Running the script in a world: the final state and the exit code. *)
Definition run (orc : Oracle) (w : World) : State * result Z :=
  main orc (initial_state w).

(** ** Vocabulary of the properties *)

(** [s] has none of the characters of [bad]. *)
Definition avoids (bad s : text) : bool :=
  forallb (fun c => negb (existsb (ascii_eqb c) bad)) s.

(** The number of matches the scan of [re.sub] replaces in [s] (the
    length of [pattern.findall(s)]); it follows [scan] step by step. *)
Fixpoint count_matches (r : regex) (skip : nat) (s : text) : nat :=
  match s with
  | [] => match match_at r [] with Some _ => 1 | None => 0 end
  | c :: s' =>
      match skip with
      | S k => count_matches r k s'
      | O =>
          match match_at r s with
          | Some (rest, _) =>
              S (match (length s - length rest)%nat with
                 | O => count_matches r 0 s'
                 | S k => count_matches r k s'
                 end)
          | None => count_matches r 0 s'
          end
      end
  end.

(** [insertions P frag n s s']: the text [s'] is [s] with [n] copies of
    [frag] put in, each at a point where the rest of [s] satisfies [P]. *)
Inductive insertions (P : text -> Prop) (frag : text)
  : nat -> text -> text -> Prop :=
| ins_nil : insertions P frag 0 [] []
| ins_copy c n s s' :
    insertions P frag n s s' -> insertions P frag n (c :: s) (c :: s')
| ins_here n s s' :
    P s -> insertions P frag n s s' -> insertions P frag (S n) s (frag ++ s').

(** The two kinds of insertion point of the script: in front of a
    section-end marker, and behind a matched sources list, that is at the
    end of the text or in front of a closing parenthesis. *)
Definition before_marker (m : text) (s : text) : Prop :=
  starts_with m s = true.

Definition at_list_end (s : text) : Prop :=
  s = [] \/ exists t, s = ")"%char :: t.

(** ** A global substitution, said without the matcher

    What the three substitutions are compared with.  The text is read
    from left to right.  Where a match begins, its replacement is put and
    the reading goes on behind the match; a character is copied only where
    no match begins.  [hit s m r] says that the match [m] begins the text
    [s] and leaves [r]; it is said for each pattern in terms of the text
    alone.  The number counts the matches replaced. *)
Inductive replaced_all (hit : text -> text -> text -> Prop)
    (rep : text -> text) : nat -> text -> text -> Prop :=
| ra_end : replaced_all hit rep 0 [] []
| ra_copy c n s s' :
    (forall m r, ~ hit (c :: s) m r) ->
    replaced_all hit rep n s s' ->
    replaced_all hit rep n (c :: s) (c :: s')
| ra_hit n m r s' :
    m <> [] -> hit (m ++ r) m r ->
    replaced_all hit rep n r s' ->
    replaced_all hit rep (S n) (m ++ r) (rep m ++ s').

(** The section-end marker stands at the head of [s]. *)
Definition marker_hit (marker : text) (s m r : text) : Prop :=
  m = marker /\ s = marker ++ r.

(** A match of the Sources pattern at the head of [s]: the opening of a
    Sources block, a body without closing brace that ends with the last
    opening of a files list so reachable, and the entries up to the first
    closing parenthesis or the end of the text. *)
Definition sources_hit (s m r : text) : Prop :=
  exists body entries,
    m = SOURCES_OPEN ++ body ++ FILES_OPEN ++ entries
    /\ s = m ++ r
    /\ avoids ["}"%char] body = true
    /\ avoids [")"%char] entries = true
    /\ at_list_end r
    /\ forall body' t',
         s = SOURCES_OPEN ++ body' ++ FILES_OPEN ++ t' ->
         avoids ["}"%char] body' = true ->
         (length body' <= length body)%nat.

(** The number of occurrences of a marker [m] (not empty) in [s], counted
    from left to right, an occurrence that overlaps the one counted before
    it left out ([s.count(m)]). *)
Fixpoint occurrences (m : text) (skip : nat) (s : text) : nat :=
  match s with
  | [] => 0
  | _ :: s' =>
      match skip with
      | S k => occurrences m k s'
      | O =>
          if starts_with m s then S (occurrences m (length m - 1) s')
          else occurrences m 0 s'
      end
  end.

(** The reference put into the sources list. *)
Definition sources_reference (build_file_uuid filename : text) : text :=
  [nl; tab; tab; tab; tab] ++ build_file_uuid ++ txt " /* " ++ filename
  ++ txt " in Sources */,".

(** A candidate whose names hold no backslash: its records are then
    replacement templates without escapes of their own. *)
Definition no_escape (cand : text * text) : bool :=
  avoids [backslash] (fst cand) && avoids [backslash] (snd cand).

(** The candidate's file is on disk in [w]. *)
Definition on_disk (w : World) (cand : text * text) : Prop :=
  is_Some (files w !! (PROJECT_DIR ++ txt "/" ++ fst cand)).

(** The state after the events [es]. *)
Definition logged (st : State) (es : list event) : State :=
  {| world := world st; drawn := drawn st; log := log st ++ es |}.

(** The identifier made from the [k]-th answer of [os.urandom]. *)
Definition uuid_at (orc : Oracle) (k : nat) : text :=
  generate_uuid (urandom orc k).

(** The events that change a regular file. *)
Definition file_event (e : event) : bool :=
  match e with
  | ECopy _ _ | EWrite _ _ => true
  | _ => false
  end.

(** [quiet st st' es]: from [st] to [st'] the script did [es], none of
    which touches a regular file, and drew no identifier. *)
Definition quiet (st st' : State) (es : list event) : Prop :=
  files (world st') = files (world st)
  /\ drawn st' = drawn st
  /\ log st' = log st ++ es
  /\ forallb (fun e => negb (file_event e)) es = true.

(** [silent st st' es]: as [quiet], and the world is left as it was. *)
Definition silent (st st' : State) (es : list event) : Prop :=
  world st' = world st /\ quiet st st' es.

(** The part of [main] after the write-back. *)
Definition finish (orc : Oracle) : M Z :=
  print (nl :: txt "Cleaning Xcode caches...") ;;
  clean_derived_data ;;
  build orc.

(** [inserted u1 u2 path name x y]: [y] is [x] after the three
    substitutions for one candidate, each seen as insertions of its record
    at the matches of its pattern. *)
Definition inserted (u1 u2 path name x y : text) : Prop :=
  exists c1 c2,
    insertions (before_marker END_FILE_REFERENCE)
      (file_ref_record u1 name path)
      (count_matches (pat_regex file_reference_pattern) 0 x) x c1
    /\ insertions (before_marker END_BUILD_FILE)
         (build_file_record u2 u1 name)
         (count_matches (pat_regex build_file_pattern) 0 c1) c1 c2
    /\ insertions at_list_end (sources_reference u2 name)
         (count_matches (pat_regex sources_pattern) 0 c2) c2 y.

(** The loop variables together with the number of identifiers drawn. *)
Definition loop_state : Type := list ascii * nat * nat.

(** One iteration of the loop, seen from the loop variables, with the
    lines it prints. *)
Inductive step (orc : Oracle) (w : World) (cand : list ascii * list ascii)
  : loop_state -> loop_state -> list event -> Prop :=
| step_absent content n k :
    ~ on_disk w cand ->
    step orc w cand (content, n, k) (content, n, k)
      [EPrint (txt "SKIP: " ++ snd cand ++ txt " not on disk")]
| step_present content n k :
    on_disk w cand -> contains (snd cand) content = true ->
    step orc w cand (content, n, k) (content, n, k)
      [EPrint (txt "OK: " ++ snd cand ++ txt " already in project")]
| step_added content n k y :
    on_disk w cand -> contains (snd cand) content = false ->
    insert_records (uuid_at orc k) (uuid_at orc (S k)) (fst cand) (snd cand)
      content = Ok y ->
    inserted (uuid_at orc k) (uuid_at orc (S k)) (fst cand) (snd cand)
      content y ->
    step orc w cand (content, n, k) (y, S n, S (S k))
      [EPrint (txt "ADDING: " ++ snd cand ++ txt "...");
       EPrint (txt "  Added " ++ snd cand)].

Inductive steps (orc : Oracle) (w : World)
  : list (list ascii * list ascii) -> loop_state -> loop_state
    -> list event -> Prop :=
| steps_nil s : steps orc w [] s s []
| steps_cons cand cands s1 s2 s3 es es' :
    step orc w cand s1 s2 es -> steps orc w cands s2 s3 es' ->
    steps orc w (cand :: cands) s1 s3 (es ++ es').

Definition is_print (e : event) : bool :=
  match e with
  | EPrint _ => true
  | _ => false
  end.

(** The world after the backup. *)
Definition backed_up (w : World) (raw : text) : World :=
  {| files := <[BACKUP_PATH := raw]> (files w);
     derived_data := derived_data w |}.

(** The first lines the script prints. *)
Definition banner : list event :=
  [EPrint (repeat_char "=" 50); EPrint (txt "REDI iOS PROJECT SYNC");
   EPrint (repeat_char "=" 50)].

(** The events of the conditional write-back. *)
Definition write_back (files_added : nat) (content : text) : list event :=
  if (0 <? files_added)%nat then
    [EWrite PBXPROJ_PATH content;
     EPrint (nl :: txt "Updated project with " ++ str_of_nat files_added
               ++ txt " files")]
  else [EPrint (nl :: txt "No files needed adding")].

(** The regular files after the write-back. *)
Definition written_back (files_added : nat) (content : text)
    (fs : gmap (list ascii) (list ascii)) : gmap (list ascii) (list ascii) :=
  if (0 <? files_added)%nat then <[PBXPROJ_PATH := content]> fs else fs.

(** The candidate is on disk and its display name does not occur in
    [content]: the loop inserts it. *)
Definition needs_insertion (w : World) (content : text)
    (cand : text * text) : bool :=
  bool_decide (on_disk w cand) && negb (contains (snd cand) content).

(** ** A concrete world, for examples

    A manifest with the three sections empty, the first candidate on
    disk, one DerivedData entry of the project and one of another. *)
Definition example_head : text :=
  txt "/* Begin PBXBuildFile section */" ++ [nl].

Definition example_mid : text :=
  [nl] ++ txt "/* Begin PBXFileReference section */" ++ [nl].

Definition example_sources : text :=
  [nl; tab; tab]
  ++ txt "C0FFEE /* Sources */ = {isa = PBXSourcesBuildPhase; files = (".

Definition example_tail : text := txt ");};" ++ [nl].

Definition example_manifest : text :=
  example_head ++ END_BUILD_FILE ++ example_mid ++ END_FILE_REFERENCE
  ++ example_sources ++ example_tail.

Definition example_oracle : Oracle :=
  {| urandom := fun k => N.of_nat k;
     run_shell := fun _ _ =>
       {| returncode := 65; stdout := txt "** BUILD FAILED **"; stderr := [] |} |}.

Definition example_world (manifest : text) : World :=
  {| files := <[PBXPROJ_PATH := manifest]>
                (<[txt "Redi/V5/Config/V5Config.swift" := txt "import SwiftUI"]> ∅);
     derived_data := Some [txt "Redi-abcdef"; txt "Other-123456"] |}.

(** The pattern matches at the start of [s]. *)
Definition matches_at (r : regex) (s : text) : bool :=
  match match_at r s with
  | Some _ => true
  | None => false
  end.

(** The pattern matches at no position of [pre] in the text [pre ++ s]. *)
Definition no_match_before (r : regex) (pre s : text) : bool :=
  forallb (fun i => negb (matches_at r (drop i pre ++ s)))
    (seq 0 (length pre)).

(** A text with the file-reference marker twice, and a sources list that
    already has an entry. *)
Definition two_marker_text : text :=
  END_FILE_REFERENCE ++ [nl] ++ END_FILE_REFERENCE ++ [nl] ++ END_BUILD_FILE.

Definition sources_block_with_entry : text :=
  txt "/* Sources */ = {isa = PBXSourcesBuildPhase; files = (" ++ [nl]
  ++ txt "OLD /* Old.swift in Sources */," ++ [nl] ++ txt "); };".

(** A text with two of each of the three places the script inserts at. *)
Definition repeated_sections_text : text :=
  END_BUILD_FILE ++ [nl] ++ END_FILE_REFERENCE ++ [nl]
  ++ END_BUILD_FILE ++ [nl] ++ END_FILE_REFERENCE ++ [nl]
  ++ sources_block_with_entry ++ [nl] ++ sources_block_with_entry.

(** A Sources block whose braces enclose two openings of a files list:
    the body up to the first opening, and what follows that opening. *)
Definition first_list_body : text := txt "note = (".

Definition first_list_tail : text :=
  txt "A /* first */,); " ++ FILES_OPEN ++ [nl]
  ++ txt "OLD /* Old.swift in Sources */," ++ [nl] ++ txt "); };".

(** The example manifest after each of the three substitutions for the
    first candidate, with the first two identifiers of the example
    oracle. *)
Definition example_after_file_ref : text :=
  example_head ++ END_BUILD_FILE ++ example_mid
  ++ file_ref_record (uuid_at example_oracle 0) (txt "V5Config.swift")
       (txt "V5/Config/V5Config.swift")
  ++ END_FILE_REFERENCE ++ example_sources ++ example_tail.

Definition example_after_build_file : text :=
  example_head
  ++ build_file_record (uuid_at example_oracle 1) (uuid_at example_oracle 0)
       (txt "V5Config.swift")
  ++ END_BUILD_FILE ++ example_mid
  ++ file_ref_record (uuid_at example_oracle 0) (txt "V5Config.swift")
       (txt "V5/Config/V5Config.swift")
  ++ END_FILE_REFERENCE ++ example_sources ++ example_tail.

Definition example_patched : text :=
  example_head
  ++ build_file_record (uuid_at example_oracle 1) (uuid_at example_oracle 0)
       (txt "V5Config.swift")
  ++ END_BUILD_FILE ++ example_mid
  ++ file_ref_record (uuid_at example_oracle 0) (txt "V5Config.swift")
       (txt "V5/Config/V5Config.swift")
  ++ END_FILE_REFERENCE ++ example_sources
  ++ sources_reference (uuid_at example_oracle 1) (txt "V5Config.swift")
  ++ example_tail.

(** The text has none of the three places the script inserts at. *)
Definition no_section (x : text) : bool :=
  negb (contains END_FILE_REFERENCE x) && negb (contains END_BUILD_FILE x)
  && (count_matches (pat_regex sources_pattern) 0 x =? 0)%nat.

(** The fragments one insertion really puts into [x]: the record of a
    substitution counts when its pattern has a match in the text the
    substitution is applied to. *)
Definition fragments_inserted (u1 u2 path name x : text) : list (list ascii) :=
  let file_ref := file_ref_record u1 name path in
  let build_file := build_file_record u2 u1 name in
  match re_sub file_reference_pattern (file_ref ++ txt "\1") x with
  | Raised => []
  | Ok c1 =>
      (if (0 <? count_matches (pat_regex file_reference_pattern) 0 x)%nat
       then [file_ref] else [])
      ++ match re_sub build_file_pattern (build_file ++ txt "\1") c1 with
         | Raised => []
         | Ok c2 =>
             (if (0 <? count_matches (pat_regex build_file_pattern) 0 c1)%nat
              then [build_file] else [])
             ++ (if (0 <? count_matches (pat_regex sources_pattern) 0 c2)%nat
                 then [sources_reference u2 name] else [])
         end
  end.

(** A display name that no insertion of the script can cut in two: no
    character after its first is a slash or a closing parenthesis. *)
Definition uncut (name : text) : bool :=
  avoids ["/"%char; ")"%char] (tail name).

(** Two candidates of which the second is named inside the path of the
    first. *)
Definition nested_candidates : list (list ascii * list ascii) :=
  [ (txt "Views/MainView.swift", txt "MainView.swift");
    (txt "Legacy/View.swift", txt "View.swift") ].

Definition nested_world : World :=
  {| files := <[PBXPROJ_PATH := example_manifest]>
                (<[txt "Redi/Views/MainView.swift" := txt "import SwiftUI"]>
                   (<[txt "Redi/Legacy/View.swift" := txt "import UIKit"]> ∅));
     derived_data := None |}.

(** What the proofs about two runs need of a candidate: names without
    backslash and carriage return, and a display name no insertion can
    cut.  All candidates of the script are so. *)
Definition tidy (cand : text * text) : bool :=
  no_escape cand && uncut (snd cand)
  && avoids [cr] (fst cand) && avoids [cr] (snd cand).

(** The events of the eviction of one DerivedData entry. *)
Definition eviction_events (item : text) : list event :=
  if contains (txt "Redi") item
  then [ERmtree DERIVED_DATA item; EPrint (txt "  Removed: " ++ item)]
  else [].

(** ['\n'.join(lines)] *)
Fixpoint join_lines (lines : list (list ascii)) : text :=
  match lines with
  | [] => []
  | [l] => l
  | l :: ls => l ++ nl :: join_lines ls
  end.

(** The last line the build step prints. *)
Definition build_banner (rc : Z) : text :=
  if (rc =? 0)%Z then nl :: txt "✅ BUILD SUCCEEDED"
  else nl :: txt "❌ BUILD FAILED".

(** * Properties *)

(** ** Characters and substrings *)

Lemma ascii_eqb_true (a b : ascii) : ascii_eqb a b = true <-> a = b.
Proof. unfold ascii_eqb. apply Ascii.eqb_eq. Qed.

Lemma ascii_eqb_false (a b : ascii) : ascii_eqb a b = false <-> a <> b.
Proof. unfold ascii_eqb. apply Ascii.eqb_neq. Qed.

Lemma ascii_eqb_refl (a : ascii) : ascii_eqb a a = true.
Proof. by apply ascii_eqb_true. Qed.

Lemma starts_with_spec (p s : text) :
  starts_with p s = true <-> exists t, s = p ++ t.
Proof.
  revert s. induction p as [|a p IH]; intros s; simpl.
  - split; [intros _; by exists s | done].
  - destruct s as [|b s].
    + split; [done | intros [t Ht]; discriminate].
    + rewrite andb_true_iff, ascii_eqb_true, IH. split.
      * intros [-> [t ->]]. by exists t.
      * intros [t Ht]. injection Ht as -> ->. eauto.
Qed.

Lemma starts_with_app (p t : text) : starts_with p (p ++ t) = true.
Proof. apply starts_with_spec. by exists t. Qed.

Lemma contains_spec (u s : text) :
  contains u s = true <-> exists a b, s = a ++ u ++ b.
Proof.
  induction s as [|c s IH]; simpl.
  - rewrite orb_false_r, starts_with_spec. split.
    + intros [t Ht]. by exists [], t.
    + intros [a [b Hab]]. destruct a; [by exists b | discriminate].
  - rewrite orb_true_iff, starts_with_spec, IH. split.
    + intros [[t Ht] | [a [b Hab]]].
      * by exists [], t.
      * exists (c :: a), b. by rewrite Hab.
    + intros [a [b Hab]]. destruct a as [|c' a].
      * left. by exists b.
      * right. injection Hab as -> ->. by exists a, b.
Qed.

Lemma contains_app_r (u a s : text) :
  contains u s = true -> contains u (a ++ s) = true.
Proof.
  rewrite !contains_spec. intros [x [y ->]].
  exists (a ++ x), y. by rewrite <- app_assoc.
Qed.

Lemma contains_app_l (u s b : text) :
  contains u s = true -> contains u (s ++ b) = true.
Proof.
  rewrite !contains_spec. intros [x [y ->]].
  exists x, (y ++ b). by rewrite <- !app_assoc.
Qed.

Lemma contains_refl (u : text) : contains u u = true.
Proof. apply contains_spec. exists [], []. by rewrite app_nil_r. Qed.

Lemma contains_trans (u v s : text) :
  contains u v = true -> contains v s = true -> contains u s = true.
Proof.
  rewrite !contains_spec. intros [a [b ->]] [x [y ->]].
  exists (x ++ a), (b ++ y). by rewrite <- !app_assoc.
Qed.

Lemma contains_false_tail (u : text) (c : ascii) (s : text) :
  contains u (c :: s) = false -> contains u s = false.
Proof. simpl. by intros [_ H]%orb_false_iff. Qed.

(** ** Generated identifiers *)

Lemma hex_digit_upper (d : N) :
  (d < 16)%N -> is_upper_hex (upper_char (hex_digit d)) = true.
Proof.
  intros H. assert (Hn : (N.to_nat d < 16)%nat) by lia.
  unfold hex_digit. revert Hn. generalize (N.to_nat d). intros n Hn.
  do 16 (destruct n as [|n]; [reflexivity|]). lia.
Qed.

Lemma generate_uuid_hex (r : N) : forallb is_upper_hex (generate_uuid r) = true.
Proof.
  unfold generate_uuid, upper, uuid_hex.
  rewrite <- firstn_map, map_map, firstn_map. apply forallb_forall.
  intros c [k [<- _]]%in_map_iff. apply hex_digit_upper.
  change 15%N with (N.ones 4). rewrite N.land_ones.
  apply N.mod_lt. done.
Qed.

Lemma generate_uuid_length (r : N) : length (generate_uuid r) = 24%nat.
Proof. reflexivity. Qed.

Lemma generate_uuid_well_formed (r : N) : well_formed_id (generate_uuid r).
Proof. split; [apply generate_uuid_length | apply generate_uuid_hex]. Qed.

(** ** Texts that avoid given characters *)

Lemma avoids_app (bad s t : text) :
  avoids bad (s ++ t) = avoids bad s && avoids bad t.
Proof. apply forallb_app. Qed.

Lemma avoids_cons (bad : text) (c : ascii) (s : text) :
  avoids bad (c :: s) = negb (existsb (ascii_eqb c) bad) && avoids bad s.
Proof. reflexivity. Qed.

Lemma avoids_one (b c : ascii) (s : text) :
  avoids [b] (c :: s) = true <-> c <> b /\ avoids [b] s = true.
Proof.
  rewrite avoids_cons, andb_true_iff. simpl. rewrite orb_false_r.
  rewrite negb_true_iff, ascii_eqb_false. done.
Qed.

Lemma avoids_weaken (bad bad' s : text) :
  (forall c, In c bad' -> In c bad) ->
  avoids bad s = true -> avoids bad' s = true.
Proof.
  intros Hsub. unfold avoids. rewrite !forallb_forall. intros H c Hc.
  specialize (H c Hc). apply negb_true_iff. apply negb_true_iff in H.
  destruct (existsb (ascii_eqb c) bad') eqn:E; [|done].
  apply existsb_exists in E as [b [Hb Hcb]].
  rewrite <- H. symmetry. apply existsb_exists. exists b. auto.
Qed.

Lemma avoids_Forall (b : ascii) (s : text) :
  avoids [b] s = true <-> Forall (fun c => c <> b) s.
Proof.
  induction s as [|c s IH].
  - split; [constructor | done].
  - rewrite avoids_one, IH. split.
    + intros [? ?]. by constructor.
    + by inversion 1.
Qed.

(** An identifier made of uppercase hexadecimal digits avoids every
    character that is not one. *)
Lemma hex_avoids (bad s : text) :
  forallb is_upper_hex s = true ->
  forallb (fun b => negb (is_upper_hex b)) bad = true ->
  avoids bad s = true.
Proof.
  unfold avoids. rewrite !forallb_forall. intros Hs Hbad c Hc.
  apply negb_true_iff. destruct (existsb (ascii_eqb c) bad) eqn:E; [|done].
  apply existsb_exists in E as [b [Hb ->%ascii_eqb_true]].
  specialize (Hs _ Hc). specialize (Hbad _ Hb).
  apply negb_true_iff in Hbad. congruence.
Qed.

(** ** Templates without escapes in their literal part *)

Lemma tokenize_literal (l r : text) :
  avoids [backslash] l = true ->
  tokenize (l ++ r) = (fun ts => map TChr l ++ ts) <$> tokenize r.
Proof.
  induction l as [|c l IH]; intros H; simpl.
  - by destruct (tokenize r).
  - apply avoids_one in H as [Hc Hl].
    apply ascii_eqb_false in Hc. rewrite Hc, (IH Hl).
    by destruct (tokenize r).
Qed.

Lemma parse_tokens_literal (groups : nat) (l : text) (ts : list token) :
  parse_tokens groups PTop (map TChr l ++ ts)
  = (fun tpl => map ILit l ++ tpl) <$> parse_tokens groups PTop ts.
Proof.
  induction l as [|c l IH]; simpl.
  - by destruct (parse_tokens groups PTop ts).
  - rewrite IH. by destruct (parse_tokens groups PTop ts).
Qed.

Lemma parse_template_literal (groups : nat) (l r : text) :
  avoids [backslash] l = true ->
  parse_template groups (l ++ r)
  = (fun tpl => map ILit l ++ tpl) <$> parse_template groups r.
Proof.
  intros H. unfold parse_template. rewrite (tokenize_literal _ _ H).
  destruct (tokenize r) as [ts|]; simpl; [|done].
  apply parse_tokens_literal.
Qed.

Lemma parse_template_group1 (groups : nat) (l : text) :
  avoids [backslash] l = true ->
  parse_template (S groups) (l ++ txt "\1") = Some (map ILit l ++ [IGroup 1]).
Proof. intros H. by rewrite (parse_template_literal _ _ _ H). Qed.

Lemma tokenize_plain (l : text) :
  avoids [backslash] l = true -> tokenize l = Some (map TChr l).
Proof.
  intros H. rewrite <- (app_nil_r l) at 1.
  rewrite (tokenize_literal _ _ H). simpl. by rewrite app_nil_r.
Qed.

Lemma parse_tokens_plain (groups : nat) (l : text) :
  parse_tokens groups PTop (map TChr l) = Some (map ILit l).
Proof.
  rewrite <- (app_nil_r (map TChr l)), parse_tokens_literal.
  simpl. by rewrite app_nil_r.
Qed.

Lemma parse_template_sources (l : text) :
  avoids [backslash] l = true ->
  parse_template 2 (txt "\1\2\n\t\t\t\t" ++ l)
  = Some ([IGroup 1; IGroup 2; ILit nl; ILit tab; ILit tab; ILit tab;
           ILit tab] ++ map ILit l).
Proof.
  intros H. unfold parse_template. simpl tokenize.
  rewrite (tokenize_plain _ H). simpl.
  destruct l as [|c l']; [reflexivity|].
  set (l := c :: l') in *.
  change (TChr c :: map TChr l') with (map TChr l).
  by rewrite parse_tokens_plain.
Qed.

Lemma expand_literal (l : text) (tpl : list titem) (caps : gmap nat text) :
  expand (map ILit l ++ tpl) caps = l ++ expand tpl caps.
Proof.
  unfold expand. rewrite flat_map_app. f_equal.
  induction l as [|c l IH]; simpl; [done | by rewrite IH].
Qed.

(** ** The matcher on the script's patterns *)

Lemma rmatch_lit (m s : text) (caps : gmap nat text)
    (k : text -> gmap nat text -> option match_state) :
  rmatch (lit m) s caps k
  = if starts_with m s then k (drop (length m) s) caps else None.
Proof.
  revert s. induction m as [|a m IH]; intros s; simpl; [done|].
  destruct s as [|b s]; [done|].
  unfold ascii_eqb. rewrite (Ascii.eqb_sym a b).
  destruct (Ascii.eqb b a); simpl; [apply IH | done].
Qed.

Lemma rmatch_cat (r1 r2 : regex) (s : text) (caps : gmap nat text)
    (k : text -> gmap nat text -> option match_state) :
  rmatch (RCat r1 r2) s caps k
  = rmatch r1 s caps (fun rest caps' => rmatch r2 rest caps' k).
Proof. reflexivity. Qed.

Lemma rmatch_group (n : nat) (r : regex) (s : text) (caps : gmap nat text)
    (k : text -> gmap nat text -> option match_state) :
  rmatch (RGroup n r) s caps k
  = rmatch r s caps
      (fun rest caps' =>
         k rest (<[n := take (length s - length rest) s]> caps')).
Proof. reflexivity. Qed.

Lemma rmatch_star (c : ascii) (s : text) (caps : gmap nat text)
    (k : text -> gmap nat text -> option match_state) :
  rmatch (RStarNot c) s caps k = star_not c s (fun rest => k rest caps).
Proof. reflexivity. Qed.

Lemma take_app_suffix (m rest : text) :
  take (length (m ++ rest) - length rest) (m ++ rest) = m.
Proof.
  rewrite length_app.
  replace (length m + length rest - length rest)%nat with (length m) by lia.
  by rewrite take_app_length.
Qed.

Lemma starts_with_drop (m s : text) :
  starts_with m s = true -> s = m ++ drop (length m) s.
Proof.
  intros [t ->]%starts_with_spec. by rewrite drop_app_length.
Qed.

(** A one-group literal pattern matches at the start of [s] exactly when
    [s] starts with the literal; group 1 and the whole match are the
    literal. *)
Lemma match_at_literal (m s : text) :
  match_at (RGroup 1 (lit m)) s
  = if starts_with m s
    then Some (drop (length m) s, <[0%nat := m]> (<[1%nat := m]> ∅))
    else None.
Proof.
  unfold match_at. simpl. rewrite rmatch_lit.
  destruct (starts_with m s) eqn:E; [|done].
  apply starts_with_spec in E as [t ->].
  by rewrite drop_app_length, !take_app_suffix.
Qed.

Lemma star_not_sound (c : ascii) (s : text)
    (k : text -> option match_state) (r : match_state) :
  star_not c s k = Some r ->
  exists a b, s = a ++ b /\ avoids [c] a = true /\ k b = Some r.
Proof.
  induction s as [|x s IH]; simpl.
  - intros H. by exists [], [].
  - destruct (ascii_eqb x c) eqn:Exc.
    + intros H. by exists [], (x :: s).
    + destruct (star_not c s k) as [r'|] eqn:E.
      * intros [= ->]. destruct (IH eq_refl) as [a [b [-> [Ha Hk]]]].
        exists (x :: a), b. split; [done|]. split; [|done].
        apply avoids_one. split; [by apply ascii_eqb_false | done].
      * intros H. by exists [], (x :: s).
Qed.

Lemma star_not_complete (c : ascii) (a b : text)
    (k : text -> option match_state) :
  avoids [c] a = true -> is_Some (k b) -> is_Some (star_not c (a ++ b) k).
Proof.
  induction a as [|x a IH]; intros Ha Hk.
  - simpl. destruct b as [|y b]; simpl; [done|].
    destruct (ascii_eqb y c); [done|].
    destruct (star_not c b k); [done | done].
  - apply avoids_one in Ha as [Hx Ha]. simpl.
    apply ascii_eqb_false in Hx. rewrite Hx.
    destruct (IH Ha Hk) as [r ->]. done.
Qed.

(** With a continuation that always succeeds, the greedy star stops
    at the first [c] or at the end of the text. *)
Lemma star_not_total (c : ascii) (s : text)
    (k : text -> option match_state) :
  (forall rest, is_Some (k rest)) ->
  exists a b, s = a ++ b /\ avoids [c] a = true
              /\ (b = [] \/ exists t, b = c :: t)
              /\ star_not c s k = k b.
Proof.
  intros Hk. induction s as [|x s IH]; simpl.
  - exists [], []. auto.
  - destruct (ascii_eqb x c) eqn:Exc.
    + apply ascii_eqb_true in Exc as ->.
      exists [], (c :: s). repeat split; eauto.
    + destruct IH as [a [b [-> [Ha [Hb ->]]]]].
      exists (x :: a), b. destruct (Hk b) as [r ->].
      repeat split; [|done].
      apply avoids_one. split; [by apply ascii_eqb_false | done].
Qed.

(** What a match of a pattern shaped like the Sources pattern looks
    like: the opening literal, a body without [c1], the second literal,
    and the longest run without [c2]. *)
Lemma match_at_block (so fo : text) (c1 c2 : ascii) (s rest : text)
    (caps : gmap nat text) :
  match_at (RCat (RGroup 1 (RCat (lit so) (RCat (RStarNot c1) (lit fo))))
                 (RGroup 2 (RStarNot c2))) s = Some (rest, caps) ->
  exists body entries,
    s = (so ++ body ++ fo) ++ entries ++ rest
    /\ avoids [c1] body = true
    /\ avoids [c2] entries = true
    /\ (rest = [] \/ exists t, rest = c2 :: t)
    /\ caps !! 0%nat = Some ((so ++ body ++ fo) ++ entries)
    /\ caps !! 1%nat = Some (so ++ body ++ fo)
    /\ caps !! 2%nat = Some entries.
Proof.
  unfold match_at.
  rewrite rmatch_cat, rmatch_group, rmatch_cat, rmatch_lit.
  destruct (starts_with so s) eqn:E1; [|done].
  apply starts_with_spec in E1 as [s1 ->]. rewrite drop_app_length.
  rewrite rmatch_cat, rmatch_star.
  match goal with |- context [star_not c1 s1 ?k] =>
    destruct (star_not c1 s1 k) as [[rest' caps']|] eqn:E2; [|done] end.
  apply star_not_sound in E2 as [body [b [-> [Hbody Hk]]]].
  rewrite rmatch_lit in Hk.
  destruct (starts_with fo b) eqn:E3; [|done].
  apply starts_with_spec in E3 as [s2 ->]. rewrite drop_app_length in Hk.
  rewrite rmatch_group, rmatch_star in Hk.
  match type of Hk with star_not _ _ ?k = _ =>
    destruct (star_not_total c2 s2 k) as [entries [r2 [-> [Hent [Hr2 Hst]]]]];
      [by eauto|]
  end.
  rewrite Hst in Hk. injection Hk as <- <-. intros [= <- <-].
  set (g1 := so ++ body ++ fo).
  assert (Hs : so ++ body ++ fo ++ entries ++ r2 = g1 ++ entries ++ r2).
  { unfold g1. by rewrite <- !app_assoc. }
  rewrite !Hs.
  exists body, entries. split; [done|]. do 3 (split; [done|]).
  rewrite (take_app_suffix entries r2), (take_app_suffix g1 (entries ++ r2)).
  rewrite (app_assoc g1 entries r2), (take_app_suffix (g1 ++ entries) r2).
  split; [by rewrite lookup_insert_eq|].
  split.
  - rewrite lookup_insert_ne by done. rewrite lookup_insert_ne by done.
    by rewrite lookup_insert_eq.
  - rewrite lookup_insert_ne by done. by rewrite lookup_insert_eq.
Qed.

Lemma match_at_sources (s rest : text) (caps : gmap nat text) :
  match_at (pat_regex sources_pattern) s = Some (rest, caps) ->
  exists body entries,
    s = (SOURCES_OPEN ++ body ++ FILES_OPEN) ++ entries ++ rest
    /\ avoids ["}"%char] body = true
    /\ avoids [")"%char] entries = true
    /\ (rest = [] \/ exists t, rest = ")"%char :: t)
    /\ caps !! 0%nat = Some ((SOURCES_OPEN ++ body ++ FILES_OPEN) ++ entries)
    /\ caps !! 1%nat = Some (SOURCES_OPEN ++ body ++ FILES_OPEN)
    /\ caps !! 2%nat = Some entries.
Proof. apply match_at_block. Qed.

(** The converse: a text of that shape is matched (possibly with a
    longer body, when the second literal occurs again before [c1]). *)
Lemma match_at_block_complete (so fo : text) (c1 c2 : ascii)
    (body t : text) :
  avoids [c1] body = true ->
  is_Some (match_at (RCat (RGroup 1 (RCat (lit so) (RCat (RStarNot c1) (lit fo))))
                          (RGroup 2 (RStarNot c2))) (so ++ body ++ fo ++ t)).
Proof.
  intros Hbody. unfold match_at.
  rewrite rmatch_cat, rmatch_group, rmatch_cat, rmatch_lit.
  rewrite starts_with_app, drop_app_length, rmatch_cat, rmatch_star.
  match goal with |- context [star_not c1 _ ?k] =>
    destruct (star_not_complete c1 body (fo ++ t) k Hbody) as [[r c] ->];
      [|done]
  end.
  rewrite rmatch_lit, starts_with_app, drop_app_length.
  rewrite rmatch_group, rmatch_star.
  match goal with |- context [star_not c2 t ?k] =>
    destruct (star_not_total c2 t k) as [a [b [_ [_ [_ ->]]]]]; [by eauto|]
  end.
  done.
Qed.

Lemma star_not_maximal (c : ascii) (s : text)
    (k : text -> option match_state) (r : match_state) :
  star_not c s k = Some r ->
  exists a b, s = a ++ b /\ avoids [c] a = true /\ k b = Some r
    /\ forall a' b', s = a' ++ b' -> avoids [c] a' = true -> is_Some (k b') ->
         (length a' <= length a)%nat.
Proof.
  revert r. induction s as [|x s IH]; intros r; simpl.
  - intros H. exists [], []. repeat split; [done|].
    intros a' b' Hs _ _. symmetry in Hs. by apply app_eq_nil in Hs as [-> _].
  - destruct (ascii_eqb x c) eqn:Exc.
    + intros H. exists [], (x :: s). repeat split; [done|].
      intros a' b' Hs Ha' _. destruct a' as [|y a']; [done|].
      injection Hs as -> _. apply avoids_one in Ha' as [Hne _].
      by apply ascii_eqb_false in Hne; congruence.
    + destruct (star_not c s k) as [r'|] eqn:E.
      * intros [= ->]. destruct (IH _ eq_refl) as (a & b & -> & Ha & Hk & Hmax).
        exists (x :: a), b. split; [done|]. split.
        { apply avoids_one. split; [by apply ascii_eqb_false | done]. }
        split; [done|]. intros a' b' Hs Ha' Hk'.
        destruct a' as [|y a']; [simpl; lia|].
        injection Hs as -> Hs. apply avoids_one in Ha' as [_ Ha'].
        specialize (Hmax a' b' Hs Ha' Hk'). simpl. lia.
      * intros H. exists [], (x :: s). repeat split; [done|].
        intros a' b' Hs Ha' Hk'. destruct a' as [|y a']; [done|].
        injection Hs as -> Hs. apply avoids_one in Ha' as [_ Ha'].
        subst s. destruct (star_not_complete c a' b' k Ha' Hk') as [? ?].
        congruence.
Qed.

(** A match of a pattern shaped like the Sources pattern, in full: the
    body is the longest one without [c1] behind which the second literal
    stands, the entries are the longest run without [c2]. *)
Lemma match_at_block_greedy (so fo : text) (c1 c2 : ascii) (s rest : text)
    (caps : gmap nat text) :
  match_at (RCat (RGroup 1 (RCat (lit so) (RCat (RStarNot c1) (lit fo))))
                 (RGroup 2 (RStarNot c2))) s = Some (rest, caps) ->
  exists body entries,
    s = (so ++ body ++ fo) ++ entries ++ rest
    /\ avoids [c1] body = true
    /\ avoids [c2] entries = true
    /\ (rest = [] \/ exists t, rest = c2 :: t)
    /\ caps !! 1%nat = Some (so ++ body ++ fo)
    /\ caps !! 2%nat = Some entries
    /\ forall body' t', s = so ++ body' ++ fo ++ t' ->
         avoids [c1] body' = true -> (length body' <= length body)%nat.
Proof.
  unfold match_at.
  rewrite rmatch_cat, rmatch_group, rmatch_cat, rmatch_lit.
  destruct (starts_with so s) eqn:E1; [|done].
  apply starts_with_spec in E1 as [s1 ->]. rewrite drop_app_length.
  rewrite rmatch_cat, rmatch_star.
  match goal with |- context [star_not c1 s1 ?k] =>
    destruct (star_not c1 s1 k) as [[rest' caps']|] eqn:E2; [|done] end.
  apply star_not_maximal in E2 as (body & b & -> & Hbody & Hk & Hmax).
  assert (Hgreedy : forall body' t', so ++ body ++ b = so ++ body' ++ fo ++ t' ->
            avoids [c1] body' = true -> (length body' <= length body)%nat).
  { intros body' t' Hs' Hb'. apply app_inv_head in Hs'.
    apply (Hmax body' (fo ++ t') Hs' Hb').
    rewrite rmatch_lit, starts_with_app, drop_app_length.
    rewrite rmatch_group, rmatch_star.
    match goal with |- context [star_not c2 t' ?k] =>
      destruct (star_not_total c2 t' k) as (? & ? & _ & _ & _ & ->);
        [by eauto|]
    end.
    done. }
  clear Hmax. rewrite rmatch_lit in Hk.
  destruct (starts_with fo b) eqn:E3; [|done].
  apply starts_with_spec in E3 as [s2 ->]. rewrite drop_app_length in Hk.
  rewrite rmatch_group, rmatch_star in Hk.
  match type of Hk with star_not _ _ ?k = _ =>
    destruct (star_not_total c2 s2 k) as [entries [r2 [-> [Hent [Hr2 Hst]]]]];
      [by eauto|]
  end.
  rewrite Hst in Hk. injection Hk as <- <-. intros [= <- <-].
  set (g1 := so ++ body ++ fo).
  assert (Hs : so ++ body ++ fo ++ entries ++ r2 = g1 ++ entries ++ r2).
  { unfold g1. by rewrite <- !app_assoc. }
  rewrite !Hs. rewrite Hs in Hgreedy.
  exists body, entries. split; [done|]. do 3 (split; [done|]).
  rewrite (take_app_suffix entries r2), (take_app_suffix g1 (entries ++ r2)).
  split; [|split; [|exact Hgreedy]].
  - rewrite lookup_insert_ne by done. rewrite lookup_insert_ne by done.
    by rewrite lookup_insert_eq.
  - rewrite lookup_insert_ne by done. by rewrite lookup_insert_eq.
Qed.


(** ** The scan of [re.sub] as a sequence of insertions *)

Lemma scan_skip (r : regex) (tpl : list titem) (k : nat) (s : text) :
  scan r tpl k s = scan r tpl 0 (drop k s).
Proof.
  revert k. induction s as [|c s IH]; intros k.
  - by destruct k.
  - destruct k as [|k]; [done|]. simpl. rewrite IH. done.
Qed.

Lemma count_matches_skip (r : regex) (k : nat) (s : text) :
  count_matches r k s = count_matches r 0 (drop k s).
Proof.
  revert k. induction s as [|c s IH]; intros k.
  - by destruct k.
  - destruct k as [|k]; [done|]. simpl. rewrite IH. done.
Qed.

Lemma scan_nomatch (r : regex) (tpl : list titem) (c : ascii) (s : text) :
  match_at r (c :: s) = None ->
  scan r tpl 0 (c :: s) = c :: scan r tpl 0 s.
Proof. intros H. simpl. by rewrite H. Qed.

Lemma scan_match (r : regex) (tpl : list titem) (m rest : text)
    (caps : gmap nat text) :
  m <> [] -> match_at r (m ++ rest) = Some (rest, caps) ->
  scan r tpl 0 (m ++ rest) = expand tpl caps ++ scan r tpl 0 rest.
Proof.
  intros Hm H. destruct m as [|c m]; [done|].
  change ((c :: m) ++ rest) with (c :: (m ++ rest)) in *.
  cbn [scan]. rewrite H. f_equal.
  cbn [length]. rewrite length_app.
  replace (S (length m + length rest) - length rest)%nat
    with (S (length m)) by lia.
  by rewrite scan_skip, drop_app_length.
Qed.

Lemma count_nomatch (r : regex) (c : ascii) (s : text) :
  match_at r (c :: s) = None ->
  count_matches r 0 (c :: s) = count_matches r 0 s.
Proof. intros H. simpl. by rewrite H. Qed.

Lemma count_match (r : regex) (m rest : text) (caps : gmap nat text) :
  m <> [] -> match_at r (m ++ rest) = Some (rest, caps) ->
  count_matches r 0 (m ++ rest) = S (count_matches r 0 rest).
Proof.
  intros Hm H. destruct m as [|c m]; [done|].
  change ((c :: m) ++ rest) with (c :: (m ++ rest)) in *.
  cbn [count_matches]. rewrite H. f_equal.
  cbn [length]. rewrite length_app.
  replace (S (length m + length rest) - length rest)%nat
    with (S (length m)) by lia.
  by rewrite count_matches_skip, drop_app_length.
Qed.

Lemma insertions_copy_app (P : text -> Prop) (frag m : text) (n : nat)
    (s s' : text) :
  insertions P frag n s s' -> insertions P frag n (m ++ s) (m ++ s').
Proof.
  intros H. induction m as [|c m IH]; [done|]. simpl. by constructor.
Qed.

Section ScanInsertions.

Variable r : regex.
Variable tpl : list titem.
Variable P : text -> Prop.
Variable frag : text.

(** The pattern never matches the empty text, and the template puts
    [frag] in front of a match that starts where [P] holds, or behind a
    match that ends where [P] holds. *)
Hypothesis no_empty_match : match_at r [] = None.
Hypothesis match_shape : forall s rest caps,
  match_at r s = Some (rest, caps) ->
  exists m, s = m ++ rest /\ m <> []
            /\ ((expand tpl caps = frag ++ m /\ P s)
                \/ (expand tpl caps = m ++ frag /\ P rest)).

Lemma scan_insertions (s : text) :
  insertions P frag (count_matches r 0 s) s (scan r tpl 0 s).
Proof.
  remember (length s) as n eqn:Hn. revert s Hn.
  induction n as [n IH] using lt_wf_ind. intros s Hn.
  destruct s as [|c s].
  - simpl. rewrite no_empty_match. constructor.
  - destruct (match_at r (c :: s)) as [[rest caps]|] eqn:E.
    + destruct (match_shape _ _ _ E) as [m [Hs [Hm Hexp]]].
      rewrite Hs in E |- *.
      rewrite (scan_match _ _ _ _ _ Hm E), (count_match _ _ _ _ Hm E).
      assert (Hlt : (length rest < n)%nat).
      { subst n. rewrite Hs, length_app. destruct m; [done | simpl; lia]. }
      specialize (IH _ Hlt rest eq_refl).
      destruct Hexp as [[-> HP] | [-> HP]].
      * rewrite <- app_assoc. apply ins_here; [by rewrite <- Hs |].
        by apply insertions_copy_app.
      * rewrite <- app_assoc. apply insertions_copy_app.
        by apply ins_here.
    + rewrite (scan_nomatch _ _ _ _ E), (count_nomatch _ _ _ E).
      apply ins_copy. apply (IH (length s)); [subst n; simpl; lia | done].
Qed.

End ScanInsertions.

(** ** What a sequence of insertions keeps and adds *)

Section Insertions.

Variable P : text -> Prop.
Variable frag : text.

Lemma insertions_zero (s s' : text) : insertions P frag 0 s s' -> s' = s.
Proof.
  remember 0%nat as n eqn:Hn. induction 1 as [|c n s s' H IH|]; [done | | done].
  by rewrite (IH Hn).
Qed.

Lemma insertions_positive (n : nat) (s s' : text) :
  insertions P frag (S n) s s' -> contains frag s' = true.
Proof.
  remember (S n) as k eqn:Hk. intros H. revert n Hk.
  induction H as [|c k s s' H IH|k s s' HP H IH]; intros n Hk; [done | |].
  - apply (contains_app_r _ [c]). by apply (IH n).
  - apply contains_app_l, contains_refl.
Qed.

Lemma insertions_length (n : nat) (s s' : text) :
  insertions P frag n s s' ->
  length s' = (length s + n * length frag)%nat.
Proof.
  induction 1 as [|c k s s' H IH|k s s' HP H IH]; simpl; [done | lia |].
  rewrite length_app. lia.
Qed.

(** Exactly one insertion: the text is cut once, at a point where [P]
    holds, and the fragment put in between. *)
Lemma insertions_once (s s' : text) :
  insertions P frag 1 s s' ->
  exists pre post, s = pre ++ post /\ s' = pre ++ frag ++ post /\ P post.
Proof.
  remember 1%nat as n eqn:Hn. intros H. revert Hn.
  induction H as [|c k s s' H IH|k s s' HP H IH]; intros Hn; [done | |].
  - destruct (IH Hn) as [pre [post [-> [-> HP]]]].
    by exists (c :: pre), post.
  - injection Hn as ->. apply insertions_zero in H as ->.
    by exists [], s.
Qed.

(** The characters an insertion point can stand in front of. *)
Variable heads : text.
Hypothesis P_heads : forall c t, P (c :: t) -> In c heads.

Lemma heads_not_avoided (c : ascii) (u : text) :
  In c heads -> avoids heads (c :: u) = false.
Proof.
  intros Hc. rewrite avoids_cons. apply andb_false_iff. left.
  apply negb_false_iff, existsb_exists. exists c.
  split; [done | apply ascii_eqb_refl].
Qed.

Lemma insertions_keep_prefix (u b : text) (n : nat) (y : text) :
  avoids heads u = true -> insertions P frag n (u ++ b) y ->
  exists b', y = u ++ b'.
Proof.
  revert n y. induction u as [|c u IH]; intros n y Hu H.
  - by exists y.
  - assert (Hu' : avoids heads u = true).
    { rewrite avoids_cons in Hu. by apply andb_true_iff in Hu as [_ ?]. }
    remember ((c :: u) ++ b) as x eqn:Hx. revert Hx.
    induction H as [|c' k s s' H _|k s s' HP H _]; intros Hx; [done | |].
    + injection Hx as -> ->. destruct (IH _ _ Hu' H) as [b' ->].
      by exists b'.
    + subst s. apply P_heads in HP.
      by rewrite (heads_not_avoided _ _ HP) in Hu.
Qed.

Lemma insertions_keep_word (u b : text) (n : nat) (y : text) :
  avoids heads (tail u) = true -> insertions P frag n (u ++ b) y ->
  exists f b', y = f ++ u ++ b'.
Proof.
  intros Hu H. remember (u ++ b) as x eqn:Hx. revert Hx.
  induction H as [|c k s s' H IH|k s s' HP H IH]; intros Hx.
  - symmetry in Hx. apply app_eq_nil in Hx as [-> ->]. by exists [], [].
  - destruct u as [|c' u].
    + by exists [], (c :: s').
    + injection Hx as -> ->.
      destruct (insertions_keep_prefix _ _ _ _ Hu H) as [b' ->].
      by exists [], b'.
  - destruct (IH Hx) as [f [b' ->]].
    exists (frag ++ f), b'. by rewrite <- app_assoc.
Qed.

Lemma insertions_split (a x : text) (n : nat) (y : text) :
  insertions P frag n (a ++ x) y ->
  exists ya y' n', y = ya ++ y' /\ insertions P frag n' x y'.
Proof.
  intros H. remember (a ++ x) as s eqn:Hs. revert a Hs.
  induction H as [|c k s s' H IH|k s s' HP H IH]; intros a Hs.
  - symmetry in Hs. apply app_eq_nil in Hs as [-> ->].
    exists [], [], 0%nat. split; [done | constructor].
  - destruct a as [|c' a].
    + simpl in Hs. subst x. exists [], (c :: s'), k.
      split; [done | by constructor].
    + injection Hs as -> ->. destruct (IH a eq_refl) as [ya [y' [n' [-> H']]]].
      by exists (c' :: ya), y', n'.
  - destruct (IH a Hs) as [ya [y' [n' [-> H']]]].
    exists (frag ++ ya), y', n'. by rewrite <- app_assoc.
Qed.

(** A word that occurs in the text still occurs after the insertions,
    when none of its characters after the first can follow an insertion
    point. *)
Lemma insertions_keep_contains (u s s' : text) (n : nat) :
  avoids heads (tail u) = true -> insertions P frag n s s' ->
  contains u s = true -> contains u s' = true.
Proof.
  intros Hu H [a [b ->]]%contains_spec.
  destruct (insertions_split _ _ _ _ H) as [ya [y' [n' [-> H']]]].
  destruct (insertions_keep_word _ _ _ _ Hu H') as [f [b' ->]].
  apply contains_spec. exists (ya ++ f), b'. by rewrite <- !app_assoc.
Qed.

End Insertions.

Lemma before_marker_heads (c0 : ascii) (m : text) (c : ascii) (t : text) :
  before_marker (c0 :: m) (c :: t) -> In c [c0].
Proof.
  unfold before_marker. simpl.
  intros [->%ascii_eqb_true _]%andb_true_iff. by left.
Qed.

Lemma at_list_end_heads (c : ascii) (t : text) :
  at_list_end (c :: t) -> In c [")"%char].
Proof. intros [H | [t' [= -> _]]]; [done | by left]. Qed.

(** ** The three substitutions of the script *)

Lemma match_at_literal_empty (c : ascii) (m : text) :
  match_at (RGroup 1 (lit (c :: m))) [] = None.
Proof. by rewrite match_at_literal. Qed.

Lemma match_shape_literal (m frag : text) (s rest : text)
    (caps : gmap nat text) :
  m <> [] ->
  match_at (RGroup 1 (lit m)) s = Some (rest, caps) ->
  exists w, s = w ++ rest /\ w <> []
            /\ ((expand (map ILit frag ++ [IGroup 1]) caps = frag ++ w
                 /\ before_marker m s)
                \/ (expand (map ILit frag ++ [IGroup 1]) caps = w ++ frag
                    /\ before_marker m rest)).
Proof.
  intros Hm. rewrite match_at_literal.
  destruct (starts_with m s) eqn:E; [|done]. intros [= <- <-].
  exists m. split; [by apply starts_with_drop|]. split; [done|]. left.
  split; [|done]. rewrite expand_literal. unfold expand. simpl.
  rewrite lookup_insert_ne by done. rewrite lookup_insert_eq. simpl.
  by rewrite app_nil_r.
Qed.

(** Substituting [frag + r'\1'] for a one-group literal pattern puts a
    copy of [frag] in front of every match of the marker. *)
Lemma re_sub_marker (m frag s : text) :
  m <> [] -> avoids [backslash] frag = true ->
  exists y,
    re_sub {| pat_groups := 1; pat_regex := RGroup 1 (lit m) |}
      (frag ++ txt "\1") s = Ok y
    /\ insertions (before_marker m) frag
         (count_matches (RGroup 1 (lit m)) 0 s) s y.
Proof.
  intros Hm Hfrag. unfold re_sub. cbn [pat_groups pat_regex].
  rewrite (parse_template_group1 0 _ Hfrag).
  eexists. split; [reflexivity|].
  apply scan_insertions.
  - destruct m; [done | apply match_at_literal_empty].
  - intros s0 rest caps. by apply match_shape_literal.
Qed.

Lemma match_at_sources_empty : match_at (pat_regex sources_pattern) [] = None.
Proof. reflexivity. Qed.

Lemma sources_template_eq (u name : text) :
  sources_template u name
  = txt "\1\2\n\t\t\t\t" ++ (u ++ txt " /* " ++ name ++ txt " in Sources */,").
Proof. reflexivity. Qed.

Lemma sources_reference_eq (u name : text) :
  sources_reference u name
  = [nl; tab; tab; tab; tab] ++ (u ++ txt " /* " ++ name ++ txt " in Sources */,").
Proof. reflexivity. Qed.

Lemma expand_sources (l g0 g1 g2 : text) (caps : gmap nat text) :
  caps !! 1%nat = Some g1 -> caps !! 2%nat = Some g2 ->
  expand ([IGroup 1; IGroup 2; ILit nl; ILit tab; ILit tab; ILit tab;
           ILit tab] ++ map ILit l) caps
  = (g1 ++ g2) ++ [nl; tab; tab; tab; tab] ++ l.
Proof.
  intros H1 H2. unfold expand. rewrite flat_map_app. cbn [flat_map].
  rewrite H1, H2. simpl default.
  change (flat_map _ (map ILit l)) with (expand (map ILit l) caps).
  rewrite <- (app_nil_r (map ILit l)), expand_literal.
  simpl. rewrite !app_nil_r. by rewrite <- !app_assoc.
Qed.

(** The third substitution puts the reference behind every match of the
    Sources pattern. *)
Lemma re_sub_sources (u name s : text) :
  avoids [backslash] u = true -> avoids [backslash] name = true ->
  exists y,
    re_sub sources_pattern (sources_template u name) s = Ok y
    /\ insertions at_list_end (sources_reference u name)
         (count_matches (pat_regex sources_pattern) 0 s) s y.
Proof.
  intros Hu Hname. unfold re_sub. cbn [pat_groups sources_pattern].
  rewrite sources_template_eq, parse_template_sources.
  2:{ rewrite !avoids_app, Hu, Hname. reflexivity. }
  eexists. split; [reflexivity|].
  apply scan_insertions; [apply match_at_sources_empty|].
  intros s0 rest caps Hmatch.
  destruct (match_at_sources _ _ _ Hmatch)
    as [body [entries [Hs [_ [_ [Hrest [_ [H1 H2]]]]]]]].
  exists ((SOURCES_OPEN ++ body ++ FILES_OPEN) ++ entries).
  split; [by rewrite <- app_assoc|]. split; [by destruct SOURCES_OPEN eqn:E|].
  right. split; [|done].
  rewrite sources_reference_eq. by apply expand_sources.
Qed.

Lemma uuid_no_backslash (r : N) : avoids [backslash] (generate_uuid r) = true.
Proof. apply hex_avoids; [apply generate_uuid_hex | reflexivity]. Qed.

Lemma file_ref_record_plain (u name path : text) :
  avoids [backslash] u = true -> avoids [backslash] name = true ->
  avoids [backslash] path = true ->
  avoids [backslash] (file_ref_record u name path) = true.
Proof.
  intros Hu Hn Hp. unfold file_ref_record.
  rewrite !avoids_app, Hu, Hn, Hp. reflexivity.
Qed.

Lemma build_file_record_plain (u2 u1 name : text) :
  avoids [backslash] u2 = true -> avoids [backslash] u1 = true ->
  avoids [backslash] name = true ->
  avoids [backslash] (build_file_record u2 u1 name) = true.
Proof.
  intros Hu2 Hu1 Hn. unfold build_file_record.
  rewrite !avoids_app, Hu2, Hu1, Hn. reflexivity.
Qed.

(** One insertion: the three substitutions succeed, and each puts its
    record at every match of its pattern in the text it is applied to. *)
Lemma insert_records_spec (u1 u2 path name x : text) :
  avoids [backslash] u1 = true -> avoids [backslash] u2 = true ->
  avoids [backslash] path = true -> avoids [backslash] name = true ->
  exists c1 c2 c3,
    insert_records u1 u2 path name x = Ok c3
    /\ insertions (before_marker END_FILE_REFERENCE)
         (file_ref_record u1 name path)
         (count_matches (pat_regex file_reference_pattern) 0 x) x c1
    /\ insertions (before_marker END_BUILD_FILE)
         (build_file_record u2 u1 name)
         (count_matches (pat_regex build_file_pattern) 0 c1) c1 c2
    /\ insertions at_list_end (sources_reference u2 name)
         (count_matches (pat_regex sources_pattern) 0 c2) c2 c3.
Proof.
  intros Hu1 Hu2 Hp Hn. unfold insert_records.
  destruct (re_sub_marker END_FILE_REFERENCE (file_ref_record u1 name path) x)
    as [c1 [E1 H1]]; [done | by apply file_ref_record_plain |].
  destruct (re_sub_marker END_BUILD_FILE (build_file_record u2 u1 name) c1)
    as [c2 [E2 H2]]; [done | by apply build_file_record_plain |].
  destruct (re_sub_sources u2 name c2) as [c3 [E3 H3]]; [done | done |].
  exists c1, c2, c3.
  change (re_sub file_reference_pattern) with
    (re_sub {| pat_groups := 1; pat_regex := RGroup 1 (lit END_FILE_REFERENCE) |}).
  rewrite E1.
  change (re_sub build_file_pattern) with
    (re_sub {| pat_groups := 1; pat_regex := RGroup 1 (lit END_BUILD_FILE) |}).
  rewrite E2. done.
Qed.

(** ** Running the loop body *)

Section Loop.

Variable orc : Oracle.

Lemma process_candidate_absent (path name content : text) (n : nat)
    (st : State) :
  files (world st) !! (PROJECT_DIR ++ txt "/" ++ path) = None ->
  process_candidate orc (path, name) content n st
  = (logged st [EPrint (txt "SKIP: " ++ name ++ txt " not on disk")],
     Ok (content, n)).
Proof.
  intros H. unfold process_candidate, path_exists, get_world.
  unfold mbind, M_bind, mret, M_ret. rewrite H.
  rewrite bool_decide_eq_false_2 by (by intros [? ?]). reflexivity.
Qed.

Lemma process_candidate_present (path name content : text) (n : nat)
    (st : State) :
  is_Some (files (world st) !! (PROJECT_DIR ++ txt "/" ++ path)) ->
  contains name content = true ->
  process_candidate orc (path, name) content n st
  = (logged st [EPrint (txt "OK: " ++ name ++ txt " already in project")],
     Ok (content, n)).
Proof.
  intros H Hc. unfold process_candidate, path_exists, get_world.
  unfold mbind, M_bind, mret, M_ret.
  rewrite bool_decide_eq_true_2 by done. simpl negb. cbv iota.
  rewrite Hc. reflexivity.
Qed.

Lemma process_candidate_added (path name content y : text) (n : nat)
    (st : State) :
  is_Some (files (world st) !! (PROJECT_DIR ++ txt "/" ++ path)) ->
  contains name content = false ->
  insert_records (uuid_at orc (drawn st)) (uuid_at orc (S (drawn st)))
    path name content = Ok y ->
  process_candidate orc (path, name) content n st
  = ({| world := world st; drawn := S (S (drawn st));
        log := log st ++ [EPrint (txt "ADDING: " ++ name ++ txt "...");
                          EPrint (txt "  Added " ++ name)] |},
     Ok (y, S n)).
Proof.
  intros H Hc Hy. unfold process_candidate, path_exists, get_world.
  unfold mbind, M_bind, mret, M_ret.
  rewrite bool_decide_eq_true_2 by done. simpl negb. cbv iota.
  rewrite Hc. unfold print, emit, fresh_uuid, lift. cbn [world drawn log].
  change (negb true) with false. cbv beta iota.
  unfold uuid_at in Hy. rewrite Hy. by rewrite <- app_assoc.
Qed.

End Loop.

(** ** Cache eviction and build *)

Lemma quiet_refl (st : State) : quiet st st [].
Proof. unfold quiet. by rewrite app_nil_r. Qed.

Lemma quiet_trans (st1 st2 st3 : State) (es es' : list event) :
  quiet st1 st2 es -> quiet st2 st3 es' -> quiet st1 st3 (es ++ es').
Proof.
  intros (Hf & Hd & Hl & He) (Hf' & Hd' & Hl' & He'). unfold quiet.
  rewrite Hf', Hf, Hd', Hd, Hl', Hl, forallb_app, He, He'.
  by rewrite <- app_assoc.
Qed.

Lemma silent_refl (st : State) : silent st st [].
Proof. split; [done | apply quiet_refl]. Qed.

Lemma silent_trans (st1 st2 st3 : State) (es es' : list event) :
  silent st1 st2 es -> silent st2 st3 es' -> silent st1 st3 (es ++ es').
Proof.
  intros [Hw Hq] [Hw' Hq']. split; [congruence | by eapply quiet_trans].
Qed.

Lemma print_silent (line : text) (st : State) :
  exists st', print line st = (st', Ok tt) /\ silent st st' [EPrint line].
Proof. eexists. split; [reflexivity | done]. Qed.

Lemma for_each_rel {A} (R : State -> State -> list event -> Prop)
    (l : list A) (body : A -> M unit) :
  (forall st, R st st []) ->
  (forall st1 st2 st3 es es',
     R st1 st2 es -> R st2 st3 es' -> R st1 st3 (es ++ es')) ->
  (forall x st, exists st' es, body x st = (st', Ok tt) /\ R st st' es) ->
  forall st, exists st' es, for_each l body st = (st', Ok tt) /\ R st st' es.
Proof.
  intros Hrefl Htrans Hbody. induction l as [|x l IH]; intros st.
  - exists st, []. split; [done | apply Hrefl].
  - destruct (Hbody x st) as (st1 & es1 & E1 & Hq1).
    destruct (IH st1) as (st2 & es2 & E2 & Hq2).
    exists st2, (es1 ++ es2). split; [|by eapply Htrans].
    cbn [for_each]. unfold mbind, M_bind. by rewrite E1.
Qed.

Lemma clean_derived_data_quiet (st : State) :
  exists st' es, clean_derived_data st = (st', Ok tt) /\ quiet st st' es.
Proof.
  unfold clean_derived_data, get_world.
  unfold mbind at 1, M_bind at 1.
  destruct (derived_data (world st)) as [items|].
  - apply for_each_rel; [apply quiet_refl | apply quiet_trans |].
    intros item st0.
    destruct (contains (txt "Redi") item).
    + eexists _, [ERmtree DERIVED_DATA item; EPrint _].
      split; [reflexivity|]. unfold quiet. cbn. by rewrite <- app_assoc.
    + exists st0, []. split; [done | apply quiet_refl].
  - exists st, []. split; [done | apply quiet_refl].
Qed.

Lemma build_silent (orc : Oracle) (st : State) :
  exists st' es,
    build orc st = (st', Ok (returncode (run_shell orc BUILD_CMD (world st))))
    /\ silent st st' es /\ In (ERun BUILD_CMD) es.
Proof.
  unfold build, get_world.
  set (result := run_shell orc BUILD_CMD (world st)).
  set (lines := last_n 30 (split_lines (strip (stdout result ++ stderr result)))).
  destruct (print_silent (nl :: txt "Building project...") st)
    as (st1 & E1 & H1).
  assert (E2 : emit (ERun BUILD_CMD) st1 = (logged st1 [ERun BUILD_CMD], Ok tt))
    by done.
  assert (H2 : silent st1 (logged st1 [ERun BUILD_CMD]) [ERun BUILD_CMD])
    by done.
  destruct (print_silent (nl :: txt "Build output (last 30 lines):")
              (logged st1 [ERun BUILD_CMD])) as (st3 & E3 & H3).
  destruct (for_each_rel silent lines
              (fun line => print (txt "  " ++ line)) silent_refl silent_trans)
    with (st := st3) as (st4 & es4 & E4 & H4).
  { intros line st0. destruct (print_silent (txt "  " ++ line) st0) as (? & ? & ?).
    eauto. }
  set (banner := if (returncode result =? 0)%Z
                 then nl :: txt "✅ BUILD SUCCEEDED"
                 else nl :: txt "❌ BUILD FAILED").
  destruct (print_silent banner st4) as (st5 & E5 & H5).
  exists st5, ((((([EPrint (nl :: txt "Building project...")]
                    ++ [ERun BUILD_CMD])
                   ++ [EPrint (nl :: txt "Build output (last 30 lines):")])
                  ++ es4) ++ [EPrint banner])).
  split.
  - unfold mbind, M_bind, mret, M_ret. rewrite E1.
    assert (Hw : world st1 = world st) by apply H1.
    cbn [world]. rewrite E2, E3, Hw. fold result. fold lines. rewrite E4.
    replace (if (returncode result =? 0)%Z
             then print (nl :: txt "✅ BUILD SUCCEEDED")
             else print (nl :: txt "❌ BUILD FAILED"))
      with (print banner)
      by (unfold banner; by destruct (_ =? _)%Z).
    by rewrite E5.
  - split.
    + repeat (eapply silent_trans; [|eassumption]). done.
    + rewrite !in_app_iff. left. left. left. right. by left.
Qed.

Lemma finish_quiet (orc : Oracle) (st : State) :
  exists st' es,
    finish orc st
    = (st', Ok (returncode (run_shell orc BUILD_CMD (world st'))))
    /\ quiet st st' es /\ In (ERun BUILD_CMD) es.
Proof.
  unfold finish.
  destruct (print_silent (nl :: txt "Cleaning Xcode caches...") st)
    as (st1 & E1 & Hq1).
  destruct (clean_derived_data_quiet st1) as (st2 & es2 & E2 & Hq2).
  destruct (build_silent orc st2) as (st3 & es3 & E3 & [Hw3 Hq3] & Hrun).
  exists st3, ([EPrint (nl :: txt "Cleaning Xcode caches...")] ++ es2 ++ es3).
  split; [|split].
  - unfold mbind, M_bind. rewrite E1, E2, E3. by rewrite Hw3.
  - eapply quiet_trans; [apply Hq1|]. by eapply quiet_trans.
  - rewrite !in_app_iff. by right; right.
Qed.

(** ** The loop over the candidates *)

Section LoopRuns.

Variable orc : Oracle.

Lemma process_candidate_step (cand : text * text) (content : text)
    (n : nat) (st : State) :
  no_escape cand = true ->
  exists st' y n' es,
    process_candidate orc cand content n st = (st', Ok (y, n'))
    /\ world st' = world st
    /\ log st' = log st ++ es
    /\ step orc (world st) cand (content, n, drawn st) (y, n', drawn st') es.
Proof.
  destruct cand as [path name]. intros [Hp Hn]%andb_true_iff.
  cbn [fst snd] in Hp, Hn.
  destruct (files (world st) !! (PROJECT_DIR ++ txt "/" ++ path)) as [c|] eqn:E.
  - assert (Hdisk : on_disk (world st) (path, name)).
    { unfold on_disk. cbn [fst]. by rewrite E. }
    destruct (contains name content) eqn:Hc.
    + eexists _, content, n, _. split.
      * apply process_candidate_present; [exact Hdisk | done].
      * split; [done|]. split; [reflexivity|].
        by apply (step_present orc (world st) (path, name)).
    + destruct (insert_records_spec (uuid_at orc (drawn st))
                  (uuid_at orc (S (drawn st))) path name content)
        as (c1 & c2 & y & Hy & H1 & H2 & H3);
        [apply uuid_no_backslash | apply uuid_no_backslash | done | done |].
      eexists _, y, (S n), _. split.
      * apply process_candidate_added; [exact Hdisk | done | done].
      * split; [done|]. split; [reflexivity|]. cbn [drawn].
        apply (step_added orc (world st) (path, name)); [done | done | done |].
        by exists c1, c2.
  - eexists _, content, n, _. split.
    + by apply process_candidate_absent.
    + split; [done|]. split; [reflexivity|].
      apply (step_absent orc (world st) (path, name)).
      unfold on_disk. cbn [fst]. rewrite E. by intros [? ?].
Qed.

Lemma add_files_steps (cands : list (text * text)) :
  forallb no_escape cands = true ->
  forall content n st,
  exists st' y n' es,
    add_files orc cands content n st = (st', Ok (y, n'))
    /\ world st' = world st
    /\ log st' = log st ++ es
    /\ steps orc (world st) cands (content, n, drawn st) (y, n', drawn st') es.
Proof.
  induction cands as [|cand cands IH]; intros Hall content n st.
  - exists st, content, n, []. split; [done|]. rewrite app_nil_r.
    repeat split. constructor.
  - cbn [forallb] in Hall. apply andb_true_iff in Hall as [Hc Hcs].
    specialize (IH Hcs).
    destruct (process_candidate_step cand content n st Hc)
      as (st1 & y1 & n1 & es1 & E1 & Hw1 & Hl1 & Hs1).
    destruct (IH y1 n1 st1) as (st2 & y2 & n2 & es2 & E2 & Hw2 & Hl2 & Hs2).
    exists st2, y2, n2, (es1 ++ es2). split.
    + cbn [add_files]. unfold mbind, M_bind. by rewrite E1.
    + split; [congruence|]. split; [by rewrite Hl2, Hl1, <- app_assoc|].
      econstructor; [exact Hs1 | by rewrite <- Hw1].
Qed.

Lemma step_prints (w : World) (cand : text * text) (s s' : loop_state)
    (es : list event) :
  step orc w cand s s' es -> forallb is_print es = true.
Proof. by destruct 1. Qed.

Lemma steps_prints (w : World) (cands : list (text * text))
    (s s' : loop_state) (es : list event) :
  steps orc w cands s s' es -> forallb is_print es = true.
Proof.
  induction 1 as [|? ? ? ? ? ? ? H1 H2 IH]; [done|].
  by rewrite forallb_app, (step_prints _ _ _ _ _ H1), IH.
Qed.

End LoopRuns.

(** ** Running [main] *)

Lemma bind_ok {A B} (m : M A) (f : A -> M B) (st st' : State) (a : A) :
  m st = (st', Ok a) -> (m ≫= f) st = f a st'.
Proof. intros E. unfold mbind, M_bind. by rewrite E. Qed.

Lemma path_exists_found (p : text) (st : State) :
  is_Some (files (world st) !! p) -> path_exists p st = (st, Ok true).
Proof.
  intros H. unfold path_exists, get_world, mbind, M_bind, mret, M_ret.
  by rewrite bool_decide_eq_true_2.
Qed.

Lemma path_exists_missing (p : text) (st : State) :
  files (world st) !! p = None -> path_exists p st = (st, Ok false).
Proof.
  intros H. unfold path_exists, get_world, mbind, M_bind, mret, M_ret.
  rewrite bool_decide_eq_false_2; [done|]. rewrite H. by intros [? ?].
Qed.

Lemma read_text_ok (p c : text) (st : State) :
  files (world st) !! p = Some c ->
  read_text p st = (st, Ok (universal_newlines c)).
Proof.
  intros H. unfold read_text, get_world, mbind, M_bind, mret, M_ret.
  by rewrite H.
Qed.

Lemma copy_file_ok (src dst c : text) (st : State) :
  files (world st) !! src = Some c ->
  copy_file src dst st
  = ({| world := {| files := <[dst := c]> (files (world st));
                    derived_data := derived_data (world st) |};
        drawn := drawn st; log := log st ++ [ECopy src dst] |}, Ok tt).
Proof.
  intros H. unfold copy_file, get_world, mbind, M_bind, mret, M_ret.
  by rewrite H.
Qed.

Lemma write_text_ok (p c : text) (st : State) :
  write_text p c st
  = ({| world := {| files := <[p := c]> (files (world st));
                    derived_data := derived_data (world st) |};
        drawn := drawn st; log := log st ++ [EWrite p c] |}, Ok tt).
Proof. reflexivity. Qed.

Lemma print_ok (line : text) (st : State) :
  print line st = (logged st [EPrint line], Ok tt).
Proof. reflexivity. Qed.

Section MainRuns.

Variable orc : Oracle.

Lemma main_with_missing (cands : list (text * text)) (w : World) :
  files w !! PBXPROJ_PATH = None ->
  main_with orc cands (initial_state w)
  = ({| world := w; drawn := 0;
        log := banner ++ [EPrint (txt "ERROR: Cannot find " ++ PBXPROJ_PATH)] |},
     Ok 1%Z).
Proof.
  intros H. unfold main_with.
  do 3 (erewrite bind_ok; [|apply print_ok]).
  erewrite bind_ok; [|by apply path_exists_missing].
  reflexivity.
Qed.

(** The write-back, as one step. *)
Lemma write_back_ok (n : nat) (y : text) (st : State) :
  (if (0 <? n)%nat then
     write_text PBXPROJ_PATH y ;;
     print (nl :: txt "Updated project with " ++ str_of_nat n ++ txt " files")
   else print (nl :: txt "No files needed adding")) st
  = ({| world := {| files := written_back n y (files (world st));
                    derived_data := derived_data (world st) |};
        drawn := drawn st; log := log st ++ write_back n y |}, Ok tt).
Proof.
  unfold written_back, write_back. destruct (0 <? n)%nat.
  - erewrite bind_ok; [|apply write_text_ok]. rewrite print_ok.
    unfold logged. cbn [world drawn log]. by rewrite <- app_assoc.
  - rewrite print_ok. unfold logged. by destruct st as [[? ?] ? ?].
Qed.

Lemma main_with_found (cands : list (text * text)) (w : World) (raw : text) :
  files w !! PBXPROJ_PATH = Some raw ->
  forallb no_escape cands = true ->
  exists y n k st' es1 es2,
    steps orc (backed_up w raw) cands (universal_newlines raw, 0%nat, 0%nat)
      (y, n, k) es1
    /\ main_with orc cands (initial_state w)
       = (st', Ok (returncode (run_shell orc BUILD_CMD (world st'))))
    /\ files (world st') = written_back n y (<[BACKUP_PATH := raw]> (files w))
    /\ log st' = banner
                 ++ [ECopy PBXPROJ_PATH BACKUP_PATH;
                     EPrint (txt "Created backup: " ++ PBXPROJ_PATH
                               ++ txt ".backup")]
                 ++ es1 ++ write_back n y ++ es2
    /\ forallb (fun e => negb (file_event e)) es2 = true
    /\ In (ERun BUILD_CMD) es2.
Proof.
  intros H Hc.
  set (st1 := {| world := backed_up w raw; drawn := 0;
                 log := banner
                        ++ [ECopy PBXPROJ_PATH BACKUP_PATH;
                            EPrint (txt "Created backup: " ++ PBXPROJ_PATH
                                      ++ txt ".backup")] |}).
  destruct (add_files_steps orc cands Hc (universal_newlines raw) 0%nat st1)
    as (st2 & y & n & es1 & E2 & Hw2 & Hl2 & Hs2).
  set (st3 := {| world := {| files := written_back n y (files (world st2));
                             derived_data := derived_data (world st2) |};
                 drawn := drawn st2;
                 log := log st2 ++ write_back n y |}).
  destruct (finish_quiet orc st3)
    as (st4 & es2 & E4 & (Hf4 & Hd4 & Hl4 & He4) & Hrun).
  exists y, n, (drawn st2), st4, es1, es2.
  split; [exact Hs2|]. split; [|split; [|split; [|done]]].
  - unfold main_with.
    do 3 (erewrite bind_ok; [|apply print_ok]).
    erewrite bind_ok;
      [|apply path_exists_found;
        change (is_Some (files w !! PBXPROJ_PATH)); by rewrite H].
    change (negb true) with false. cbv iota.
    erewrite bind_ok; [|by apply read_text_ok].
    erewrite bind_ok; [|by apply copy_file_ok].
    erewrite bind_ok; [|apply print_ok].
    erewrite bind_ok; [|exact E2]. cbv beta iota.
    erewrite bind_ok; [|apply write_back_ok].
    exact E4.
  - rewrite Hf4. unfold st3. cbn [world files]. by rewrite Hw2.
  - rewrite Hl4. unfold st3. cbn [log]. rewrite Hl2. unfold st1. cbn [log].
    by rewrite <- !app_assoc.
Qed.

End MainRuns.

(** ** The candidates of the script *)

Lemma V5_no_escape : forallb no_escape V5_FILES = true.
Proof. reflexivity. Qed.

Lemma backup_path_fresh : PBXPROJ_PATH <> BACKUP_PATH.
Proof. intros H. apply (f_equal length) in H. by vm_compute in H. Qed.

Lemma V5_not_backup (cand : text * text) :
  In cand V5_FILES -> PROJECT_DIR ++ txt "/" ++ fst cand <> BACKUP_PATH.
Proof.
  intros Hin H. apply (f_equal length) in H.
  repeat (destruct Hin as [<- | Hin]; [by vm_compute in H|]). done.
Qed.

Lemma V5_not_manifest (cand : text * text) :
  In cand V5_FILES -> PROJECT_DIR ++ txt "/" ++ fst cand <> PBXPROJ_PATH.
Proof.
  intros Hin H. apply (f_equal length) in H.
  repeat (destruct Hin as [<- | Hin]; [by vm_compute in H|]). done.
Qed.

Lemma V5_on_disk_backed_up (w : World) (raw : text) (cand : text * text) :
  In cand V5_FILES -> on_disk (backed_up w raw) cand <-> on_disk w cand.
Proof.
  intros Hin. unfold on_disk, backed_up. cbn [files].
  rewrite lookup_insert_ne; [done|]. intros H. by apply (V5_not_backup cand).
Qed.

Lemma needs_insertion_false (w : World) (content : text) (cand : text * text) :
  needs_insertion w content cand = false ->
  ~ on_disk w cand \/ contains (snd cand) content = true.
Proof.
  unfold needs_insertion. intros [H | H]%andb_false_iff.
  - left. by apply bool_decide_eq_false in H.
  - right. by apply negb_false_iff in H.
Qed.

Lemma needs_insertion_true (w : World) (content : text) (cand : text * text) :
  needs_insertion w content cand = true ->
  on_disk w cand /\ contains (snd cand) content = false.
Proof.
  unfold needs_insertion. intros [H1 H2]%andb_true_iff. split.
  - by apply bool_decide_eq_true in H1.
  - by apply negb_true_iff in H2.
Qed.

(** A loop in which no candidate needs insertion leaves the loop
    variables as they were. *)
Lemma steps_all_skipped (orc : Oracle) (w : World)
    (cands : list (text * text)) (content : text) (n k : nat)
    (s' : loop_state) (es : list event) :
  steps orc w cands (content, n, k) s' es ->
  forallb (fun c => negb (needs_insertion w content c)) cands = true ->
  s' = (content, n, k).
Proof.
  remember (content, n, k) as s eqn:Hs. intros H. revert Hs.
  induction H as [|cand cands s1 s2 s3 es es' H1 H2 IH]; intros Hs Hall;
    [done|].
  cbn [forallb] in Hall. apply andb_true_iff in Hall as [Hc Hall].
  apply negb_true_iff, needs_insertion_false in Hc.
  subst s1. assert (s2 = (content, n, k)) as ->.
  { inversion H1; subst; try done. destruct Hc as [Hc | Hc]; [done | congruence]. }
  by apply IH.
Qed.

Lemma forallb_needs_backed_up (w : World) (raw content : text)
    (f : bool -> bool) (cands : list (text * text)) :
  (forall c, In c cands -> In c V5_FILES) ->
  forallb (fun c => f (needs_insertion (backed_up w raw) content c)) cands
  = forallb (fun c => f (needs_insertion w content c)) cands.
Proof.
  intros Hsub. induction cands as [|c cands IH]; [done|]. cbn [forallb].
  rewrite IH by (intros; apply Hsub; by right). f_equal. f_equal.
  unfold needs_insertion. f_equal. apply bool_decide_ext.
  apply V5_on_disk_backed_up, Hsub. by left.
Qed.

(** * The claims *)

(** C3: when the manifest path does not exist the script returns 1 for
    its exit code, and has then only printed: no backup, no write, no
    cache eviction, no build.  In every other case the script returns the
    return code of the build subprocess it ran, whatever the loop
    inserted. *)
Theorem exit_code (orc : Oracle) (w : World) :
  match files w !! PBXPROJ_PATH with
  | None =>
      exists st, run orc w = (st, Ok 1%Z)
                 /\ world st = w /\ forallb is_print (log st) = true
  | Some _ =>
      exists st, run orc w
                 = (st, Ok (returncode (run_shell orc BUILD_CMD (world st))))
                 /\ In (ERun BUILD_CMD) (log st)
  end.
Proof.
  unfold run, main. destruct (files w !! PBXPROJ_PATH) as [raw|] eqn:E.
  - destruct (main_with_found orc V5_FILES w raw E V5_no_escape)
      as (y & n & k & st & es1 & es2 & Hsteps & Hrun & Hfiles & Hlog & He2 & Hb).
    exists st. split; [done|]. rewrite Hlog, !in_app_iff. auto.
  - eexists. split; [by apply main_with_missing|]. done.
Qed.


(** C6: in every run in which the manifest exists, the copy to the
    [.backup] path is the first thing the script does besides printing, so
    it comes before any write to the manifest; and when the script is done
    the backup holds the characters the manifest held before the run,
    whether or not the loop inserted anything. *)
Theorem backup_is_pre_run_manifest (orc : Oracle) (w : World) (raw : text) :
  files w !! PBXPROJ_PATH = Some raw ->
  exists st rc before after,
    run orc w = (st, Ok rc)
    /\ files (world st) !! (PBXPROJ_PATH ++ txt ".backup") = Some raw
    /\ log st = before ++ ECopy PBXPROJ_PATH (PBXPROJ_PATH ++ txt ".backup")
                            :: after
    /\ forallb is_print before = true.
Proof.
  intros E. unfold run, main.
  destruct (main_with_found orc V5_FILES w raw E V5_no_escape)
    as (y & n & k & st & es1 & es2 & Hsteps & Hrun & Hfiles & Hlog & He2 & Hb).
  exists st, (returncode (run_shell orc BUILD_CMD (world st))), banner.
  eexists. split; [done|]. split; [|split; [exact Hlog | done]].
  rewrite Hfiles. unfold written_back. fold BACKUP_PATH.
  destruct (0 <? n)%nat.
  - rewrite lookup_insert_ne by apply backup_path_fresh.
    by rewrite lookup_insert_eq.
  - by rewrite lookup_insert_eq.
Qed.

Lemma backup_is_pre_run_manifest_witness :
  exists st rc before after,
    run example_oracle (example_world example_manifest) = (st, Ok rc)
    /\ files (world st) !! (PBXPROJ_PATH ++ txt ".backup")
       = Some example_manifest
    /\ log st = before ++ ECopy PBXPROJ_PATH (PBXPROJ_PATH ++ txt ".backup")
                            :: after
    /\ forallb is_print before = true.
Proof.
  apply (backup_is_pre_run_manifest example_oracle
           (example_world example_manifest) example_manifest).
  vm_compute. reflexivity.
Defined.

Lemma no_write_in (es : list event) (p c : text) :
  forallb (fun e => negb (file_event e)) es = true -> ~ In (EWrite p c) es.
Proof.
  intros H Hin. rewrite forallb_forall in H. by specialize (H _ Hin).
Qed.

Lemma prints_no_file_event (es : list event) :
  forallb is_print es = true ->
  forallb (fun e => negb (file_event e)) es = true.
Proof.
  rewrite !forallb_forall. intros H e He. specialize (H e He).
  by destruct e.
Qed.

(** C5: when no candidate requires insertion, that is every candidate
    is absent from disk or has its display name in the manifest text, the
    script writes nothing to the manifest and the manifest's content is
    after the run what it was before. *)
Theorem no_insertion_no_write_back (orc : Oracle) (w : World) (raw : text) :
  files w !! PBXPROJ_PATH = Some raw ->
  forallb (fun c => negb (needs_insertion w (universal_newlines raw) c))
    V5_FILES = true ->
  exists st rc,
    run orc w = (st, Ok rc)
    /\ files (world st) !! PBXPROJ_PATH = Some raw
    /\ forall p c, ~ In (EWrite p c) (log st).
Proof.
  intros E Hnone. unfold run, main.
  destruct (main_with_found orc V5_FILES w raw E V5_no_escape)
    as (y & n & k & st & es1 & es2 & Hsteps & Hrun & Hfiles & Hlog & He2 & Hb).
  exists st, (returncode (run_shell orc BUILD_CMD (world st))).
  split; [done|].
  rewrite <- (forallb_needs_backed_up w raw _ negb) in Hnone by done.
  pose proof (steps_all_skipped _ _ _ _ _ _ _ _ Hsteps Hnone) as [= -> -> ->].
  split.
  - rewrite Hfiles. unfold written_back. cbn [Nat.ltb Nat.leb].
    rewrite lookup_insert_ne by (apply not_eq_sym, backup_path_fresh). done.
  - intros p c. rewrite Hlog. unfold write_back. cbn [Nat.ltb Nat.leb].
    rewrite !in_app_iff. intros [H | [H | [H | [H | H]]]].
    + by repeat destruct H as [H | H].
    + by repeat destruct H as [H | H].
    + revert H. apply no_write_in, prints_no_file_event.
      by eapply steps_prints.
    + by repeat destruct H as [H | H].
    + revert H. by apply no_write_in.
Qed.

Lemma no_insertion_no_write_back_witness :
  exists st rc,
    run example_oracle (example_world (txt "/* V5Config.swift */"))
    = (st, Ok rc)
    /\ files (world st) !! PBXPROJ_PATH = Some (txt "/* V5Config.swift */")
    /\ forall p c, ~ In (EWrite p c) (log st).
Proof.
  apply (no_insertion_no_write_back example_oracle
           (example_world (txt "/* V5Config.swift */"))).
  - vm_compute. reflexivity.
  - vm_compute. reflexivity.
Defined.

(** ** The loop is a function of the loop variables *)

Section Steps.

Variable orc : Oracle.
Variable w : World.

Lemma step_det (cand : text * text) (s s1 s2 : loop_state)
    (es1 es2 : list event) :
  step orc w cand s s1 es1 -> step orc w cand s s2 es2 ->
  s1 = s2 /\ es1 = es2.
Proof.
  intros H1 H2. inversion H1; subst; inversion H2; subst;
    try done; try congruence.
  assert (y = y0) by congruence. by subst.
Qed.

Lemma steps_det (cands : list (text * text)) (s s1 s2 : loop_state)
    (es1 es2 : list event) :
  steps orc w cands s s1 es1 -> steps orc w cands s s2 es2 ->
  s1 = s2 /\ es1 = es2.
Proof.
  intros H1. revert s2 es2.
  induction H1 as [|cand cands s1 s2 s3 es es' Hs Hss IH]; intros t2 es2 H2.
  - by inversion H2.
  - inversion H2 as [|? ? ? u2 ? fs fs' Hs' Hss']; subst.
    destruct (step_det _ _ _ _ _ _ Hs Hs') as [<- <-].
    destruct (IH _ _ Hss') as [<- <-]. done.
Qed.

Lemma steps_app (cs1 cs2 : list (text * text)) (s1 s2 s3 : loop_state)
    (es1 es2 : list event) :
  steps orc w cs1 s1 s2 es1 -> steps orc w cs2 s2 s3 es2 ->
  steps orc w (cs1 ++ cs2) s1 s3 (es1 ++ es2).
Proof.
  induction 1 as [|cand cands t1 t2 t3 es es' Hs Hss IH]; intros H2; [done|].
  rewrite <- app_assoc. simpl. econstructor; [exact Hs | by apply IH].
Qed.

Lemma steps_app_inv (cs1 cs2 : list (text * text)) (s1 s3 : loop_state)
    (es : list event) :
  steps orc w (cs1 ++ cs2) s1 s3 es ->
  exists s2 es1 es2,
    steps orc w cs1 s1 s2 es1 /\ steps orc w cs2 s2 s3 es2 /\ es = es1 ++ es2.
Proof.
  revert s1 es. induction cs1 as [|c cs1 IH]; intros s1 es H.
  - exists s1, [], es. split; [constructor | done].
  - inversion H as [|? ? ? t2 ? fs fs' Hs Hss]; subst.
    destruct (IH _ _ Hss) as (s2 & es1 & es2 & H1 & H2 & ->).
    exists s2, (fs ++ es1), es2. split; [by econstructor|].
    split; [done | by rewrite app_assoc].
Qed.

Lemma step_absent_inv (cand : text * text) (s s' : loop_state)
    (es : list event) :
  ~ on_disk w cand -> step orc w cand s s' es ->
  s' = s /\ es = [EPrint (txt "SKIP: " ++ snd cand ++ txt " not on disk")].
Proof. intros Hd H. by inversion H; subst. Qed.

End Steps.

(** C7: a candidate whose file is absent from disk is skipped, for every
    manifest content: its iteration prints the SKIP line, returns normally
    and leaves the text and the count of added files as they were; and the
    loop computes the text, the count and the identifiers it would compute
    without that candidate in the list. *)
Theorem absent_candidate_never_inserted (orc : Oracle)
    (cs1 : list (text * text)) (cand : text * text)
    (cs2 : list (text * text)) (content : text) (n : nat) (st : State) :
  forallb no_escape (cs1 ++ cand :: cs2) = true ->
  files (world st) !! (PROJECT_DIR ++ txt "/" ++ fst cand) = None ->
  process_candidate orc cand content n st
  = (logged st [EPrint (txt "SKIP: " ++ snd cand ++ txt " not on disk")],
     Ok (content, n))
  /\ exists st1 st2 y n',
       add_files orc (cs1 ++ cand :: cs2) content n st = (st1, Ok (y, n'))
       /\ add_files orc (cs1 ++ cs2) content n st = (st2, Ok (y, n'))
       /\ world st1 = world st2 /\ drawn st1 = drawn st2
       /\ In (EPrint (txt "SKIP: " ++ snd cand ++ txt " not on disk")) (log st1).
Proof.
  intros Hall Habs. split.
  { destruct cand as [path name]. by apply process_candidate_absent. }
  assert (Hd : ~ on_disk (world st) cand).
  { unfold on_disk. rewrite Habs. by intros [? ?]. }
  destruct (add_files_steps orc _ Hall content n st)
    as (st1 & y & n1 & es & E1 & Hw1 & Hl1 & Hs1).
  assert (Hall' : forallb no_escape (cs1 ++ cs2) = true).
  { rewrite forallb_app in Hall |- *. cbn [forallb] in Hall.
    apply andb_true_iff in Hall as [-> [_ ->]%andb_true_iff]. done. }
  destruct (add_files_steps orc _ Hall' content n st)
    as (st2 & y2 & n2 & es' & E2 & Hw2 & Hl2 & Hs2).
  apply steps_app_inv in Hs1 as (s2 & es1 & es2 & Ha & Hb & ->).
  inversion Hb as [|? ? ? t2 ? fs fs' Hs Hss]; subst.
  destruct (step_absent_inv _ _ _ _ _ _ Hd Hs) as [-> ->].
  destruct (steps_det _ _ _ _ _ _ _ _ (steps_app _ _ _ _ _ _ _ _ _ Ha Hss) Hs2)
    as [[= -> -> Hdr] _].
  exists st1, st2, y2, n2. split; [done|]. split; [done|].
  split; [congruence|]. split; [done|].
  rewrite Hl1, !in_app_iff. right. right. left. by left.
Qed.

Lemma absent_candidate_never_inserted_witness :
  let st := initial_state (example_world example_manifest) in
  let cand := (txt "V5/Views/V5MainView.swift", txt "V5MainView.swift") in
  process_candidate example_oracle cand example_manifest 0 st
  = (logged st [EPrint (txt "SKIP: " ++ snd cand ++ txt " not on disk")],
     Ok (example_manifest, 0%nat))
  /\ exists st1 st2 y n',
       add_files example_oracle
         ([(txt "V5/Config/V5Config.swift", txt "V5Config.swift")]
            ++ cand :: []) example_manifest 0 st = (st1, Ok (y, n'))
       /\ add_files example_oracle
            ([(txt "V5/Config/V5Config.swift", txt "V5Config.swift")] ++ [])
            example_manifest 0 st = (st2, Ok (y, n'))
       /\ world st1 = world st2 /\ drawn st1 = drawn st2
       /\ In (EPrint (txt "SKIP: " ++ snd cand ++ txt " not on disk")) (log st1).
Proof.
  apply (absent_candidate_never_inserted example_oracle
           [(txt "V5/Config/V5Config.swift", txt "V5Config.swift")]
           (txt "V5/Views/V5MainView.swift", txt "V5MainView.swift") []
           example_manifest 0 (initial_state (example_world example_manifest))).
  - vm_compute. reflexivity.
  - vm_compute. reflexivity.
Defined.

(** ** Where the scan copies *)

Lemma forallb_map_compose {A B} (f : B -> bool) (g : A -> B) (l : list A) :
  forallb f (map g l) = forallb (fun x => f (g x)) l.
Proof. induction l as [|x l IH]; simpl; [done | by rewrite IH]. Qed.

Lemma no_match_before_cons (r : regex) (c : ascii) (pre s : text) :
  no_match_before r (c :: pre) s
  = negb (matches_at r (c :: pre ++ s)) && no_match_before r pre s.
Proof.
  unfold no_match_before. cbn [length seq forallb]. f_equal.
  rewrite <- seq_shift, forallb_map_compose. done.
Qed.

Lemma scan_copy_prefix (r : regex) (tpl : list titem) (pre s : text) :
  no_match_before r pre s = true ->
  scan r tpl 0 (pre ++ s) = pre ++ scan r tpl 0 s.
Proof.
  induction pre as [|c pre IH]; [done|].
  rewrite no_match_before_cons. intros [Hc Hpre]%andb_true_iff.
  apply negb_true_iff in Hc. unfold matches_at in Hc.
  destruct (match_at r (c :: pre ++ s)) eqn:E; [done|].
  change ((c :: pre) ++ s) with (c :: (pre ++ s)).
  rewrite (scan_nomatch _ _ _ _ E), (IH Hpre). done.
Qed.

Lemma count_copy_prefix (r : regex) (pre s : text) :
  no_match_before r pre s = true ->
  count_matches r 0 (pre ++ s) = count_matches r 0 s.
Proof.
  induction pre as [|c pre IH]; [done|].
  rewrite no_match_before_cons. intros [Hc Hpre]%andb_true_iff.
  apply negb_true_iff in Hc. unfold matches_at in Hc.
  destruct (match_at r (c :: pre ++ s)) eqn:E; [done|].
  change ((c :: pre) ++ s) with (c :: (pre ++ s)).
  rewrite (count_nomatch _ _ _ E), (IH Hpre). done.
Qed.

(** The number of matches of a literal marker is zero exactly when the
    marker does not occur. *)
Lemma count_literal_zero (m s : text) :
  m <> [] ->
  count_matches (RGroup 1 (lit m)) 0 s = 0%nat <-> contains m s = false.
Proof.
  intros Hm. induction s as [|c s IH].
  - simpl. rewrite match_at_literal. destruct m; [done|]. done.
  - cbn [count_matches contains]. rewrite match_at_literal.
    destruct (starts_with m (c :: s)) eqn:E; [done|].
    rewrite orb_false_l. exact IH.
Qed.

(** ** The substitutions against their specification *)

Lemma occurrences_skip (m : text) (k : nat) (s : text) :
  occurrences m k s = occurrences m 0 (drop k s).
Proof.
  revert k. induction s as [|c s IH]; intros k.
  - by destruct k.
  - destruct k as [|k]; [done|]. cbn [occurrences drop]. by rewrite IH.
Qed.

Section ScanReplaced.

Variable r : regex.
Variable tpl : list titem.
Variable hit : text -> text -> text -> Prop.
Variable rep : text -> text.

(** The pattern never matches the empty text; what it matches at the
    head of a text is a hit, replaced as [rep] says; and where it does not
    match there is no hit. *)
Hypothesis no_empty_match : match_at r [] = None.
Hypothesis match_sound : forall s rest caps,
  match_at r s = Some (rest, caps) ->
  exists m, s = m ++ rest /\ m <> [] /\ hit s m rest
            /\ expand tpl caps = rep m.
Hypothesis match_complete : forall s,
  match_at r s = None -> forall m rest, ~ hit s m rest.

Lemma scan_replaced_all (s : text) :
  replaced_all hit rep (count_matches r 0 s) s (scan r tpl 0 s).
Proof.
  remember (length s) as n eqn:Hn. revert s Hn.
  induction n as [n IH] using lt_wf_ind. intros s Hn.
  destruct s as [|c s].
  - simpl. rewrite no_empty_match. constructor.
  - destruct (match_at r (c :: s)) as [[rest caps]|] eqn:E.
    + destruct (match_sound _ _ _ E) as (m & Hs & Hm & Hhit & Hexp).
      rewrite Hs in E, Hhit |- *.
      rewrite (scan_match _ _ _ _ _ Hm E), (count_match _ _ _ _ Hm E), Hexp.
      apply ra_hit; [done | done |].
      apply (IH (length rest)); [|done].
      subst n. rewrite Hs, length_app. destruct m; [done | simpl; lia].
    + rewrite (scan_nomatch _ _ _ _ E), (count_nomatch _ _ _ E).
      apply ra_copy; [by apply match_complete|].
      apply (IH (length s)); [subst n; simpl; lia | done].
Qed.

End ScanReplaced.

Section ReplacedAll.

Variable hit : text -> text -> text -> Prop.
Variable rep : text -> text.

Lemma replaced_all_length (d n : nat) (s s' : text) :
  (forall m, length (rep m) = (length m + d)%nat) ->
  replaced_all hit rep n s s' -> length s' = (length s + n * d)%nat.
Proof.
  intros Hd. induction 1 as [|c n s s' Hno H IH|n m r s' Hm Hhit H IH].
  - done.
  - simpl. lia.
  - rewrite !length_app, Hd. lia.
Qed.

(** A specification with at most one hit at the head of a text names one
    text and one number. *)
Hypothesis hit_functional : forall s m r m' r',
  hit s m r -> hit s m' r' -> m = m' /\ r = r'.

Lemma replaced_all_unique (n n' : nat) (s s' s'' : text) :
  replaced_all hit rep n s s' -> replaced_all hit rep n' s s'' ->
  n = n' /\ s' = s''.
Proof.
  intros H1. revert n' s''.
  induction H1 as [|c n s s' Hno H1 IH|n m r s' Hm Hhit H1 IH];
    intros n' s'' H2.
  - remember [] as t eqn:Ht in H2.
    destruct H2 as [|c n' s s'' Hno' H2|n' m r s'' Hm' Hhit' H2];
      [done | done |].
    apply app_eq_nil in Ht as [-> _]. done.
  - remember (c :: s) as t eqn:Ht in H2.
    destruct H2 as [|c' n' s0 s'' Hno' H2|n' m r s'' Hm' Hhit' H2];
      [done | |].
    + injection Ht as -> ->. destruct (IH _ _ H2) as [-> ->]. done.
    + rewrite Ht in Hhit'. destruct (Hno _ _ Hhit').
  - remember (m ++ r) as t eqn:Ht in H2.
    destruct H2 as [|c' n' s0 s'' Hno' H2|n' m' r' s'' Hm' Hhit' H2].
    + symmetry in Ht. apply app_eq_nil in Ht as [-> _]. done.
    + rewrite <- Ht in Hhit. destruct (Hno' _ _ Hhit).
    + rewrite Ht in Hhit'.
      destruct (hit_functional _ _ _ _ _ Hhit Hhit') as [-> ->].
      destruct (IH _ _ H2) as [-> ->]. done.
Qed.

End ReplacedAll.

Lemma marker_hit_functional (marker s m r m' r' : text) :
  marker_hit marker s m r -> marker_hit marker s m' r' -> m = m' /\ r = r'.
Proof.
  intros [-> ->] [-> H]. split; [done|]. by apply app_inv_head in H.
Qed.

(** The longest run without [c] at the head of a text is one run. *)
Lemma run_without_unique (c : ascii) (a a' b b' : text) :
  a ++ b = a' ++ b' ->
  avoids [c] a = true -> avoids [c] a' = true ->
  (b = [] \/ exists t, b = c :: t) -> (b' = [] \/ exists t, b' = c :: t) ->
  a = a' /\ b = b'.
Proof.
  revert a'. induction a as [|x a IH]; intros [|x' a'] H Ha Ha' Hb Hb'.
  - done.
  - simpl in H. subst b. apply avoids_one in Ha' as [Hx _].
    destruct Hb as [? | [t [= -> _]]]; done.
  - simpl in H. subst b'. apply avoids_one in Ha as [Hx _].
    destruct Hb' as [? | [t [= -> _]]]; done.
  - injection H as -> H.
    apply avoids_one in Ha as [_ Ha]. apply avoids_one in Ha' as [_ Ha'].
    destruct (IH _ H Ha Ha' Hb Hb') as [-> ->]. done.
Qed.

Lemma same_length_prefix (a a' b b' : text) :
  a ++ b = a' ++ b' -> length a = length a' -> a = a' /\ b = b'.
Proof.
  revert a'. induction a as [|x a IH]; intros [|x' a'] H Hl; try done.
  injection H as -> H. injection Hl as Hl.
  destruct (IH _ H Hl) as [-> ->]. done.
Qed.

Lemma sources_hit_functional (s m r m' r' : text) :
  sources_hit s m r -> sources_hit s m' r' -> m = m' /\ r = r'.
Proof.
  intros (body & entries & -> & Hs & Hb & He & Hr & Hmax)
         (body' & entries' & -> & Hs' & Hb' & He' & Hr' & Hmax').
  rewrite <- !app_assoc in Hs, Hs'.
  assert (Hl : length body = length body').
  { apply Nat.le_antisymm.
    - apply (Hmax' body (entries ++ r)); [|done]. by rewrite Hs.
    - apply (Hmax body' (entries' ++ r')); [|done]. by rewrite Hs'. }
  rewrite Hs in Hs'. apply app_inv_head in Hs'.
  apply same_length_prefix in Hs' as [-> Hs']; [|done].
  apply app_inv_head in Hs'.
  destruct (run_without_unique ")" _ _ _ _ Hs' He He' Hr Hr') as [-> ->].
  done.
Qed.

(** The number of hits of a marker is the number of its occurrences. *)
Lemma replaced_all_occurrences (marker : text) (rep : text -> text)
    (n : nat) (s s' : text) :
  replaced_all (marker_hit marker) rep n s s' ->
  n = occurrences marker 0 s.
Proof.
  induction 1 as [|c n s s' Hno H IH|n m r s' Hm Hhit H IH].
  - done.
  - cbn [occurrences]. destruct (starts_with marker (c :: s)) eqn:E; [|done].
    apply starts_with_spec in E as [t Ht].
    destruct (Hno marker t). by split.
  - destruct Hhit as [-> _]. destruct marker as [|c mk]; [done|].
    change ((c :: mk) ++ r) with (c :: (mk ++ r)). cbn [occurrences].
    change (c :: mk ++ r) with ((c :: mk) ++ r). rewrite starts_with_app.
    cbn [length]. rewrite Nat.sub_1_r. cbn [Nat.pred].
    by rewrite occurrences_skip, drop_app_length, IH.
Qed.

(** Substituting [frag + r'\1'] for a one-group literal pattern, against
    the specification. *)
Lemma re_sub_marker_all (m frag s : text) :
  m <> [] -> avoids [backslash] frag = true ->
  exists y,
    re_sub {| pat_groups := 1; pat_regex := RGroup 1 (lit m) |}
      (frag ++ txt "\1") s = Ok y
    /\ replaced_all (marker_hit m) (fun w => frag ++ w)
         (count_matches (RGroup 1 (lit m)) 0 s) s y.
Proof.
  intros Hm Hfrag. unfold re_sub. cbn [pat_groups pat_regex].
  rewrite (parse_template_group1 0 _ Hfrag).
  eexists. split; [reflexivity|].
  apply scan_replaced_all.
  - destruct m; [done | apply match_at_literal_empty].
  - intros s0 rest caps. rewrite match_at_literal.
    destruct (starts_with m s0) eqn:E; [|done]. intros [= <- <-].
    exists m. split; [by apply starts_with_drop|]. split; [done|]. split.
    + split; [done | by apply starts_with_drop].
    + rewrite expand_literal. unfold expand. simpl.
      rewrite lookup_insert_ne by done. rewrite lookup_insert_eq. simpl.
      by rewrite app_nil_r.
  - intros s0. rewrite match_at_literal.
    destruct (starts_with m s0) eqn:E; [done|].
    intros _ w rest [-> Hs]. by rewrite Hs, starts_with_app in E.
Qed.

(** The third substitution, against the specification. *)
Lemma re_sub_sources_all (u name s : text) :
  avoids [backslash] u = true -> avoids [backslash] name = true ->
  exists y,
    re_sub sources_pattern (sources_template u name) s = Ok y
    /\ replaced_all sources_hit (fun m => m ++ sources_reference u name)
         (count_matches (pat_regex sources_pattern) 0 s) s y.
Proof.
  intros Hu Hname. unfold re_sub. cbn [pat_groups sources_pattern].
  rewrite sources_template_eq, parse_template_sources.
  2:{ rewrite !avoids_app, Hu, Hname. reflexivity. }
  eexists. split; [reflexivity|].
  apply scan_replaced_all; [apply match_at_sources_empty| |].
  - intros s0 rest caps Hmatch.
    destruct (match_at_block_greedy _ _ _ _ _ _ _ Hmatch)
      as (body & entries & Hs & Hb & He & Hr & H1 & H2 & Hmax).
    exists ((SOURCES_OPEN ++ body ++ FILES_OPEN) ++ entries).
    split; [by rewrite <- app_assoc|].
    split; [by destruct SOURCES_OPEN eqn:E|]. split.
    + exists body, entries. split; [by rewrite <- !app_assoc|].
      split; [by rewrite Hs, <- !app_assoc|]. by do 3 (split; [done|]).
    + rewrite sources_reference_eq. by apply expand_sources.
  - intros s0 Hnone m rest (body & entries & -> & Hs & Hb & _).
    destruct (match_at_block_complete SOURCES_OPEN FILES_OPEN "}" ")" body
                (entries ++ rest) Hb) as [x Hx].
    rewrite <- !app_assoc in Hs. rewrite <- Hs in Hx.
    change (match_at (pat_regex sources_pattern) s0 = Some x) in Hx.
    congruence.
Qed.

(** C9: the three substitutions are global.  Each replaces every match
    of its pattern in the text it is applied to, the matches being read
    off the text from left to right: a record is put in front of each
    occurrence of the section-end marker, and the reference behind the
    entries of each Sources block that opens a files list.  With [n]
    occurrences of a marker the text grows by [n] records, not by one; and
    the text the third substitution gives is the only one the
    specification names. *)
Theorem substitutions_replace_every_match (u1 u2 path name x : text) :
  avoids [backslash] u1 = true -> avoids [backslash] u2 = true ->
  avoids [backslash] path = true -> avoids [backslash] name = true ->
  exists n c1 c2 y,
    re_sub file_reference_pattern
      (file_ref_record u1 name path ++ txt "\1") x = Ok c1
    /\ re_sub build_file_pattern
         (build_file_record u2 u1 name ++ txt "\1") c1 = Ok c2
    /\ re_sub sources_pattern (sources_template u2 name) c2 = Ok y
    /\ insert_records u1 u2 path name x = Ok y
    /\ replaced_all (marker_hit END_FILE_REFERENCE)
         (fun m => file_ref_record u1 name path ++ m)
         (occurrences END_FILE_REFERENCE 0 x) x c1
    /\ replaced_all (marker_hit END_BUILD_FILE)
         (fun m => build_file_record u2 u1 name ++ m)
         (occurrences END_BUILD_FILE 0 c1) c1 c2
    /\ replaced_all sources_hit (fun m => m ++ sources_reference u2 name)
         n c2 y
    /\ length c1
       = (length x + occurrences END_FILE_REFERENCE 0 x
                     * length (file_ref_record u1 name path))%nat
    /\ length c2
       = (length c1 + occurrences END_BUILD_FILE 0 c1
                      * length (build_file_record u2 u1 name))%nat
    /\ length y
       = (length c2 + n * length (sources_reference u2 name))%nat
    /\ (forall n' z,
          replaced_all sources_hit (fun m => m ++ sources_reference u2 name)
            n' c2 z ->
          n' = n /\ z = y).
Proof.
  intros Hu1 Hu2 Hp Hn.
  destruct (re_sub_marker_all END_FILE_REFERENCE
              (file_ref_record u1 name path) x)
    as [c1 [E1 H1]]; [done | by apply file_ref_record_plain |].
  destruct (re_sub_marker_all END_BUILD_FILE
              (build_file_record u2 u1 name) c1)
    as [c2 [E2 H2]]; [done | by apply build_file_record_plain |].
  destruct (re_sub_sources_all u2 name c2 Hu2 Hn) as [y [E3 H3]].
  change {| pat_groups := 1; pat_regex := RGroup 1 (lit END_FILE_REFERENCE) |}
    with file_reference_pattern in E1.
  change {| pat_groups := 1; pat_regex := RGroup 1 (lit END_BUILD_FILE) |}
    with build_file_pattern in E2.
  rewrite (replaced_all_occurrences _ _ _ _ _ H1) in H1.
  rewrite (replaced_all_occurrences _ _ _ _ _ H2) in H2.
  exists (count_matches (pat_regex sources_pattern) 0 c2), c1, c2, y.
  do 3 (split; [done|]).
  split; [unfold insert_records; by rewrite E1, E2|].
  do 3 (split; [done|]).
  split; [|split; [|split]].
  - apply (replaced_all_length _ _ (length (file_ref_record u1 name path))
             _ _ _) with (2 := H1).
    intros m. rewrite length_app. lia.
  - apply (replaced_all_length _ _ (length (build_file_record u2 u1 name))
             _ _ _) with (2 := H2).
    intros m. rewrite length_app. lia.
  - apply (replaced_all_length _ _ (length (sources_reference u2 name))
             _ _ _) with (2 := H3).
    intros m. by rewrite length_app.
  - intros n' z Hz.
    destruct (replaced_all_unique _ _ sources_hit_functional _ _ _ _ _ H3 Hz)
      as [-> ->].
    done.
Qed.

Lemma substitutions_replace_every_match_witness :
  exists n c1 c2 y,
    re_sub file_reference_pattern
      (file_ref_record (generate_uuid 1) (txt "V5Config.swift")
         (txt "V5/Config/V5Config.swift") ++ txt "\1")
      repeated_sections_text = Ok c1
    /\ re_sub build_file_pattern
         (build_file_record (generate_uuid 2) (generate_uuid 1)
            (txt "V5Config.swift") ++ txt "\1") c1 = Ok c2
    /\ re_sub sources_pattern
         (sources_template (generate_uuid 2) (txt "V5Config.swift")) c2
       = Ok y
    /\ insert_records (generate_uuid 1) (generate_uuid 2)
         (txt "V5/Config/V5Config.swift") (txt "V5Config.swift")
         repeated_sections_text = Ok y
    /\ replaced_all (marker_hit END_FILE_REFERENCE)
         (fun m => file_ref_record (generate_uuid 1) (txt "V5Config.swift")
                     (txt "V5/Config/V5Config.swift") ++ m)
         (occurrences END_FILE_REFERENCE 0 repeated_sections_text)
         repeated_sections_text c1
    /\ replaced_all (marker_hit END_BUILD_FILE)
         (fun m => build_file_record (generate_uuid 2) (generate_uuid 1)
                     (txt "V5Config.swift") ++ m)
         (occurrences END_BUILD_FILE 0 c1) c1 c2
    /\ replaced_all sources_hit
         (fun m => m ++ sources_reference (generate_uuid 2)
                          (txt "V5Config.swift"))
         n c2 y
    /\ length c1
       = (length repeated_sections_text
          + occurrences END_FILE_REFERENCE 0 repeated_sections_text
            * length (file_ref_record (generate_uuid 1) (txt "V5Config.swift")
                        (txt "V5/Config/V5Config.swift")))%nat
    /\ length c2
       = (length c1 + occurrences END_BUILD_FILE 0 c1
                      * length (build_file_record (generate_uuid 2)
                                  (generate_uuid 1) (txt "V5Config.swift")))%nat
    /\ length y
       = (length c2
          + n * length (sources_reference (generate_uuid 2)
                          (txt "V5Config.swift")))%nat
    /\ (forall n' z,
          replaced_all sources_hit
            (fun m => m ++ sources_reference (generate_uuid 2)
                             (txt "V5Config.swift"))
            n' c2 z ->
          n' = n /\ z = y).
Proof.
  apply (substitutions_replace_every_match (generate_uuid 1) (generate_uuid 2)
           (txt "V5/Config/V5Config.swift") (txt "V5Config.swift")
           repeated_sections_text); vm_compute; reflexivity.
Defined.

(** The text of the example has two matches of the file-reference
    marker, and the first substitution puts the record in front of both. *)
Example two_markers_two_records :
  count_matches (pat_regex file_reference_pattern) 0 two_marker_text = 2%nat
  /\ let frag := file_ref_record (generate_uuid 1) (txt "V5Config.swift")
                   (txt "V5/Config/V5Config.swift") in
     re_sub file_reference_pattern (frag ++ txt "\1") two_marker_text
     = Ok (frag ++ END_FILE_REFERENCE ++ [nl] ++ frag ++ END_FILE_REFERENCE
             ++ [nl] ++ END_BUILD_FILE).
Proof. split; vm_compute; reflexivity. Qed.

(** C4, as the code has it: at a match of the Sources pattern the
    reference is put at the end of the matched text, behind the opening of
    the files list and behind everything that follows it up to the first
    closing parenthesis (the entries the list already has), in front of
    that parenthesis or of the end of the text.  The text behind the match
    is treated the same way. *)
Theorem reference_follows_existing_entries (u name pre s : text) :
  avoids [backslash] u = true -> avoids [backslash] name = true ->
  no_match_before (pat_regex sources_pattern) pre s = true ->
  matches_at (pat_regex sources_pattern) s = true ->
  exists body entries rest y',
    s = SOURCES_OPEN ++ body ++ FILES_OPEN ++ entries ++ rest
    /\ avoids ["}"%char] body = true
    /\ avoids [")"%char] entries = true
    /\ at_list_end rest
    /\ re_sub sources_pattern (sources_template u name) rest = Ok y'
    /\ re_sub sources_pattern (sources_template u name) (pre ++ s)
       = Ok (pre ++ SOURCES_OPEN ++ body ++ FILES_OPEN ++ entries
               ++ sources_reference u name ++ y').
Proof.
  intros Hu Hname Hpre Hs. unfold matches_at in Hs.
  destruct (match_at (pat_regex sources_pattern) s) as [[rest caps]|] eqn:E;
    [|done].
  destruct (match_at_sources _ _ _ E)
    as (body & entries & Heq & Hbody & Hent & Hrest & H0 & H1 & H2).
  unfold re_sub. cbn [pat_groups sources_pattern].
  rewrite sources_template_eq, parse_template_sources
    by (rewrite !avoids_app, Hu, Hname; reflexivity).
  exists body, entries, rest. eexists.
  split; [by rewrite Heq, <- !app_assoc|]. do 3 (split; [done|]).
  split; [reflexivity|]. f_equal.
  change (pat_regex sources_pattern) with
    (RCat (RGroup 1 (RCat (lit SOURCES_OPEN) (RCat (RStarNot "}") (lit FILES_OPEN))))
          (RGroup 2 (RStarNot ")"))) in Hpre, E.
  rewrite (scan_copy_prefix _ _ _ _ Hpre). f_equal.
  rewrite Heq in E |- *.
  assert (Hm : (SOURCES_OPEN ++ body ++ FILES_OPEN) ++ entries <> [])
    by done.
  rewrite (app_assoc _ entries rest) in E |- *.
  rewrite (scan_match _ _ _ _ _ Hm E).
  rewrite (expand_sources _ [] _ _ _ H1 H2), <- sources_reference_eq.
  by rewrite <- !app_assoc.
Qed.

Lemma reference_follows_existing_entries_witness :
  exists body entries rest y',
    sources_block_with_entry
    = SOURCES_OPEN ++ body ++ FILES_OPEN ++ entries ++ rest
    /\ avoids ["}"%char] body = true
    /\ avoids [")"%char] entries = true
    /\ at_list_end rest
    /\ re_sub sources_pattern
         (sources_template (generate_uuid 2) (txt "V5Config.swift")) rest
       = Ok y'
    /\ re_sub sources_pattern
         (sources_template (generate_uuid 2) (txt "V5Config.swift"))
         (txt "C0FFEE " ++ sources_block_with_entry)
       = Ok (txt "C0FFEE " ++ SOURCES_OPEN ++ body ++ FILES_OPEN ++ entries
               ++ sources_reference (generate_uuid 2) (txt "V5Config.swift")
               ++ y').
Proof.
  apply (reference_follows_existing_entries (generate_uuid 2)
           (txt "V5Config.swift") (txt "C0FFEE ") sources_block_with_entry);
    vm_compute; reflexivity.
Defined.

(** C4 as the spec states it does not hold: with an entry already in the
    list, the reference comes behind that entry, not right behind the
    opening of the list. *)
Lemma reference_not_at_list_opening :
  let new := sources_reference (generate_uuid 2) (txt "V5Config.swift") in
  let opening := txt "/* Sources */ = {isa = PBXSourcesBuildPhase; files = (" in
  let old := [nl] ++ txt "OLD /* Old.swift in Sources */," ++ [nl] in
  sources_block_with_entry = opening ++ old ++ txt "); };"
  /\ re_sub sources_pattern
       (sources_template (generate_uuid 2) (txt "V5Config.swift"))
       sources_block_with_entry
     = Ok (opening ++ old ++ new ++ txt "); };")
  /\ re_sub sources_pattern
       (sources_template (generate_uuid 2) (txt "V5Config.swift"))
       sources_block_with_entry
     <> Ok (opening ++ new ++ old ++ txt "); };").
Proof.
  cbv zeta. split; [reflexivity|]. split; [vm_compute; reflexivity|].
  vm_compute. discriminate.
Qed.

(** ** One insertion *)

Lemma re_sub_file_reference (frag s y : text) :
  avoids [backslash] frag = true ->
  re_sub file_reference_pattern (frag ++ txt "\1") s = Ok y ->
  insertions (before_marker END_FILE_REFERENCE) frag
    (count_matches (pat_regex file_reference_pattern) 0 s) s y.
Proof.
  intros Hf Hy.
  destruct (re_sub_marker END_FILE_REFERENCE frag s) as (y' & E & H);
    [done | done |].
  change (re_sub file_reference_pattern) with
    (re_sub {| pat_groups := 1; pat_regex := RGroup 1 (lit END_FILE_REFERENCE) |})
    in Hy.
  rewrite E in Hy. by injection Hy as <-.
Qed.

Lemma re_sub_build_file (frag s y : text) :
  avoids [backslash] frag = true ->
  re_sub build_file_pattern (frag ++ txt "\1") s = Ok y ->
  insertions (before_marker END_BUILD_FILE) frag
    (count_matches (pat_regex build_file_pattern) 0 s) s y.
Proof.
  intros Hf Hy.
  destruct (re_sub_marker END_BUILD_FILE frag s) as (y' & E & H);
    [done | done |].
  change (re_sub build_file_pattern) with
    (re_sub {| pat_groups := 1; pat_regex := RGroup 1 (lit END_BUILD_FILE) |})
    in Hy.
  rewrite E in Hy. by injection Hy as <-.
Qed.

Lemma re_sub_sources_reference (u name s y : text) :
  avoids [backslash] u = true -> avoids [backslash] name = true ->
  re_sub sources_pattern (sources_template u name) s = Ok y ->
  insertions at_list_end (sources_reference u name)
    (count_matches (pat_regex sources_pattern) 0 s) s y.
Proof.
  intros Hu Hn Hy. destruct (re_sub_sources u name s Hu Hn) as (y' & E & H).
  rewrite E in Hy. by injection Hy as <-.
Qed.

(** C1, as the code has it: for a candidate on disk whose display name
    does not occur in the manifest text, when each of the three patterns
    has exactly one match in the text its substitution is applied to, the
    iteration puts in exactly one file-reference record (in front of the
    file-reference end marker), exactly one build-file record (in front of
    the build-file end marker) and exactly one sources-list reference (at
    the end of the matched list), counts the candidate as added, and the
    two identifiers in these records are 24 uppercase hexadecimal digits. *)
Theorem one_record_per_single_match (orc : Oracle) (path name content : text)
    (c1 c2 y : text) (n : nat) (st : State) :
  no_escape (path, name) = true ->
  needs_insertion (world st) content (path, name) = true ->
  re_sub file_reference_pattern
    (file_ref_record (uuid_at orc (drawn st)) name path ++ txt "\1") content
  = Ok c1 ->
  re_sub build_file_pattern
    (build_file_record (uuid_at orc (S (drawn st))) (uuid_at orc (drawn st))
       name ++ txt "\1") c1
  = Ok c2 ->
  re_sub sources_pattern
    (sources_template (uuid_at orc (S (drawn st))) name) c2
  = Ok y ->
  count_matches (pat_regex file_reference_pattern) 0 content = 1%nat ->
  count_matches (pat_regex build_file_pattern) 0 c1 = 1%nat ->
  count_matches (pat_regex sources_pattern) 0 c2 = 1%nat ->
  (exists st', process_candidate orc (path, name) content n st
               = (st', Ok (y, S n)))
  /\ well_formed_id (uuid_at orc (drawn st))
  /\ well_formed_id (uuid_at orc (S (drawn st)))
  /\ (exists pre post,
        content = pre ++ post
        /\ c1 = pre ++ file_ref_record (uuid_at orc (drawn st)) name path
                  ++ post
        /\ before_marker END_FILE_REFERENCE post)
  /\ (exists pre post,
        c1 = pre ++ post
        /\ c2 = pre ++ build_file_record (uuid_at orc (S (drawn st)))
                         (uuid_at orc (drawn st)) name ++ post
        /\ before_marker END_BUILD_FILE post)
  /\ (exists pre post,
        c2 = pre ++ post
        /\ y = pre ++ sources_reference (uuid_at orc (S (drawn st))) name
                 ++ post
        /\ at_list_end post).
Proof.
  intros [Hp Hn]%andb_true_iff [Hdisk Hc]%needs_insertion_true E1 E2 E3 N1 N2 N3.
  cbn [fst snd] in *.
  pose proof (uuid_no_backslash (urandom orc (drawn st))) as Hu1.
  pose proof (uuid_no_backslash (urandom orc (S (drawn st)))) as Hu2.
  fold (uuid_at orc (drawn st)) in Hu1. fold (uuid_at orc (S (drawn st))) in Hu2.
  split.
  { eexists. apply process_candidate_added; [exact Hdisk | done |].
    unfold insert_records. by rewrite E1, E2. }
  split; [apply generate_uuid_well_formed|].
  split; [apply generate_uuid_well_formed|].
  apply re_sub_file_reference in E1; [|by apply file_ref_record_plain].
  apply re_sub_build_file in E2; [|by apply build_file_record_plain].
  apply re_sub_sources_reference in E3; [|done|done].
  rewrite N1 in E1. rewrite N2 in E2. rewrite N3 in E3.
  split; [by apply insertions_once|].
  split; by apply insertions_once.
Qed.

Lemma one_record_per_single_match_witness :
  let st := initial_state (example_world example_manifest) in
  let u1 := uuid_at example_oracle 0 in
  let u2 := uuid_at example_oracle 1 in
  let name := txt "V5Config.swift" in
  let path := txt "V5/Config/V5Config.swift" in
  (exists st', process_candidate example_oracle (path, name)
                 example_manifest 0 st
               = (st', Ok (example_patched, 1%nat)))
  /\ well_formed_id u1 /\ well_formed_id u2
  /\ (exists pre post,
        example_manifest = pre ++ post
        /\ example_after_file_ref = pre ++ file_ref_record u1 name path ++ post
        /\ before_marker END_FILE_REFERENCE post)
  /\ (exists pre post,
        example_after_file_ref = pre ++ post
        /\ example_after_build_file
           = pre ++ build_file_record u2 u1 name ++ post
        /\ before_marker END_BUILD_FILE post)
  /\ (exists pre post,
        example_after_build_file = pre ++ post
        /\ example_patched = pre ++ sources_reference u2 name ++ post
        /\ at_list_end post).
Proof.
  apply (one_record_per_single_match example_oracle
           (txt "V5/Config/V5Config.swift") (txt "V5Config.swift")
           example_manifest example_after_file_ref example_after_build_file
           example_patched 0 (initial_state (example_world example_manifest)));
    vm_compute; reflexivity.
Defined.

(** C1 as the spec states it does not hold: a candidate on disk whose
    name is not in the manifest gets no record at all when the manifest
    has none of the section markers; the run still counts it as added and
    writes the text back as it was. *)
Lemma no_marker_no_record :
  let manifest := txt "// !$*UTF8*$!" in
  let w := example_world manifest in
  let r := run example_oracle w in
  needs_insertion w manifest
    (txt "V5/Config/V5Config.swift", txt "V5Config.swift") = true
  /\ snd r = Ok 65%Z
  /\ files (world (fst r)) !! PBXPROJ_PATH = Some manifest
  /\ contains (txt "V5Config.swift") manifest = false
  /\ log (fst r) !! 6%nat = Some (EPrint (txt "  Added V5Config.swift")).
Proof. cbv zeta. repeat split; vm_compute; reflexivity. Qed.

(** ** A text without the markers *)

Lemma no_section_counts (x : text) :
  no_section x = true ->
  count_matches (pat_regex file_reference_pattern) 0 x = 0%nat
  /\ count_matches (pat_regex build_file_pattern) 0 x = 0%nat
  /\ count_matches (pat_regex sources_pattern) 0 x = 0%nat.
Proof.
  unfold no_section.
  intros [[H1%negb_true_iff H2%negb_true_iff]%andb_true_iff H3]%andb_true_iff.
  split; [by apply count_literal_zero|].
  split; [by apply count_literal_zero | by apply Nat.eqb_eq].
Qed.

Lemma inserted_no_section (u1 u2 path name x y : text) :
  inserted u1 u2 path name x y -> no_section x = true -> y = x.
Proof.
  intros (c1 & c2 & H1 & H2 & H3) (N1 & N2 & N3)%no_section_counts.
  rewrite N1 in H1. apply insertions_zero in H1 as ->.
  rewrite N2 in H2. apply insertions_zero in H2 as ->.
  rewrite N3 in H3. by apply insertions_zero in H3 as ->.
Qed.

Section StepsFacts.

Variable orc : Oracle.
Variable w : World.

Lemma step_count_mono (cand : text * text) (s s' : loop_state)
    (es : list event) :
  step orc w cand s s' es -> (snd (fst s) <= snd (fst s'))%nat.
Proof. inversion 1; subst; simpl; lia. Qed.

Lemma steps_count_mono (cands : list (text * text)) (s s' : loop_state)
    (es : list event) :
  steps orc w cands s s' es -> (snd (fst s) <= snd (fst s'))%nat.
Proof.
  induction 1 as [|c cs s1 s2 s3 es es' H1 H2 IH]; [done|].
  apply step_count_mono in H1. lia.
Qed.

Lemma step_skipped (cand : text * text) (s s' : loop_state)
    (es : list event) :
  step orc w cand s s' es ->
  needs_insertion w (fst (fst s)) cand = false -> s' = s.
Proof.
  intros H Hc%needs_insertion_false. inversion H; subst; try done.
  cbn [fst] in Hc. destruct Hc; [done | congruence].
Qed.

Lemma steps_no_section (cands : list (text * text)) (s s' : loop_state)
    (es : list event) :
  steps orc w cands s s' es -> no_section (fst (fst s)) = true ->
  fst (fst s') = fst (fst s).
Proof.
  induction 1 as [|c cs s1 s2 s3 es es' H1 H2 IH]; intros Hx; [done|].
  assert (fst (fst s2) = fst (fst s1)) as Heq.
  { inversion H1; subst; try done. cbn [fst] in *.
    by eapply inserted_no_section. }
  rewrite <- Heq. apply IH. by rewrite Heq.
Qed.

(** When some candidate needs insertion, the loop ends with a count of
    added files above the one it started with. *)
Lemma steps_some_added (cands : list (text * text)) (s s' : loop_state)
    (es : list event) :
  steps orc w cands s s' es ->
  existsb (needs_insertion w (fst (fst s))) cands = true ->
  (snd (fst s) < snd (fst s'))%nat.
Proof.
  induction 1 as [|c cs s1 s2 s3 es es' H1 H2 IH]; intros Hex; [done|].
  cbn [existsb] in Hex.
  destruct (needs_insertion w (fst (fst s1)) c) eqn:Hc.
  - apply needs_insertion_true in Hc as [Hd Hn].
    assert (snd (fst s2) = S (snd (fst s1))) as Heq.
    { inversion H1; subst; cbn [fst snd] in *; [done | congruence | done]. }
    apply steps_count_mono in H2. lia.
  - rewrite (step_skipped _ _ _ _ H1 Hc) in *. by apply IH.
Qed.

End StepsFacts.

Lemma existsb_needs_backed_up (w : World) (raw content : text)
    (cands : list (text * text)) :
  (forall c, In c cands -> In c V5_FILES) ->
  existsb (needs_insertion (backed_up w raw) content) cands
  = existsb (needs_insertion w content) cands.
Proof.
  intros Hsub. induction cands as [|c cands IH]; [done|]. cbn [existsb].
  rewrite IH by (intros; apply Hsub; by right). f_equal.
  unfold needs_insertion. f_equal. apply bool_decide_ext.
  apply V5_on_disk_backed_up, Hsub. by left.
Qed.



(** ** What an insertion keeps *)

Lemma uncut_slash (name : text) :
  uncut name = true -> avoids ["/"%char] (tail name) = true.
Proof. apply avoids_weaken. intros c [<- | []]. by left. Qed.

Lemma uncut_paren (name : text) :
  uncut name = true -> avoids [")"%char] (tail name) = true.
Proof. apply avoids_weaken. intros c [<- | []]. right. by left. Qed.

Lemma keep_before_file_reference (u frag s s' : text) (n : nat) :
  uncut u = true ->
  insertions (before_marker END_FILE_REFERENCE) frag n s s' ->
  contains u s = true -> contains u s' = true.
Proof.
  intros Hu. apply insertions_keep_contains with (heads := ["/"%char]);
    [|by apply uncut_slash].
  intros c t. apply before_marker_heads.
Qed.

Lemma keep_before_build_file (u frag s s' : text) (n : nat) :
  uncut u = true ->
  insertions (before_marker END_BUILD_FILE) frag n s s' ->
  contains u s = true -> contains u s' = true.
Proof.
  intros Hu. apply insertions_keep_contains with (heads := ["/"%char]);
    [|by apply uncut_slash].
  intros c t. apply before_marker_heads.
Qed.

Lemma keep_at_list_end (u frag s s' : text) (n : nat) :
  uncut u = true ->
  insertions at_list_end frag n s s' ->
  contains u s = true -> contains u s' = true.
Proof.
  intros Hu. apply insertions_keep_contains with (heads := [")"%char]);
    [|by apply uncut_paren].
  intros c t. apply at_list_end_heads.
Qed.

(** A name that occurs in the text occurs in it after an insertion. *)
Lemma inserted_keeps (u u1 u2 path name x y : text) :
  uncut u = true -> inserted u1 u2 path name x y ->
  contains u x = true -> contains u y = true.
Proof.
  intros Hu (c1 & c2 & H1 & H2 & H3) Hx.
  apply (keep_at_list_end _ _ _ _ _ Hu H3).
  apply (keep_before_build_file _ _ _ _ _ Hu H2).
  apply (keep_before_file_reference _ _ _ _ _ Hu H1 Hx).
Qed.

Lemma positive_ltb (n : nat) : (0 <? n)%nat = true -> exists k, n = S k.
Proof. intros H%Nat.ltb_lt. destruct n; [lia | eauto]. Qed.

(** A name that occurs in a fragment the insertion really puts in occurs
    in the text after the insertion. *)
Lemma inserted_adds (u u1 u2 path name x y : text) :
  uncut u = true ->
  avoids [backslash] u1 = true -> avoids [backslash] u2 = true ->
  avoids [backslash] path = true -> avoids [backslash] name = true ->
  insert_records u1 u2 path name x = Ok y ->
  existsb (contains u) (fragments_inserted u1 u2 path name x) = true ->
  contains u y = true.
Proof.
  intros Hu Hu1 Hu2 Hp Hn Hy Hex.
  unfold insert_records in Hy. unfold fragments_inserted in Hex.
  destruct (re_sub file_reference_pattern _ x) as [c1|] eqn:E1; [|done].
  destruct (re_sub build_file_pattern _ c1) as [c2|] eqn:E2; [|done].
  apply re_sub_file_reference in E1; [|by apply file_ref_record_plain].
  apply re_sub_build_file in E2; [|by apply build_file_record_plain].
  apply re_sub_sources_reference in Hy; [|done|done].
  rewrite !existsb_app in Hex.
  apply orb_true_iff in Hex as [Hex | Hex];
    [|apply orb_true_iff in Hex as [Hex | Hex]].
  - destruct (0 <? _)%nat eqn:Hpos in Hex; [|done].
    apply positive_ltb in Hpos as [k Hk]. rewrite Hk in E1.
    cbn [existsb] in Hex. rewrite orb_false_r in Hex.
    eapply keep_at_list_end; [done | exact Hy |].
    eapply keep_before_build_file; [done | exact E2 |].
    eapply contains_trans; [exact Hex | by eapply insertions_positive].
  - destruct (0 <? _)%nat eqn:Hpos in Hex; [|done].
    apply positive_ltb in Hpos as [k Hk]. rewrite Hk in E2.
    cbn [existsb] in Hex. rewrite orb_false_r in Hex.
    eapply keep_at_list_end; [done | exact Hy |].
    eapply contains_trans; [exact Hex | by eapply insertions_positive].
  - destruct (0 <? _)%nat eqn:Hpos in Hex; [|done].
    apply positive_ltb in Hpos as [k Hk]. rewrite Hk in Hy.
    cbn [existsb] in Hex. rewrite orb_false_r in Hex.
    eapply contains_trans; [exact Hex | by eapply insertions_positive].
Qed.

Lemma steps_keep (orc : Oracle) (w : World) (cands : list (text * text))
    (s s' : loop_state) (es : list event) (u : text) :
  uncut u = true -> steps orc w cands s s' es ->
  contains u (fst (fst s)) = true -> contains u (fst (fst s')) = true.
Proof.
  intros Hu. induction 1 as [|c cs s1 s2 s3 es es' H1 H2 IH]; [done|].
  intros Hx. apply IH. inversion H1; subst; cbn [fst] in *; try done.
  by eapply inserted_keeps.
Qed.

(** C10: the already-registered check of a candidate reads the text as
    the earlier candidates of the same run left it, not the manifest as
    read from disk.  A later candidate that is on disk and whose display
    name is not in the manifest as read, but occurs in a fragment put in
    for an earlier candidate, is found already in the project: the loop
    reports it so and computes what it computes without that candidate. *)
Theorem later_check_sees_earlier_insertions (orc : Oracle)
    (c1 : text * text) (mid : list (text * text)) (c2 : text * text)
    (x : text) (n : nat) (st : State) :
  forallb no_escape (c1 :: mid ++ [c2]) = true ->
  needs_insertion (world st) x c1 = true ->
  needs_insertion (world st) x c2 = true ->
  existsb (contains (snd c2))
    (fragments_inserted (uuid_at orc (drawn st)) (uuid_at orc (S (drawn st)))
       (fst c1) (snd c1) x) = true ->
  uncut (snd c2) = true ->
  exists st1 st2 y n',
    add_files orc (c1 :: mid ++ [c2]) x n st = (st1, Ok (y, n'))
    /\ add_files orc (c1 :: mid) x n st = (st2, Ok (y, n'))
    /\ contains (snd c2) x = false
    /\ contains (snd c2) y = true
    /\ world st1 = world st2 /\ drawn st1 = drawn st2
    /\ log st1 = log st2
                 ++ [EPrint (txt "OK: " ++ snd c2 ++ txt " already in project")].
Proof.
  intros Hall [Hd1 Hn1]%needs_insertion_true [Hd2 Hn2]%needs_insertion_true
    Hfrag Hu.
  destruct (add_files_steps orc _ Hall x n st)
    as (st1 & y & n1 & es & E1 & Hw1 & Hl1 & Hs1).
  assert (Hall' : forallb no_escape (c1 :: mid) = true).
  { change (c1 :: mid ++ [c2]) with ((c1 :: mid) ++ [c2]) in Hall.
    rewrite forallb_app in Hall. by apply andb_true_iff in Hall as [-> _]. }
  destruct (add_files_steps orc _ Hall' x n st)
    as (st2 & y2 & n2 & es2 & E2 & Hw2 & Hl2 & Hs2).
  change (c1 :: mid ++ [c2]) with ((c1 :: mid) ++ [c2]) in Hs1.
  apply steps_app_inv in Hs1 as (s2 & esa & esb & Ha & Hb & ->).
  destruct (steps_det _ _ _ _ _ _ _ _ Ha Hs2) as [-> ->].
  assert (Hy2 : contains (snd c2) y2 = true).
  { inversion Hs2 as [|? ? ? t2 ? fs fs' Hs Hss]; subst.
    apply (steps_keep _ _ _ _ _ _ _ Hu Hss).
    inversion Hs; subst; cbn [fst]; [done | congruence |].
    cbn [forallb] in Hall'. apply andb_true_iff in Hall' as [Hc1 _].
    apply andb_true_iff in Hc1 as [Hp Hn].
    apply (inserted_adds _ (uuid_at orc (drawn st))
             (uuid_at orc (S (drawn st))) (fst c1) (snd c1) x);
      [done | apply uuid_no_backslash | apply uuid_no_backslash
       | done | done | done | done]. }
  inversion Hb as [|? ? ? t2 ? fs fs' Hs Hss]; subst.
  inversion Hss; subst.
  inversion Hs; subst; [done | | congruence].
  exists st1, st2, y, n1. split; [done|]. split; [done|].
  split; [done|]. split; [done|]. split; [congruence|]. split; [done|].
  rewrite Hl1, Hl2, app_nil_r. by rewrite <- app_assoc.
Qed.

Lemma later_check_sees_earlier_insertions_witness :
  let st := initial_state nested_world in
  let c1 := (txt "Views/MainView.swift", txt "MainView.swift") in
  let c2 := (txt "Legacy/View.swift", txt "View.swift") in
  exists st1 st2 y n',
    add_files example_oracle (c1 :: [] ++ [c2]) example_manifest 0 st
    = (st1, Ok (y, n'))
    /\ add_files example_oracle (c1 :: []) example_manifest 0 st
       = (st2, Ok (y, n'))
    /\ contains (snd c2) example_manifest = false
    /\ contains (snd c2) y = true
    /\ world st1 = world st2 /\ drawn st1 = drawn st2
    /\ log st1 = log st2
                 ++ [EPrint (txt "OK: " ++ snd c2 ++ txt " already in project")].
Proof.
  apply (later_check_sees_earlier_insertions example_oracle
           (txt "Views/MainView.swift", txt "MainView.swift") []
           (txt "Legacy/View.swift", txt "View.swift") example_manifest 0
           (initial_state nested_world)); vm_compute; reflexivity.
Defined.

(** ** Two runs *)

Lemma V5_tidy : forallb tidy V5_FILES = true.
Proof. reflexivity. Qed.

Lemma tidy_spec (cand : text * text) :
  tidy cand = true ->
  avoids [backslash] (fst cand) = true /\ avoids [backslash] (snd cand) = true
  /\ uncut (snd cand) = true
  /\ avoids [cr] (fst cand) = true /\ avoids [cr] (snd cand) = true.
Proof.
  unfold tidy, no_escape.
  intros [[[[? ?]%andb_true_iff ?]%andb_true_iff ?]%andb_true_iff ?]%andb_true_iff.
  done.
Qed.

Lemma tidy_no_escape (cands : list (text * text)) :
  forallb tidy cands = true -> forallb no_escape cands = true.
Proof.
  rewrite !forallb_forall. intros H c Hc. specialize (H c Hc).
  apply tidy_spec in H as (H1 & H2 & _). unfold no_escape. by rewrite H1, H2.
Qed.

(** The records name their candidate. *)
Lemma file_ref_record_names (u name path : text) :
  contains name (file_ref_record u name path) = true.
Proof.
  apply contains_spec. unfold file_ref_record.
  exists ([tab; tab] ++ u ++ txt " /* "). eexists.
  rewrite <- !app_assoc. reflexivity.
Qed.

Lemma build_file_record_names (u2 u1 name : text) :
  contains name (build_file_record u2 u1 name) = true.
Proof.
  apply contains_spec. unfold build_file_record.
  exists ([tab; tab] ++ u2 ++ txt " /* "). eexists.
  rewrite <- !app_assoc. reflexivity.
Qed.

Lemma sources_reference_names (u name : text) :
  contains name (sources_reference u name) = true.
Proof.
  apply contains_spec. unfold sources_reference.
  exists ([nl; tab; tab; tab; tab] ++ u ++ txt " /* "). eexists.
  rewrite <- !app_assoc. reflexivity.
Qed.

Lemma count_zero_or_positive (n : nat) : n = 0%nat \/ exists k, n = S k.
Proof. destruct n; eauto. Qed.

(** After an insertion the candidate's name is in the text, unless the
    text has none of the three places and is left as it was. *)
Lemma inserted_names_or_nothing (u1 u2 path name x y : text) :
  inserted u1 u2 path name x y ->
  contains name y = true \/ (no_section x = true /\ y = x).
Proof.
  intros (c1 & c2 & H1 & H2 & H3).
  destruct (count_zero_or_positive
              (count_matches (pat_regex sources_pattern) 0 c2)) as [N3 | [k3 N3]].
  2:{ left. rewrite N3 in H3. apply insertions_positive in H3.
      eapply contains_trans; [apply sources_reference_names | exact H3]. }
  rewrite N3 in H3. apply insertions_zero in H3 as ->.
  destruct (count_zero_or_positive
              (count_matches (pat_regex build_file_pattern) 0 c1)) as [N2 | [k2 N2]].
  2:{ left. rewrite N2 in H2. apply insertions_positive in H2.
      eapply contains_trans; [apply build_file_record_names | exact H2]. }
  rewrite N2 in H2. apply insertions_zero in H2 as ->.
  destruct (count_zero_or_positive
              (count_matches (pat_regex file_reference_pattern) 0 x)) as [N1 | [k1 N1]].
  2:{ left. rewrite N1 in H1. apply insertions_positive in H1.
      eapply contains_trans; [apply file_ref_record_names | exact H1]. }
  rewrite N1 in H1. apply insertions_zero in H1 as ->.
  right. split; [|done]. unfold no_section.
  apply (count_literal_zero END_FILE_REFERENCE) in N1; [|done].
  apply (count_literal_zero END_BUILD_FILE) in N2; [|done].
  rewrite N1, N2, N3. reflexivity.
Qed.

Section TwoRuns.

Variable orc : Oracle.
Variable w : World.

(** After the loop, every candidate on disk is named in the text, or the
    text has none of the three places. *)
Lemma steps_named (cands : list (text * text)) (s s' : loop_state)
    (es : list event) :
  steps orc w cands s s' es ->
  forallb tidy cands = true ->
  forall c, In c cands -> on_disk w c ->
    contains (snd c) (fst (fst s')) = true \/ no_section (fst (fst s')) = true.
Proof.
  induction 1 as [|c0 cs s1 s2 s3 es es' H1 H2 IH]; intros Hall c Hin Hd;
    [done|].
  cbn [forallb] in Hall. apply andb_true_iff in Hall as [Hc0 Hcs].
  destruct Hin as [<- | Hin]; [|by apply IH].
  apply tidy_spec in Hc0 as (_ & _ & Hu & _).
  inversion H1; subst; cbn [fst] in *.
  - done.
  - left. by apply (steps_keep _ _ _ _ _ _ _ Hu H2).
  - match goal with Hi : inserted _ _ _ _ _ _ |- _ =>
      destruct (inserted_names_or_nothing _ _ _ _ _ _ Hi) as [Hy | [Hno ->]]
    end.
    + left. by apply (steps_keep _ _ _ _ _ _ _ Hu H2).
    + right. by rewrite (steps_no_section _ _ _ _ _ _ H2 Hno).
Qed.

(** A loop started on a text in which every candidate on disk is named,
    or which has none of the three places, leaves the text as it is. *)
Lemma steps_fixed (cands : list (text * text)) (s s' : loop_state)
    (es : list event) :
  steps orc w cands s s' es ->
  (forall c, In c cands -> on_disk w c ->
     contains (snd c) (fst (fst s)) = true \/ no_section (fst (fst s)) = true) ->
  fst (fst s') = fst (fst s).
Proof.
  induction 1 as [|c0 cs s1 s2 s3 es es' H1 H2 IH]; intros Hinv; [done|].
  assert (Heq : fst (fst s2) = fst (fst s1)).
  { inversion H1; subst; cbn [fst] in *; try done.
    destruct (Hinv c0 (or_introl eq_refl)) as [Hc | Hno]; [done | congruence |].
    by eapply inserted_no_section. }
  rewrite <- Heq. apply IH. rewrite Heq. intros c Hin. apply Hinv. by right.
Qed.

Lemma steps_world_ext (w' : World) (cands : list (text * text))
    (s s' : loop_state) (es : list event) :
  steps orc w cands s s' es ->
  (forall c, In c cands -> on_disk w c <-> on_disk w' c) ->
  steps orc w' cands s s' es.
Proof.
  induction 1 as [|c0 cs s1 s2 s3 es es' H1 H2 IH]; intros Hext;
    [constructor|].
  econstructor; [|apply IH; intros c Hin; apply Hext; by right].
  pose proof (Hext c0 (or_introl eq_refl)) as H0.
  inversion H1; subst.
  - apply step_absent. by rewrite <- H0.
  - apply step_present; [by apply H0 | done].
  - apply step_added; [by apply H0 | done | done | done].
Qed.

End TwoRuns.

(** ** Line endings *)

Lemma universal_newlines_no_cr (s : text) :
  avoids [cr] (universal_newlines s) = true.
Proof.
  remember (length s) as n eqn:Hn. revert s Hn.
  induction n as [n IH] using lt_wf_ind. intros s Hn.
  destruct s as [|c s]; [done|]. cbn [universal_newlines].
  destruct (ascii_eqb c cr) eqn:Ec.
  - destruct s as [|d s]; [done|].
    destruct (ascii_eqb d nl).
    + apply avoids_one. split; [done|].
      apply (IH (length s)); [subst n; simpl; lia | done].
    + apply avoids_one. split; [done|].
      apply (IH (length (d :: s))); [subst n; simpl; lia | done].
  - apply avoids_one. split; [by apply ascii_eqb_false|].
    apply (IH (length s)); [subst n; simpl; lia | done].
Qed.

Lemma universal_newlines_id (s : text) :
  avoids [cr] s = true -> universal_newlines s = s.
Proof.
  induction s as [|c s IH]; [done|].
  intros [Hc Hs]%avoids_one. cbn [universal_newlines].
  apply ascii_eqb_false in Hc. rewrite Hc. by rewrite IH.
Qed.

Lemma insertions_avoids (P : text -> Prop) (frag bad : text) (n : nat)
    (s s' : text) :
  insertions P frag n s s' ->
  avoids bad frag = true -> avoids bad s = true -> avoids bad s' = true.
Proof.
  intros H Hf. induction H as [|c k s s' H IH|k s s' HP H IH]; intros Hs.
  - done.
  - rewrite avoids_cons in Hs |- *. apply andb_true_iff in Hs as [-> Hs].
    by rewrite IH.
  - rewrite avoids_app, Hf. by apply IH.
Qed.

Lemma uuid_no_cr (r : N) : avoids [cr] (generate_uuid r) = true.
Proof. apply hex_avoids; [apply generate_uuid_hex | reflexivity]. Qed.

Lemma inserted_no_cr (u1 u2 path name x y : text) :
  avoids [cr] u1 = true -> avoids [cr] u2 = true ->
  avoids [cr] path = true -> avoids [cr] name = true ->
  inserted u1 u2 path name x y ->
  avoids [cr] x = true -> avoids [cr] y = true.
Proof.
  intros Hu1 Hu2 Hp Hn (c1 & c2 & H1 & H2 & H3) Hx.
  eapply insertions_avoids; [exact H3 | |].
  { unfold sources_reference. rewrite !avoids_app, Hu2, Hn. reflexivity. }
  eapply insertions_avoids; [exact H2 | |].
  { unfold build_file_record. rewrite !avoids_app, Hu2, Hu1, Hn. reflexivity. }
  eapply insertions_avoids; [exact H1 | | exact Hx].
  unfold file_ref_record. rewrite !avoids_app, Hu1, Hn, Hp. reflexivity.
Qed.

Lemma steps_no_cr (orc : Oracle) (w : World) (cands : list (text * text))
    (s s' : loop_state) (es : list event) :
  steps orc w cands s s' es ->
  forallb tidy cands = true ->
  avoids [cr] (fst (fst s)) = true -> avoids [cr] (fst (fst s')) = true.
Proof.
  induction 1 as [|c0 cs s1 s2 s3 es es' H1 H2 IH]; intros Hall Hs; [done|].
  cbn [forallb] in Hall. apply andb_true_iff in Hall as [Hc0 Hcs].
  apply IH; [done|].
  apply tidy_spec in Hc0 as (_ & _ & _ & Hp & Hn).
  inversion H1; subst; cbn [fst] in *; try done.
  eapply inserted_no_cr; [apply uuid_no_cr | apply uuid_no_cr | exact Hp
                          | exact Hn | eassumption | exact Hs].
Qed.

(** ** The places persist *)

Lemma count_positive_of_match (r : regex) (a b : text) :
  matches_at r b = true ->
  exists k, count_matches r 0 (a ++ b) = S k.
Proof.
  intros Hb. unfold matches_at in Hb.
  induction a as [|c a IH].
  - simpl. destruct b as [|c b].
    + simpl. destruct (match_at r []); [eauto | done].
    + cbn [count_matches]. destruct (match_at r (c :: b)) as [[rest caps]|];
        [eauto | done].
  - change ((c :: a) ++ b) with (c :: (a ++ b)). cbn [count_matches].
    destruct (match_at r (c :: a ++ b)) as [[rest caps]|]; [eauto | done].
Qed.

(** The first match of the scan, for a pattern whose matches are not
    empty. *)
Lemma scan_first_match (r : regex) (tpl : list titem) (s : text) (k : nat) :
  match_at r [] = None ->
  (forall t rest caps, match_at r t = Some (rest, caps) ->
     exists m, t = m ++ rest /\ m <> []) ->
  count_matches r 0 s = S k ->
  exists pre m rest caps,
    s = pre ++ m ++ rest /\ m <> []
    /\ match_at r (m ++ rest) = Some (rest, caps)
    /\ scan r tpl 0 s = pre ++ expand tpl caps ++ scan r tpl 0 rest.
Proof.
  intros Hempty Hshape. induction s as [|c s IH]; intros Hk.
  - simpl in Hk. by rewrite Hempty in Hk.
  - destruct (match_at r (c :: s)) as [[rest caps]|] eqn:E.
    + destruct (Hshape _ _ _ E) as (m & Hs & Hm).
      exists [], m, rest, caps. rewrite Hs in E |- *.
      split; [done|]. split; [done|]. split; [done|].
      by rewrite (scan_match _ _ _ _ _ Hm E).
    + rewrite (count_nomatch _ _ _ E) in Hk.
      destruct (IH Hk) as (pre & m & rest & caps & -> & Hm & Ht & Hscan).
      exists (c :: pre), m, rest, caps. split; [done|]. split; [done|].
      split; [done|].
      change ((c :: pre) ++ m ++ rest) with (c :: (pre ++ m ++ rest)).
      rewrite (scan_nomatch _ _ _ _ E), Hscan. done.
Qed.

Lemma match_nonempty_literal (m t rest : text) (caps : gmap nat text) :
  m <> [] ->
  match_at (RGroup 1 (lit m)) t = Some (rest, caps) ->
  exists w, t = w ++ rest /\ w <> [].
Proof.
  intros Hm. rewrite match_at_literal.
  destruct (starts_with m t) eqn:E; [|done]. intros [= <- <-].
  exists m. split; [by apply starts_with_drop | done].
Qed.

Lemma match_nonempty_sources (t rest : text) (caps : gmap nat text) :
  match_at (pat_regex sources_pattern) t = Some (rest, caps) ->
  exists w, t = w ++ rest /\ w <> [].
Proof.
  intros H. destruct (match_at_sources _ _ _ H) as (body & entries & -> & _).
  exists ((SOURCES_OPEN ++ body ++ FILES_OPEN) ++ entries).
  split; [by rewrite <- (app_assoc _ entries rest) | done].
Qed.

Lemma literal_match_inv (m frag t rest : text) (caps : gmap nat text) :
  match_at (RGroup 1 (lit m)) t = Some (rest, caps) ->
  t = m ++ rest /\ expand (map ILit frag ++ [IGroup 1]) caps = frag ++ m.
Proof.
  rewrite match_at_literal.
  destruct (starts_with m t) eqn:E; [|done]. intros [= <- <-].
  split; [by apply starts_with_drop|].
  rewrite expand_literal. unfold expand. simpl.
  rewrite lookup_insert_ne by done. rewrite lookup_insert_eq. simpl.
  by rewrite app_nil_r.
Qed.

(** A substitution leaves a match of its own pattern in the text. *)
Lemma marker_stays (m frag s y : text) :
  m <> [] -> avoids [backslash] frag = true ->
  re_sub {| pat_groups := 1; pat_regex := RGroup 1 (lit m) |}
    (frag ++ txt "\1") s = Ok y ->
  contains m s = true -> contains m y = true.
Proof.
  intros Hm Hf Hy Hs. unfold re_sub in Hy. cbn [pat_groups pat_regex] in Hy.
  rewrite (parse_template_group1 0 _ Hf) in Hy. injection Hy as <-.
  destruct (count_zero_or_positive (count_matches (RGroup 1 (lit m)) 0 s))
    as [N | [k N]].
  { apply (count_literal_zero m s Hm) in N. congruence. }
  destruct (scan_first_match (RGroup 1 (lit m)) (map ILit frag ++ [IGroup 1])
              s k) as (pre & w & rest & caps & -> & Hw & Hmatch & ->);
    [by destruct m | intros; by eapply match_nonempty_literal | done |].
  destruct (literal_match_inv m frag _ _ _ Hmatch) as [_ ->].
  apply contains_spec. exists (pre ++ frag). eexists.
  rewrite <- !app_assoc. reflexivity.
Qed.

Lemma sources_stays (u name s y : text) (k : nat) :
  avoids [backslash] u = true -> avoids [backslash] name = true ->
  re_sub sources_pattern (sources_template u name) s = Ok y ->
  count_matches (pat_regex sources_pattern) 0 s = S k ->
  exists k', count_matches (pat_regex sources_pattern) 0 y = S k'.
Proof.
  intros Hu Hn Hy N. unfold re_sub in Hy.
  change (pat_groups sources_pattern) with 2%nat in Hy.
  rewrite sources_template_eq, parse_template_sources in Hy
    by (rewrite !avoids_app, Hu, Hn; reflexivity).
  set (l := u ++ txt " /* " ++ name ++ txt " in Sources */,") in Hy.
  set (tpl := [IGroup 1; IGroup 2; ILit nl; ILit tab; ILit tab; ILit tab;
               ILit tab] ++ map ILit l) in Hy.
  assert (y = scan (pat_regex sources_pattern) tpl 0 s) as -> by congruence.
  clear Hy.
  destruct (scan_first_match (pat_regex sources_pattern) tpl s k)
    as (pre & w & rest & caps & -> & Hw & Hmatch & ->);
    [reflexivity | intros; by eapply match_nonempty_sources | exact N |].
  destruct (match_at_sources _ _ _ Hmatch)
    as (body & entries & Heq & Hbody & _ & _ & _ & H1 & H2).
  unfold tpl. rewrite (expand_sources l [] _ _ _ H1 H2).
  rewrite <- !app_assoc.
  apply count_positive_of_match. unfold matches_at.
  match goal with |- context [match_at _ (SOURCES_OPEN ++ body ++ FILES_OPEN ++ ?t)] =>
    destruct (match_at_block_complete SOURCES_OPEN FILES_OPEN "}" ")" body t Hbody)
      as [ms Hms]
  end.
  change (RCat (RGroup 1 (RCat (lit SOURCES_OPEN)
                            (RCat (RStarNot "}") (lit FILES_OPEN))))
               (RGroup 2 (RStarNot ")")))
    with (pat_regex sources_pattern) in Hms.
  by rewrite Hms.
Qed.

Lemma marker_kept_by_sources (m u name s y : text) :
  avoids [backslash] u = true -> avoids [backslash] name = true ->
  avoids [")"%char] (tail m) = true ->
  re_sub sources_pattern (sources_template u name) s = Ok y ->
  contains m s = true -> contains m y = true.
Proof.
  intros Hu Hn Hm Hy. apply re_sub_sources_reference in Hy; [|done|done].
  eapply insertions_keep_contains; [|exact Hm | exact Hy].
  intros c t. apply at_list_end_heads.
Qed.

(** An insertion into a text that has one of the three places leaves a
    text that has one. *)
Lemma insert_records_keeps_sections (u1 u2 path name x y : text) :
  avoids [backslash] u1 = true -> avoids [backslash] u2 = true ->
  avoids [backslash] path = true -> avoids [backslash] name = true ->
  insert_records u1 u2 path name x = Ok y ->
  no_section x = false -> no_section y = false.
Proof.
  intros Hu1 Hu2 Hp Hn Hy Hx. unfold insert_records in Hy.
  destruct (re_sub file_reference_pattern _ x) as [c1|] eqn:E1; [|done].
  destruct (re_sub build_file_pattern _ c1) as [c2|] eqn:E2; [|done].
  pose proof (file_ref_record_plain u1 name path Hu1 Hn Hp) as Hf1.
  pose proof (build_file_record_plain u2 u1 name Hu2 Hu1 Hn) as Hf2.
  pose proof (re_sub_file_reference _ _ _ Hf1 E1) as I1.
  pose proof (re_sub_build_file _ _ _ Hf2 E2) as I2.
  pose proof (re_sub_sources_reference _ _ _ _ Hu2 Hn Hy) as I3.
  assert (K1 : contains END_FILE_REFERENCE c2 = true ->
               contains END_FILE_REFERENCE y = true)
    by (by apply (marker_kept_by_sources END_FILE_REFERENCE u2 name)).
  assert (K2 : contains END_BUILD_FILE c2 = true ->
               contains END_BUILD_FILE y = true)
    by (by apply (marker_kept_by_sources END_BUILD_FILE u2 name)).
  assert (S1 : contains END_FILE_REFERENCE x = true ->
               contains END_FILE_REFERENCE c1 = true)
    by (by apply (marker_stays END_FILE_REFERENCE
                    (file_ref_record u1 name path) x c1)).
  assert (S2 : contains END_BUILD_FILE c1 = true ->
               contains END_BUILD_FILE c2 = true)
    by (by apply (marker_stays END_BUILD_FILE
                    (build_file_record u2 u1 name) c1 c2)).
  unfold no_section in *.
  destruct (contains END_BUILD_FILE c1) eqn:B1.
  { rewrite (K2 (S2 eq_refl)). by rewrite andb_false_r. }
  assert (c2 = c1) as ->.
  { apply (count_literal_zero END_BUILD_FILE) in B1; [|done].
    change (RGroup 1 (lit END_BUILD_FILE))
      with (pat_regex build_file_pattern) in B1.
    rewrite B1 in I2. by apply insertions_zero in I2. }
  destruct (contains END_FILE_REFERENCE x) eqn:A1.
  { by rewrite (K1 (S1 eq_refl)). }
  assert (c1 = x) as ->.
  { apply (count_literal_zero END_FILE_REFERENCE) in A1; [|done].
    change (RGroup 1 (lit END_FILE_REFERENCE))
      with (pat_regex file_reference_pattern) in A1.
    rewrite A1 in I1. by apply insertions_zero in I1. }
  rewrite B1 in Hx. cbn [negb andb] in Hx.
  apply Nat.eqb_neq in Hx.
  destruct (count_zero_or_positive
              (count_matches (pat_regex sources_pattern) 0 x)) as [N | [k N]];
    [done|].
  destruct (sources_stays _ _ _ _ _ Hu2 Hn Hy N) as [k' ->].
  by rewrite andb_false_r.
Qed.

Lemma steps_keep_sections (orc : Oracle) (w : World)
    (cands : list (text * text)) (s s' : loop_state) (es : list event) :
  steps orc w cands s s' es ->
  forallb tidy cands = true ->
  no_section (fst (fst s)) = false -> no_section (fst (fst s')) = false.
Proof.
  induction 1 as [|c0 cs s1 s2 s3 es es' H1 H2 IH]; intros Hall Hs; [done|].
  cbn [forallb] in Hall. apply andb_true_iff in Hall as [Hc0 Hcs].
  apply IH; [done|].
  apply tidy_spec in Hc0 as (Hp & Hn & _).
  inversion H1; subst; cbn [fst] in *; try done.
  eapply insert_records_keeps_sections;
    [apply uuid_no_backslash | apply uuid_no_backslash | exact Hp | exact Hn
     | eassumption | exact Hs].
Qed.

(** ** The second run *)

Lemma V5_on_disk_second (w : World) (raw raw' y : text) (n : nat)
    (w' : World) (cand : text * text) :
  files w' = written_back n y (<[BACKUP_PATH := raw]> (files w)) ->
  In cand V5_FILES -> on_disk (backed_up w' raw') cand <-> on_disk w cand.
Proof.
  intros Hf Hin. unfold on_disk, backed_up. cbn [files]. rewrite Hf.
  rewrite lookup_insert_ne by (apply not_eq_sym, (V5_not_backup cand Hin)).
  unfold written_back. destruct (0 <? n)%nat.
  - rewrite lookup_insert_ne by (apply not_eq_sym, (V5_not_manifest cand Hin)).
    rewrite lookup_insert_ne by (apply not_eq_sym, (V5_not_backup cand Hin)).
    done.
  - rewrite lookup_insert_ne by (apply not_eq_sym, (V5_not_backup cand Hin)).
    done.
Qed.

Lemma written_back_lookup (n : nat) (y raw : text)
    (fs : gmap (list ascii) (list ascii)) :
  fs !! PBXPROJ_PATH = Some raw ->
  written_back n y (<[BACKUP_PATH := raw]> fs) !! PBXPROJ_PATH
  = Some (if (0 <? n)%nat then y else raw).
Proof.
  intros H. unfold written_back. destruct (0 <? n)%nat.
  - by rewrite lookup_insert_eq.
  - by rewrite lookup_insert_ne by (apply not_eq_sym, backup_path_fresh).
Qed.

Lemma log_without_write (n : nat) (y : text) (es1 es2 : list event) :
  forallb is_print es1 = true ->
  forallb (fun e => negb (file_event e)) es2 = true ->
  (0 <? n)%nat = false ->
  forall p c,
    ~ In (EWrite p c)
        (banner ++ [ECopy PBXPROJ_PATH BACKUP_PATH;
                    EPrint (txt "Created backup: " ++ PBXPROJ_PATH
                              ++ txt ".backup")]
         ++ es1 ++ write_back n y ++ es2).
Proof.
  intros H1 H2 Hn p c. unfold write_back. rewrite Hn, !in_app_iff.
  intros [H | [H | [H | [H | H]]]].
  - by repeat destruct H as [H | H].
  - by repeat destruct H as [H | H].
  - revert H. by apply no_write_in, prints_no_file_event.
  - by repeat destruct H as [H | H].
  - revert H. by apply no_write_in.
Qed.

Lemma not_needed_of_named (w : World) (y : text) (cands : list (text * text)) :
  (forall c, In c cands -> on_disk w c -> contains (snd c) y = true) ->
  forallb (fun c => negb (needs_insertion w y c)) cands = true.
Proof.
  intros H. apply forallb_forall. intros c Hc. apply negb_true_iff.
  unfold needs_insertion. destruct (bool_decide (on_disk w c)) eqn:E; [|done].
  apply bool_decide_eq_true in E. by rewrite (H c Hc E).
Qed.

Lemma existsb_false_forallb {A} (f : A -> bool) (l : list A) :
  existsb f l = false -> forallb (fun x => negb (f x)) l = true.
Proof.
  induction l as [|x l IH]; [done|]. cbn [existsb forallb].
  intros [-> Hl]%orb_false_iff. by rewrite IH.
Qed.

(** Two runs in a row: what the second finds and leaves. *)
Lemma two_runs (orc1 orc2 : Oracle) (w : World) (raw : text) :
  files w !! PBXPROJ_PATH = Some raw ->
  exists st1 rc1 st2 rc2,
    run orc1 w = (st1, Ok rc1)
    /\ run orc2 (world st1) = (st2, Ok rc2)
    /\ files (world st2) !! PBXPROJ_PATH = files (world st1) !! PBXPROJ_PATH
    /\ (no_section (universal_newlines raw) = false ->
        forall p c, ~ In (EWrite p c) (log st2)).
Proof.
  intros E. unfold run, main.
  destruct (main_with_found orc1 V5_FILES w raw E V5_no_escape)
    as (y & n & k & st1 & es1 & es2 & Hs & Hrun & Hfiles & Hlog & He2 & Hb).
  set (raw' := if (0 <? n)%nat then y else raw).
  assert (E' : files (world st1) !! PBXPROJ_PATH = Some raw').
  { rewrite Hfiles. by apply written_back_lookup. }
  destruct (main_with_found orc2 V5_FILES (world st1) raw' E' V5_no_escape)
    as (y' & n' & k' & st2 & es1' & es2' & Hs' & Hrun' & Hfiles' & Hlog' & He2'
        & Hb').
  exists st1, (returncode (run_shell orc1 BUILD_CMD (world st1))).
  exists st2, (returncode (run_shell orc2 BUILD_CMD (world st2))).
  split; [done|]. split; [done|].
  apply (steps_world_ext _ _ w) in Hs;
    [|intros c Hc; by apply V5_on_disk_backed_up].
  apply (steps_world_ext _ _ w) in Hs';
    [|intros c Hc; by apply (V5_on_disk_second w raw raw' y n)].
  rewrite E', Hfiles', (written_back_lookup n' y' raw' _ E').
  destruct (0 <? n)%nat eqn:Hn; subst raw'.
  - (* the first run wrote [y] *)
    assert (Hcr : avoids [cr] y = true).
    { apply (steps_no_cr _ _ _ _ _ _ Hs V5_tidy).
      apply universal_newlines_no_cr. }
    rewrite (universal_newlines_id _ Hcr) in Hs'.
    pose proof (steps_named _ _ _ _ _ _ Hs V5_tidy) as Hinv.
    cbn [fst] in Hinv.
    pose proof (steps_fixed _ _ _ _ _ _ Hs' Hinv) as Hy'. cbn [fst] in Hy'.
    subst y'. split; [by destruct (0 <? n')%nat|].
    intros Hsec p c. rewrite Hlog'.
    apply log_without_write; [by eapply steps_prints | done |].
    pose proof (steps_keep_sections _ _ _ _ _ _ Hs V5_tidy Hsec) as Hsec'.
    cbn [fst] in Hsec'.
    assert (Hskip : forallb (fun c => negb (needs_insertion w y c)) V5_FILES
                    = true).
    { apply not_needed_of_named. intros c0 Hc0 Hd0.
      destruct (Hinv c0 Hc0 Hd0) as [? | ?]; [done | congruence]. }
    pose proof (steps_all_skipped _ _ _ _ _ _ _ _ Hs' Hskip) as [= Hn0 ?].
    by rewrite Hn0.
  - (* the first run wrote nothing *)
    assert (Hskip : forallb (fun c => negb (needs_insertion w
                                              (universal_newlines raw) c))
                      V5_FILES = true).
    { apply existsb_false_forallb.
      destruct (existsb _ V5_FILES) eqn:Hex; [|done].
      pose proof (steps_some_added _ _ _ _ _ _ Hs Hex) as Hlt.
      cbn [fst snd] in Hlt. apply Nat.ltb_lt in Hlt. congruence. }
    pose proof (steps_all_skipped _ _ _ _ _ _ _ _ Hs' Hskip) as [= -> -> ?].
    split; [done|]. intros _ p c. rewrite Hlog'.
    apply log_without_write; [by eapply steps_prints | done | done].
Qed.

(** A loop in which no candidate needs insertion reports every
    candidate on disk as already in the project. *)
Lemma steps_skipped_report (orc : Oracle) (w : World)
    (cands : list (text * text)) (content : text) (n k : nat)
    (s' : loop_state) (es : list event) :
  steps orc w cands (content, n, k) s' es ->
  forallb (fun c => negb (needs_insertion w content c)) cands = true ->
  forall c, In c cands -> on_disk w c ->
    In (EPrint (txt "OK: " ++ snd c ++ txt " already in project")) es.
Proof.
  remember (content, n, k) as s eqn:Hs. intros H. revert Hs.
  induction H as [|cand cands s1 s2 s3 es es' H1 H2 IH];
    intros Hs Hall c Hin Hd; [done|].
  cbn [forallb] in Hall. apply andb_true_iff in Hall as [Hc Hall].
  apply negb_true_iff, needs_insertion_false in Hc.
  subst s1. assert (s2 = (content, n, k)) as ->.
  { inversion H1; subst; try done.
    destruct Hc as [Hc | Hc]; [done | congruence]. }
  apply in_app_iff. destruct Hin as [<- | Hin]; [left | right; by apply IH].
  inversion H1; subst; [done | by left |].
  destruct Hc as [Hc | Hc]; [done | congruence].
Qed.

(** C2, as the code has it: when the manifest has a place to insert at,
    a second run right after the first finds the display name of every
    candidate on disk in the manifest text it reads, reports the candidate
    as already in the project, reports that no files needed adding, writes
    no file and leaves the manifest with the content the first run
    left. *)
Theorem second_run_finds_names (orc1 orc2 : Oracle) (w : World)
    (raw : text) :
  files w !! PBXPROJ_PATH = Some raw ->
  no_section (universal_newlines raw) = false ->
  exists st1 rc1 st2 rc2 y,
    run orc1 w = (st1, Ok rc1)
    /\ run orc2 (world st1) = (st2, Ok rc2)
    /\ files (world st1) !! PBXPROJ_PATH = Some y
    /\ (forall c, In c V5_FILES -> on_disk w c ->
          contains (snd c) (universal_newlines y) = true
          /\ In (EPrint (txt "OK: " ++ snd c ++ txt " already in project"))
               (log st2))
    /\ In (EPrint (nl :: txt "No files needed adding")) (log st2)
    /\ (forall p t, ~ In (EWrite p t) (log st2))
    /\ files (world st2) !! PBXPROJ_PATH = Some y.
Proof.
  intros E Hsec. unfold run, main.
  destruct (main_with_found orc1 V5_FILES w raw E V5_no_escape)
    as (y & n & k & st1 & es1 & es2 & Hs & Hrun & Hfiles & Hlog & He2 & Hb).
  set (raw' := if (0 <? n)%nat then y else raw).
  assert (E' : files (world st1) !! PBXPROJ_PATH = Some raw').
  { rewrite Hfiles. by apply written_back_lookup. }
  destruct (main_with_found orc2 V5_FILES (world st1) raw' E' V5_no_escape)
    as (y' & n' & k' & st2 & es1' & es2' & Hs' & Hrun' & Hfiles' & Hlog' & He2'
        & Hb').
  exists st1, (returncode (run_shell orc1 BUILD_CMD (world st1))).
  exists st2, (returncode (run_shell orc2 BUILD_CMD (world st2))), raw'.
  split; [done|]. split; [done|]. split; [done|].
  apply (steps_world_ext _ _ w) in Hs;
    [|intros c Hc; by apply V5_on_disk_backed_up].
  apply (steps_world_ext _ _ w) in Hs';
    [|intros c Hc; by apply (V5_on_disk_second w raw raw' y n)].
  assert (Hnamed : forall c, In c V5_FILES -> on_disk w c ->
            contains (snd c) (universal_newlines raw') = true).
  { intros c Hc Hd. unfold raw'. destruct (0 <? n)%nat eqn:Hn.
    - assert (Hcr : avoids [cr] y = true).
      { apply (steps_no_cr _ _ _ _ _ _ Hs V5_tidy).
        apply universal_newlines_no_cr. }
      rewrite (universal_newlines_id _ Hcr).
      pose proof (steps_named _ _ _ _ _ _ Hs V5_tidy c Hc Hd) as Hinv.
      pose proof (steps_keep_sections _ _ _ _ _ _ Hs V5_tidy Hsec) as Hsec'.
      cbn [fst] in Hinv, Hsec'. destruct Hinv as [? | ?]; [done | congruence].
    - destruct (needs_insertion w (universal_newlines raw) c) eqn:Hneed.
      + assert (Hex : existsb (needs_insertion w (universal_newlines raw))
                        V5_FILES = true).
        { apply existsb_exists. by exists c. }
        pose proof (steps_some_added _ _ _ _ _ _ Hs Hex) as Hlt.
        cbn [fst snd] in Hlt. apply Nat.ltb_lt in Hlt. congruence.
      + apply needs_insertion_false in Hneed as [? | ?]; done. }
  assert (Hskip : forallb (fun c => negb (needs_insertion w
                                            (universal_newlines raw') c))
                    V5_FILES = true)
    by (by apply not_needed_of_named).
  pose proof (steps_all_skipped _ _ _ _ _ _ _ _ Hs' Hskip) as [= Hy' Hn' Hk'].
  split; [|split; [|split]].
  - intros c Hc Hd. split; [by apply Hnamed|].
    rewrite Hlog', !in_app_iff. right. right. left.
    by apply (steps_skipped_report _ _ _ _ _ _ _ _ Hs' Hskip).
  - rewrite Hlog', !in_app_iff. right. right. right. left.
    rewrite Hn'. by left.
  - intros p t. rewrite Hlog'.
    apply log_without_write; [by eapply steps_prints | done |].
    by rewrite Hn'.
  - rewrite Hfiles', (written_back_lookup n' y' raw' _ E'). by rewrite Hn'.
Qed.

Lemma second_run_finds_names_witness :
  exists st1 rc1 st2 rc2 y,
    run example_oracle (example_world example_manifest) = (st1, Ok rc1)
    /\ run example_oracle (world st1) = (st2, Ok rc2)
    /\ files (world st1) !! PBXPROJ_PATH = Some y
    /\ (forall c, In c V5_FILES ->
          on_disk (example_world example_manifest) c ->
          contains (snd c) (universal_newlines y) = true
          /\ In (EPrint (txt "OK: " ++ snd c ++ txt " already in project"))
               (log st2))
    /\ In (EPrint (nl :: txt "No files needed adding")) (log st2)
    /\ (forall p t, ~ In (EWrite p t) (log st2))
    /\ files (world st2) !! PBXPROJ_PATH = Some y.
Proof.
  apply (second_run_finds_names example_oracle example_oracle
           (example_world example_manifest) example_manifest).
  - vm_compute. reflexivity.
  - vm_compute. reflexivity.
Defined.

(** C2 as the spec states it does not hold: on a manifest without any
    place to insert at, the first run processes the candidate on disk and
    writes the text back as it was; the second run does not find the
    display name in the text, processes the candidate again and writes the
    (unchanged) text once more. *)
Lemma second_run_repeats_without_sections :
  let manifest := txt "// !$*UTF8*$!" in
  let w := example_world manifest in
  let r1 := run example_oracle w in
  let r2 := run example_oracle (world (fst r1)) in
  log (fst r1) !! 5%nat = Some (EPrint (txt "ADDING: V5Config.swift..."))
  /\ snd r1 = Ok 65%Z
  /\ files (world (fst r1)) !! PBXPROJ_PATH = Some manifest
  /\ contains (txt "V5Config.swift") (universal_newlines manifest) = false
  /\ snd r2 = Ok 65%Z
  /\ log (fst r2) !! 5%nat = Some (EPrint (txt "ADDING: V5Config.swift..."))
  /\ log (fst r2) !! 10%nat = Some (EWrite PBXPROJ_PATH manifest)
  /\ drawn (fst r2) = 2%nat.
Proof. cbv zeta. repeat split; vm_compute; reflexivity. Qed.

(** * Further properties of the script *)

(** X1: running the script twice in a row, whatever the identifiers drawn
    and the builds' results, the second run leaves the manifest with the
    content the first run left. *)
Theorem second_run_leaves_manifest (orc1 orc2 : Oracle) (w : World)
    (raw : text) :
  files w !! PBXPROJ_PATH = Some raw ->
  exists st1 rc1 st2 rc2,
    run orc1 w = (st1, Ok rc1)
    /\ run orc2 (world st1) = (st2, Ok rc2)
    /\ files (world st2) !! PBXPROJ_PATH = files (world st1) !! PBXPROJ_PATH.
Proof.
  intros E. destruct (two_runs orc1 orc2 w raw E)
    as (st1 & rc1 & st2 & rc2 & H1 & H2 & H3 & _).
  by exists st1, rc1, st2, rc2.
Qed.

Lemma second_run_leaves_manifest_witness :
  exists st1 rc1 st2 rc2,
    run example_oracle (example_world example_manifest) = (st1, Ok rc1)
    /\ run example_oracle (world st1) = (st2, Ok rc2)
    /\ files (world st2) !! PBXPROJ_PATH = files (world st1) !! PBXPROJ_PATH.
Proof.
  apply (second_run_leaves_manifest example_oracle example_oracle
           (example_world example_manifest) example_manifest).
  vm_compute. reflexivity.
Defined.

(** X2: when the manifest text has at least one of the three places the
    script inserts at (a file-reference end marker, a build-file end
    marker or a match of the Sources pattern), a second run right after
    the first writes nothing to any file. *)
Theorem second_run_writes_nothing (orc1 orc2 : Oracle) (w : World)
    (raw : text) :
  files w !! PBXPROJ_PATH = Some raw ->
  no_section (universal_newlines raw) = false ->
  exists st1 rc1 st2 rc2,
    run orc1 w = (st1, Ok rc1)
    /\ run orc2 (world st1) = (st2, Ok rc2)
    /\ forall p c, ~ In (EWrite p c) (log st2).
Proof.
  intros E Hsec. destruct (two_runs orc1 orc2 w raw E)
    as (st1 & rc1 & st2 & rc2 & H1 & H2 & _ & H4).
  exists st1, rc1, st2, rc2. split; [done|]. split; [done|]. by apply H4.
Qed.

Lemma second_run_writes_nothing_witness :
  exists st1 rc1 st2 rc2,
    run example_oracle (example_world example_manifest) = (st1, Ok rc1)
    /\ run example_oracle (world st1) = (st2, Ok rc2)
    /\ forall p c, ~ In (EWrite p c) (log st2).
Proof.
  apply (second_run_writes_nothing example_oracle example_oracle
           (example_world example_manifest) example_manifest).
  - vm_compute. reflexivity.
  - vm_compute. reflexivity.
Defined.

(** ** The layout of a generated identifier *)

Lemma uuid4_bit (r : N) (i : N) :
  N.testbit (uuid4 r) i
  = (((N.testbit (N.land r (N.ones 128)) i
       && negb (N.testbit (N.shiftl 0xc000 48) i)
       || N.testbit (N.shiftl 0x8000 48) i)
      && negb (N.testbit (N.shiftl 0xf000 64) i))
     || N.testbit (N.shiftl 4 76) i).
Proof.
  unfold uuid4. cbv zeta.
  by rewrite N.lor_spec, N.ldiff_spec, N.lor_spec, N.ldiff_spec.
Qed.

Lemma nibble_cases (v : N) :
  (v < 16)%N ->
  exists n, (n < 16)%nat /\ v = N.of_nat n.
Proof. intros H. exists (N.to_nat v). split; lia. Qed.

Lemma uuid4_version_nibble (r : N) :
  N.land (N.shiftr (uuid4 r) 76) 15 = 4%N.
Proof.
  apply N.bits_inj. intros i.
  rewrite N.land_spec, N.shiftr_spec by lia.
  destruct (N.lt_ge_cases i 4) as [Hi | Hi].
  - assert (Hc : i = 0%N \/ i = 1%N \/ i = 2%N \/ i = 3%N) by lia.
    rewrite uuid4_bit.
    destruct Hc as [-> | [-> | [-> | ->]]]; cbn [N.add Pos.add Pos.succ];
      match goal with
      | |- context [N.testbit (N.land r (N.ones 128)) ?j] =>
          generalize (N.testbit (N.land r (N.ones 128)) j)
      end; intros b; vm_compute; by destruct b.
  - change 15%N with (N.ones 4). rewrite N.ones_spec_high by lia.
    rewrite andb_false_r. symmetry. apply N.bits_above_log2.
    change (N.log2 4) with 2%N. lia.
Qed.

Lemma uuid4_variant_nibble (r : N) :
  let v := N.land (N.shiftr (uuid4 r) 60) 15 in
  v = 8%N \/ v = 9%N \/ v = 10%N \/ v = 11%N.
Proof.
  cbv zeta. set (v := N.land (N.shiftr (uuid4 r) 60) 15).
  assert (H3 : N.testbit v 3 = true).
  { unfold v. rewrite N.land_spec, N.shiftr_spec by lia. rewrite uuid4_bit.
    match goal with
    | |- context [N.testbit (N.land r (N.ones 128)) ?j] =>
        generalize (N.testbit (N.land r (N.ones 128)) j)
    end. intros b. vm_compute. by destruct b. }
  assert (H2 : N.testbit v 2 = false).
  { unfold v. rewrite N.land_spec, N.shiftr_spec by lia. rewrite uuid4_bit.
    match goal with
    | |- context [N.testbit (N.land r (N.ones 128)) ?j] =>
        generalize (N.testbit (N.land r (N.ones 128)) j)
    end. intros b. vm_compute. by destruct b. }
  assert (Hlt : (v < 16)%N).
  { unfold v. change 15%N with (N.ones 4). rewrite N.land_ones.
    by apply N.mod_lt. }
  destruct (nibble_cases v Hlt) as (n & Hn & ->).
  do 16 (destruct n as [|n]; [try (by vm_compute in H3); try (by vm_compute in H2);
                              auto|]).
  lia.
Qed.

(** X3: every generated identifier has the digit 4 as its 13th character
    and one of 8, 9, A, B as its 17th: the version and variant fields of
    the random UUID survive the cut to 24 characters. *)
Theorem generated_id_layout (r : N) :
  generate_uuid r !! 12%nat = Some "4"%char
  /\ exists c, generate_uuid r !! 16%nat = Some c
               /\ In c ["8"%char; "9"%char; "A"%char; "B"%char].
Proof.
  split.
  - change (generate_uuid r !! 12%nat)
      with (Some (upper_char (hex_digit (N.land (N.shiftr (uuid4 r) 76) 15)))).
    by rewrite uuid4_version_nibble.
  - eexists. split.
    + change (generate_uuid r !! 16%nat)
        with (Some (upper_char (hex_digit (N.land (N.shiftr (uuid4 r) 60) 15)))).
      reflexivity.
    + destruct (uuid4_variant_nibble r) as [-> | [-> | [-> | ->]]];
        vm_compute; auto.
Qed.

(** ** What a run leaves of the text it read *)

Lemma insertions_sublist (P : text -> Prop) (frag : text) (n : nat)
    (s s' : text) :
  insertions P frag n s s' -> sublist s s'.
Proof.
  induction 1 as [|c k s s' H IH|k s s' HP H IH].
  - constructor.
  - by constructor.
  - by apply sublist_inserts_l.
Qed.

Lemma steps_sublist (orc : Oracle) (w : World) (cands : list (text * text))
    (s s' : loop_state) (es : list event) :
  steps orc w cands s s' es -> sublist (fst (fst s)) (fst (fst s')).
Proof.
  induction 1 as [|c0 cs s1 s2 s3 es es' H1 H2 IH]; [done|].
  etrans; [|exact IH].
  inversion H1; subst; cbn [fst]; try done.
  match goal with Hi : inserted _ _ _ _ _ _ |- _ =>
    destruct Hi as (c1 & c2 & I1 & I2 & I3) end.
  etrans; [by eapply insertions_sublist|].
  etrans; by eapply insertions_sublist.
Qed.

(** X4: the script only ever adds text to the manifest.  Up to the
    translation of line endings a text-mode read makes, the manifest as it
    was before the run is a subsequence of the manifest after the run:
    nothing of it is deleted, changed or reordered. *)
Theorem run_only_adds_text (orc : Oracle) (w : World) (raw : text) :
  files w !! PBXPROJ_PATH = Some raw ->
  exists st rc y,
    run orc w = (st, Ok rc)
    /\ files (world st) !! PBXPROJ_PATH = Some y
    /\ sublist (universal_newlines raw) (universal_newlines y).
Proof.
  intros E. unfold run, main.
  destruct (main_with_found orc V5_FILES w raw E V5_no_escape)
    as (y & n & k & st & es1 & es2 & Hs & Hrun & Hfiles & Hlog & He2 & Hb).
  exists st, (returncode (run_shell orc BUILD_CMD (world st))).
  exists (if (0 <? n)%nat then y else raw).
  split; [done|]. split; [rewrite Hfiles; by apply written_back_lookup|].
  destruct (0 <? n)%nat; [|done].
  rewrite (universal_newlines_id y).
  - apply (steps_sublist _ _ _ _ _ _ Hs).
  - apply (steps_no_cr _ _ _ _ _ _ Hs V5_tidy), universal_newlines_no_cr.
Qed.

Lemma run_only_adds_text_witness :
  exists st rc y,
    run example_oracle (example_world example_manifest) = (st, Ok rc)
    /\ files (world st) !! PBXPROJ_PATH = Some y
    /\ sublist (universal_newlines example_manifest) (universal_newlines y).
Proof.
  apply (run_only_adds_text example_oracle (example_world example_manifest)
           example_manifest).
  vm_compute. reflexivity.
Defined.

(** X5: whenever some candidate needs insertion the manifest is written
    back without a carriage return: the text was read with its line
    endings translated to line feeds and is written as read, so a manifest
    with CRLF line endings comes out with LF endings, even when no record
    could be inserted. *)
Theorem write_back_has_unix_line_endings (orc : Oracle) (w : World)
    (raw : text) :
  files w !! PBXPROJ_PATH = Some raw ->
  existsb (needs_insertion w (universal_newlines raw)) V5_FILES = true ->
  exists st rc y,
    run orc w = (st, Ok rc)
    /\ In (EWrite PBXPROJ_PATH y) (log st)
    /\ files (world st) !! PBXPROJ_PATH = Some y
    /\ avoids [cr] y = true.
Proof.
  intros E Hex. unfold run, main.
  destruct (main_with_found orc V5_FILES w raw E V5_no_escape)
    as (y & n & k & st & es1 & es2 & Hs & Hrun & Hfiles & Hlog & He2 & Hb).
  rewrite <- (existsb_needs_backed_up w raw) in Hex by done.
  pose proof (steps_some_added _ _ _ _ _ _ Hs Hex) as Hm.
  cbn [fst snd] in Hm. apply Nat.ltb_lt in Hm.
  exists st, (returncode (run_shell orc BUILD_CMD (world st))), y.
  split; [done|]. split; [|split].
  - rewrite Hlog. unfold write_back. rewrite Hm, !in_app_iff.
    right. right. right. left. by left.
  - rewrite Hfiles. unfold written_back. rewrite Hm.
    by rewrite lookup_insert_eq.
  - apply (steps_no_cr _ _ _ _ _ _ Hs V5_tidy), universal_newlines_no_cr.
Qed.

Lemma write_back_has_unix_line_endings_witness :
  let manifest := txt "// !$*UTF8*$!" ++ [cr; nl] ++ txt "{ }" ++ [cr; nl] in
  exists st rc y,
    run example_oracle (example_world manifest) = (st, Ok rc)
    /\ In (EWrite PBXPROJ_PATH y) (log st)
    /\ files (world st) !! PBXPROJ_PATH = Some y
    /\ avoids [cr] y = true.
Proof.
  apply (write_back_has_unix_line_endings example_oracle
           (example_world (txt "// !$*UTF8*$!" ++ [cr; nl] ++ txt "{ }"
                             ++ [cr; nl]))
           (txt "// !$*UTF8*$!" ++ [cr; nl] ++ txt "{ }" ++ [cr; nl])).
  - vm_compute. reflexivity.
  - vm_compute. reflexivity.
Defined.

(** ** Counting *)

Lemma steps_counts (orc : Oracle) (w : World) (cands : list (text * text))
    (s s' : loop_state) (es : list event) :
  steps orc w cands s s' es ->
  (snd (fst s) <= snd (fst s'))%nat
  /\ (snd (fst s') <= snd (fst s) + length cands)%nat
  /\ snd s' = (snd s + 2 * (snd (fst s') - snd (fst s)))%nat.
Proof.
  induction 1 as [|c0 cs s1 s2 s3 es es' H1 H2 IH]; [simpl; lia|].
  destruct IH as (I1 & I2 & I3). cbn [length].
  inversion H1; subst; cbn [fst snd] in *; lia.
Qed.

(** X6: for names without backslash the loop returns normally; the count
    of added files grows by at most one per candidate, and exactly two
    identifiers are drawn for every file added, none for a candidate
    that is skipped. *)
Theorem loop_counts (orc : Oracle) (cands : list (text * text))
    (content : text) (n : nat) (st : State) :
  forallb no_escape cands = true ->
  exists st' y n',
    add_files orc cands content n st = (st', Ok (y, n'))
    /\ (n <= n')%nat /\ (n' <= n + length cands)%nat
    /\ drawn st' = (drawn st + 2 * (n' - n))%nat.
Proof.
  intros Hall.
  destruct (add_files_steps orc cands Hall content n st)
    as (st' & y & n' & es & E & _ & _ & Hs).
  exists st', y, n'. split; [done|].
  by destruct (steps_counts _ _ _ _ _ _ Hs) as (H1 & H2 & H3).
Qed.

Lemma loop_counts_witness :
  exists st' y n',
    add_files example_oracle V5_FILES example_manifest 0
      (initial_state (example_world example_manifest)) = (st', Ok (y, n'))
    /\ (0 <= n')%nat /\ (n' <= 0 + length V5_FILES)%nat
    /\ drawn st'
       = (drawn (initial_state (example_world example_manifest))
          + 2 * (n' - 0))%nat.
Proof.
  apply (loop_counts example_oracle V5_FILES example_manifest 0
           (initial_state (example_world example_manifest))).
  vm_compute. reflexivity.
Defined.

(** ** Cache eviction *)

Lemma filter_ext_in {A} (P Q : A -> Prop) `{!forall x, Decision (P x)}
    `{!forall x, Decision (Q x)} (l : list A) :
  (forall x, x ∈ l -> (P x <-> Q x)) -> filter P l = filter Q l.
Proof.
  induction l as [|x l IH]; intros Hext; [done|].
  rewrite !filter_cons.
  assert (Hx : P x <-> Q x) by (apply Hext; by left).
  rewrite IH by (intros y Hy; apply Hext; by right).
  destruct (decide (P x)), (decide (Q x)); tauto.
Qed.

Lemma filter_all {A} (P : A -> Prop) `{!forall x, Decision (P x)}
    (l : list A) :
  (forall x, P x) -> filter P l = l.
Proof.
  intros HP. induction l as [|x l IH]; [done|].
  rewrite filter_cons_True by apply HP. by rewrite IH.
Qed.

Lemma rmtree_ok (dir item : text) (st : State) :
  rmtree dir item st
  = ({| world := {| files := files (world st);
                    derived_data := filter (fun x => x <> item)
                                      <$> derived_data (world st) |};
        drawn := drawn st; log := log st ++ [ERmtree dir item] |}, Ok tt).
Proof. reflexivity. Qed.

Lemma evict_loop (l : list (list ascii)) (st : State) (d : list (list ascii)) :
  derived_data (world st) = Some d ->
  exists st',
    for_each l (fun item =>
      if contains (txt "Redi") item then
        rmtree DERIVED_DATA item ;; print (txt "  Removed: " ++ item)
      else mret tt) st = (st', Ok tt)
    /\ files (world st') = files (world st)
    /\ drawn st' = drawn st
    /\ derived_data (world st')
       = Some (filter (fun x => ~ (x ∈ l /\ contains (txt "Redi") x = true)) d)
    /\ log st' = log st ++ flat_map eviction_events l.
Proof.
  revert st d. induction l as [|item l IH]; intros st d Hd.
  - exists st. split; [done|]. split; [done|]. split; [done|]. split.
    + rewrite Hd. f_equal. symmetry. apply filter_all.
      intros x [Hx _]. by apply not_elem_of_nil in Hx.
    + simpl. by rewrite app_nil_r.
  - cbn [for_each flat_map]. unfold eviction_events at 1.
    destruct (contains (txt "Redi") item) eqn:Hc.
    + erewrite bind_ok; [|erewrite bind_ok; [apply print_ok | apply rmtree_ok]].
      match goal with |- context [for_each l _ ?s] => set (st1 := s) end.
      destruct (IH st1 (filter (fun x => x <> item) d))
        as (st' & E & Hf & Hdr & Hdd & Hl).
      { unfold st1, logged. cbn [world derived_data]. by rewrite Hd. }
      exists st'. split; [exact E|]. split; [by rewrite Hf|].
      split; [by rewrite Hdr|]. split.
      * rewrite Hdd. f_equal. rewrite list_filter_filter.
        apply list_filter_iff. intros x. rewrite elem_of_cons.
        split.
        -- intros [H1 H2] [[-> | Hx] Hcx]; [done | by apply H1].
        -- intros H. split.
           ++ intros [Hx Hcx]. apply H. auto.
           ++ intros ->. apply H. auto.
      * rewrite Hl. unfold st1, logged. cbn [log]. by rewrite <- !app_assoc.
    + erewrite bind_ok; [|reflexivity].
      destruct (IH st d Hd) as (st' & E & Hf & Hdr & Hdd & Hl).
      exists st'. split; [exact E|]. split; [done|]. split; [done|]. split.
      * rewrite Hdd. f_equal. apply list_filter_iff. intros x.
        rewrite elem_of_cons. split.
        -- intros H [[-> | Hx] Hcx]; [congruence | by apply H].
        -- intros H [Hx Hcx]. apply H. auto.
      * done.
Qed.

(** X7: the cache eviction removes from DerivedData exactly the entries
    whose name contains the text Redi (in this spelling) and keeps the
    others in their order; it reports each removal, touches no regular
    file, draws no identifier and does not raise.  When the directory does
    not exist it does nothing. *)
Theorem eviction_removes_project_entries (st : State) :
  exists st',
    clean_derived_data st = (st', Ok tt)
    /\ files (world st') = files (world st)
    /\ drawn st' = drawn st
    /\ derived_data (world st')
       = filter (fun x => contains (txt "Redi") x = false)
           <$> derived_data (world st)
    /\ log st' = log st
                 ++ flat_map eviction_events
                      (default [] (derived_data (world st))).
Proof.
  unfold clean_derived_data. erewrite bind_ok; [|reflexivity].
  destruct (derived_data (world st)) as [items|] eqn:Hd.
  - destruct (evict_loop items st items Hd) as (st' & E & Hf & Hdr & Hdd & Hl).
    exists st'. split; [exact E|]. split; [done|]. split; [done|].
    split; [|done]. rewrite Hdd. cbn [fmap option_fmap option_map]. f_equal.
    apply filter_ext_in. intros x Hx. split.
    + intros H. destruct (contains (txt "Redi") x); [|done].
      exfalso. by apply H.
    + intros H [_ Hc]. congruence.
  - exists st. split; [done|]. split; [done|]. split; [done|].
    rewrite Hd. split; [done|]. simpl. by rewrite app_nil_r.
Qed.

(** ** The build and the echo of its output *)

Lemma split_lines_nonempty (s : text) : split_lines s <> [].
Proof.
  induction s as [|c s IH]; [done|]. cbn [split_lines].
  destruct (ascii_eqb c nl); [done|]. by destruct (split_lines s).
Qed.

Lemma split_lines_no_newline (s : text) :
  Forall (fun l => avoids [nl] l = true) (split_lines s).
Proof.
  induction s as [|c s IH]; [by repeat constructor|]. cbn [split_lines].
  destruct (ascii_eqb c nl) eqn:Ec; [by constructor|].
  pose proof (split_lines_nonempty s) as Hne.
  destruct (split_lines s) as [|l ls]; [done|].
  inversion IH; subst. constructor; [|done].
  apply avoids_one. split; [by apply ascii_eqb_false | done].
Qed.

Lemma join_split_lines (s : text) : join_lines (split_lines s) = s.
Proof.
  induction s as [|c s IH]; [done|]. cbn [split_lines].
  destruct (ascii_eqb c nl) eqn:Ec.
  - apply ascii_eqb_true in Ec as ->.
    pose proof (split_lines_nonempty s) as Hne.
    destruct (split_lines s) as [|l ls] eqn:E; [done|].
    change (join_lines ([] :: l :: ls)) with (nl :: join_lines (l :: ls)).
    by rewrite IH.
  - pose proof (split_lines_nonempty s) as Hne.
    destruct (split_lines s) as [|l ls] eqn:E; [done|].
    rewrite <- IH. by destruct ls.
Qed.

Lemma last_n_length {A} (n : nat) (l : list A) :
  length (last_n n l) = Nat.min n (length l).
Proof. unfold last_n. rewrite length_drop. lia. Qed.

Lemma for_each_print (lines : list (list ascii)) (f : text -> text)
    (st : State) :
  for_each lines (fun line => print (f line)) st
  = (logged st (map (fun line => EPrint (f line)) lines), Ok tt).
Proof.
  revert st. induction lines as [|l ls IH]; intros st.
  - unfold logged. cbn. rewrite app_nil_r. by destruct st.
  - cbn [for_each]. erewrite bind_ok; [|apply print_ok]. rewrite IH.
    unfold logged. cbn. by rewrite <- app_assoc.
Qed.

(** X8: the build step runs the fixed command once, in the world as it
    is, and changes neither the world nor the identifiers drawn.  It
    echoes the last lines of the output with surrounding white space
    removed: at least one line, even when the output is empty, and at most
    30, none holding a line feed.  It closes with the success banner
    exactly when the return code is 0, and returns the return code. *)
Theorem build_reports_last_lines (orc : Oracle) (st : State) :
  let result := run_shell orc BUILD_CMD (world st) in
  let lines :=
    last_n 30 (split_lines (strip (stdout result ++ stderr result))) in
  exists st',
    build orc st = (st', Ok (returncode result))
    /\ world st' = world st /\ drawn st' = drawn st
    /\ log st' = log st
                 ++ [EPrint (nl :: txt "Building project...");
                     ERun BUILD_CMD;
                     EPrint (nl :: txt "Build output (last 30 lines):")]
                 ++ map (fun line => EPrint (txt "  " ++ line)) lines
                 ++ [EPrint (build_banner (returncode result))]
    /\ (1 <= length lines)%nat /\ (length lines <= 30)%nat
    /\ Forall (fun l => avoids [nl] l = true) lines.
Proof.
  cbv zeta. set (result := run_shell orc BUILD_CMD (world st)).
  set (lines := last_n 30 (split_lines (strip (stdout result ++ stderr result)))).
  eexists. split; [|split; [|split; [|split; [|split; [|split]]]]].
  - unfold build. erewrite bind_ok; [|apply print_ok].
    erewrite bind_ok; [|reflexivity].
    erewrite bind_ok; [|reflexivity].
    cbn [world logged]. fold result. fold lines.
    erewrite bind_ok; [|apply print_ok].
    erewrite bind_ok; [|apply for_each_print].
    replace (if (returncode result =? 0)%Z
             then print (nl :: txt "✅ BUILD SUCCEEDED")
             else print (nl :: txt "❌ BUILD FAILED"))
      with (print (build_banner (returncode result)))
      by (unfold build_banner; by destruct (_ =? _)%Z).
    erewrite bind_ok; [|apply print_ok]. reflexivity.
  - done.
  - done.
  - unfold logged. cbn [log]. by rewrite <- !app_assoc.
  - unfold lines. rewrite last_n_length.
    pose proof (split_lines_nonempty (strip (stdout result ++ stderr result))).
    destruct (split_lines _); [done | simpl; lia].
  - unfold lines. rewrite last_n_length. lia.
  - unfold lines, last_n. apply Forall_drop, split_lines_no_newline.
Qed.

(** X9: splitting at line feeds loses nothing: joining the lines with
    line feeds gives the text back, there is always at least one line, and
    no line holds a line feed. *)
Theorem split_lines_round_trip (s : text) :
  join_lines (split_lines s) = s
  /\ (1 <= length (split_lines s))%nat
  /\ Forall (fun l => avoids [nl] l = true) (split_lines s).
Proof.
  split; [apply join_split_lines|]. split; [|apply split_lines_no_newline].
  pose proof (split_lines_nonempty s). destruct (split_lines s); [done|].
  simpl. lia.
Qed.

(** ** Names that are not plain text in a replacement template *)

Lemma letter_is_no_digit (c : ascii) :
  is_ascii_letter c = true ->
  ascii_eqb c "0" = false /\ is_digit c = false.
Proof. destruct c as [[] [] [] [] [] [] [] []]; by vm_compute. Qed.

Lemma parse_tokens_bad_escape (groups : nat) (c : ascii) (ts : list token) :
  is_ascii_letter c = true -> escape_char c = None ->
  ascii_eqb c "g" = false ->
  parse_tokens groups PTop (TEsc c :: ts) = None.
Proof.
  intros Hl He Hg. destruct (letter_is_no_digit c Hl) as [H0 Hd].
  cbn [parse_tokens]. by rewrite Hg, H0, Hd, He, Hl.
Qed.

Lemma parse_template_bad_escape (groups : nat) (l : text) (c : ascii)
    (rest : text) :
  avoids [backslash] l = true ->
  is_ascii_letter c = true -> escape_char c = None ->
  ascii_eqb c "g" = false ->
  parse_template groups (l ++ backslash :: c :: rest) = None.
Proof.
  intros Hl Hc He Hg. unfold parse_template.
  rewrite (tokenize_literal _ _ Hl). cbn [tokenize].
  rewrite ascii_eqb_refl.
  destruct (tokenize rest) as [ts|]; [|done]. cbn.
  rewrite parse_tokens_literal, (parse_tokens_bad_escape _ _ _ Hc He Hg).
  done.
Qed.

Lemma bind_raised {A B} (m : M A) (f : A -> M B) (st st' : State) :
  m st = (st', Raised) -> (m ≫= f) st = (st', Raised).
Proof. intros E. unfold mbind, M_bind. by rewrite E. Qed.

Lemma process_candidate_raised (orc : Oracle) (path name content : text)
    (n : nat) (st : State) :
  is_Some (files (world st) !! (PROJECT_DIR ++ txt "/" ++ path)) ->
  contains name content = false ->
  insert_records (uuid_at orc (drawn st)) (uuid_at orc (S (drawn st)))
    path name content = Raised ->
  process_candidate orc (path, name) content n st
  = ({| world := world st; drawn := S (S (drawn st));
        log := log st ++ [EPrint (txt "ADDING: " ++ name ++ txt "...")] |},
     Raised).
Proof.
  intros H Hc Hy. unfold process_candidate, path_exists, get_world.
  unfold mbind, M_bind, mret, M_ret.
  rewrite bool_decide_eq_true_2 by done. simpl negb. cbv iota.
  rewrite Hc. unfold print, emit, fresh_uuid, lift. cbn [world drawn log].
  change (negb true) with false. cbv beta iota.
  unfold uuid_at in Hy. by rewrite Hy.
Qed.

(** X10: the display name is spliced into the replacement template of
    [re.sub].  A name that holds a backslash followed by an ASCII letter
    that is no escape of the template language makes the first
    substitution raise, whatever the manifest text is and whether or not
    the marker occurs in it: the iteration raises with the world as it
    was, so a run that reaches such a candidate ends after the backup
    without writing the manifest. *)
Theorem bad_escape_in_name_raises (orc : Oracle) (path a b : text)
    (c : ascii) (rest : list (text * text)) (w : World) (raw : text) :
  avoids [backslash] a = true ->
  is_ascii_letter c = true -> escape_char c = None ->
  ascii_eqb c "g" = false ->
  files w !! PBXPROJ_PATH = Some raw ->
  needs_insertion (backed_up w raw) (universal_newlines raw)
    (path, a ++ backslash :: c :: b) = true ->
  exists st,
    main_with orc ((path, a ++ backslash :: c :: b) :: rest) (initial_state w)
    = (st, Raised)
    /\ files (world st) = <[BACKUP_PATH := raw]> (files w)
    /\ forall p t, ~ In (EWrite p t) (log st).
Proof.
  intros Ha Hc He Hg E [Hdisk Hn]%needs_insertion_true.
  set (name := a ++ backslash :: c :: b) in *. cbn [snd] in Hn.
  assert (Hraise : forall u1 u2 x,
             avoids [backslash] u1 = true ->
             insert_records u1 u2 path name x = Raised).
  { intros u1 u2 x Hu1. unfold insert_records, re_sub.
    replace (file_ref_record u1 name path ++ txt "\1")
      with (([tab; tab] ++ u1 ++ txt " /* " ++ a)
              ++ backslash :: c
                 :: (b ++ txt " */ = {isa = PBXFileReference; lastKnownFileType = sourcecode.swift; path = "
                       ++ path ++ txt "; sourceTree = " ++ [dquote]
                       ++ txt "<group>" ++ [dquote] ++ txt "; };" ++ [nl]
                       ++ txt "\1")).
    2:{ unfold file_ref_record, name. rewrite <- !app_assoc. cbn [app].
        reflexivity. }
    rewrite parse_template_bad_escape; [done | | done | done | done].
    rewrite !avoids_app, Hu1, Ha. reflexivity. }
  eexists. split; [|split].
  - unfold main_with.
    do 3 (erewrite bind_ok; [|apply print_ok]).
    erewrite bind_ok;
      [|apply path_exists_found;
        change (is_Some (files w !! PBXPROJ_PATH)); by rewrite E].
    change (negb true) with false. cbv iota.
    erewrite bind_ok; [|by apply read_text_ok].
    erewrite bind_ok; [|by apply copy_file_ok].
    erewrite bind_ok; [|apply print_ok].
    cbn [add_files].
    erewrite bind_raised; [reflexivity|].
    erewrite bind_raised; [reflexivity|].
    apply process_candidate_raised; [exact Hdisk | exact Hn |].
    apply Hraise, uuid_no_backslash.
  - reflexivity.
  - intros p t. cbn [log logged initial_state].
    rewrite !in_app_iff. intros H.
    repeat (destruct H as [H | H]; [by repeat destruct H as [H | H]|]).
    by repeat destruct H as [H | H].
Qed.

Lemma bad_escape_in_name_raises_witness :
  let w := {| files := <[PBXPROJ_PATH := example_manifest]>
                         (<[txt "Redi/Old/My\qFile.swift" := []]> ∅);
              derived_data := None |} in
  exists st,
    main_with example_oracle
      ((txt "Old/My\qFile.swift", txt "My" ++ backslash :: "q"%char
                                     :: txt "File.swift") :: V5_FILES)
      (initial_state w)
    = (st, Raised)
    /\ files (world st) = <[BACKUP_PATH := example_manifest]> (files w)
    /\ forall p t, ~ In (EWrite p t) (log st).
Proof.
  apply (bad_escape_in_name_raises example_oracle (txt "Old/My\qFile.swift")
           (txt "My") (txt "File.swift") "q"%char V5_FILES
           {| files := <[PBXPROJ_PATH := example_manifest]>
                         (<[txt "Redi/Old/My\qFile.swift" := []]> ∅);
              derived_data := None |} example_manifest);
    vm_compute; reflexivity.
Defined.

(** ** The greedy body of the Sources pattern *)

(** X11: the body of the Sources pattern is greedy.  Take a text that
    begins with the opening of a Sources block and reaches the opening of
    a files list without crossing a closing brace.  The third substitution
    then reads it as: the block opening, a body without closing brace that
    is at least as long as the one given and as long as any that reaches
    the opening of a files list, that opening, the entries up to the first
    closing parenthesis (or the end of the text), and the rest.  The new
    reference is put behind these entries, in front of the parenthesis; so
    with several files lists inside the braces it goes into the last one.
    The rest is substituted in the same way. *)
Theorem reference_goes_into_last_files_list (u name body0 t0 : text) :
  avoids [backslash] u = true -> avoids [backslash] name = true ->
  avoids ["}"%char] body0 = true ->
  exists body entries rest y',
    SOURCES_OPEN ++ body0 ++ FILES_OPEN ++ t0
    = SOURCES_OPEN ++ body ++ FILES_OPEN ++ entries ++ rest
    /\ avoids ["}"%char] body = true
    /\ avoids [")"%char] entries = true
    /\ at_list_end rest
    /\ (length body0 <= length body)%nat
    /\ (forall body' t',
          SOURCES_OPEN ++ body0 ++ FILES_OPEN ++ t0
          = SOURCES_OPEN ++ body' ++ FILES_OPEN ++ t' ->
          avoids ["}"%char] body' = true ->
          (length body' <= length body)%nat)
    /\ re_sub sources_pattern (sources_template u name) rest = Ok y'
    /\ re_sub sources_pattern (sources_template u name)
         (SOURCES_OPEN ++ body0 ++ FILES_OPEN ++ t0)
       = Ok (SOURCES_OPEN ++ body ++ FILES_OPEN ++ entries
               ++ sources_reference u name ++ y').
Proof.
  intros Hu Hname Hb0.
  set (s := SOURCES_OPEN ++ body0 ++ FILES_OPEN ++ t0).
  destruct (match_at_block_complete SOURCES_OPEN FILES_OPEN "}" ")" body0 t0
              Hb0) as [[rest caps] E].
  fold s in E.
  change (match_at (pat_regex sources_pattern) s = Some (rest, caps)) in E.
  destruct (match_at_block_greedy _ _ _ _ _ _ _ E)
    as (body & entries & Heq & Hbody & Hent & Hrest & H1 & H2 & Hmax).
  unfold re_sub. change (pat_groups sources_pattern) with 2%nat.
  rewrite sources_template_eq, parse_template_sources
    by (rewrite !avoids_app, Hu, Hname; reflexivity).
  exists body, entries, rest. eexists.
  split; [by rewrite Heq, <- !app_assoc|].
  do 3 (split; [done|]).
  split; [by apply (Hmax body0 t0)|].
  split; [exact Hmax|].
  split; [reflexivity|]. f_equal.
  rewrite Heq in E |- *.
  assert (Hm : (SOURCES_OPEN ++ body ++ FILES_OPEN) ++ entries <> [])
    by done.
  rewrite (app_assoc _ entries rest) in E |- *.
  rewrite (scan_match _ _ _ _ _ Hm E).
  rewrite (expand_sources _ [] _ _ _ H1 H2), <- sources_reference_eq.
  by rewrite <- !app_assoc.
Qed.

Lemma reference_goes_into_last_files_list_witness :
  exists body entries rest y',
    SOURCES_OPEN ++ first_list_body ++ FILES_OPEN ++ first_list_tail
    = SOURCES_OPEN ++ body ++ FILES_OPEN ++ entries ++ rest
    /\ avoids ["}"%char] body = true
    /\ avoids [")"%char] entries = true
    /\ at_list_end rest
    /\ (length first_list_body <= length body)%nat
    /\ (forall body' t',
          SOURCES_OPEN ++ first_list_body ++ FILES_OPEN ++ first_list_tail
          = SOURCES_OPEN ++ body' ++ FILES_OPEN ++ t' ->
          avoids ["}"%char] body' = true ->
          (length body' <= length body)%nat)
    /\ re_sub sources_pattern
         (sources_template (generate_uuid 2) (txt "V5Config.swift")) rest
       = Ok y'
    /\ re_sub sources_pattern
         (sources_template (generate_uuid 2) (txt "V5Config.swift"))
         (SOURCES_OPEN ++ first_list_body ++ FILES_OPEN ++ first_list_tail)
       = Ok (SOURCES_OPEN ++ body ++ FILES_OPEN ++ entries
               ++ sources_reference (generate_uuid 2) (txt "V5Config.swift")
               ++ y').
Proof.
  apply (reference_goes_into_last_files_list (generate_uuid 2)
           (txt "V5Config.swift") first_list_body first_list_tail).
  - vm_compute. reflexivity.
  - vm_compute. reflexivity.
  - vm_compute. reflexivity.
Defined.

(** ** The files a run touches *)

Lemma in_forallb {A} (f : A -> bool) (l : list A) (x : A) :
  forallb f l = true -> In x l -> f x = true.
Proof. intros H. by apply forallb_forall. Qed.

Lemma file_event_places (n : nat) (y : text) (es1 es2 : list event)
    (e : event) :
  forallb is_print es1 = true ->
  forallb (fun e => negb (file_event e)) es2 = true ->
  file_event e = true ->
  In e (banner
        ++ [ECopy PBXPROJ_PATH BACKUP_PATH;
            EPrint (txt "Created backup: " ++ PBXPROJ_PATH ++ txt ".backup")]
        ++ es1 ++ write_back n y ++ es2) ->
  e = ECopy PBXPROJ_PATH BACKUP_PATH \/ e = EWrite PBXPROJ_PATH y.
Proof.
  intros H1 H2 He. rewrite !in_app_iff.
  intros [Hi | [Hi | [Hi | [Hi | Hi]]]].
  - unfold banner in Hi.
    destruct Hi as [<- | [<- | [<- | []]]]; discriminate He.
  - destruct Hi as [<- | [<- | []]]; [by left | discriminate He].
  - apply (in_forallb _ _ _ H1) in Hi. by destruct e.
  - unfold write_back in Hi. destruct (0 <? n)%nat.
    + destruct Hi as [<- | [<- | []]]; [by right | discriminate He].
    + destruct Hi as [<- | []]. discriminate He.
  - apply (in_forallb _ _ _ H2) in Hi. by rewrite He in Hi.
Qed.

(** X12: a run on an existing manifest changes regular files at two
    paths only.  Every file other than the manifest and its backup has
    after the run the content it had before, the only copy the script
    makes is the backup of the manifest, and the only file it writes is
    the manifest.  (What the build subprocess does to files is not part of
    the script.) *)
Theorem run_touches_manifest_and_backup_only (orc : Oracle) (w : World)
    (raw : text) :
  files w !! PBXPROJ_PATH = Some raw ->
  exists st rc,
    run orc w = (st, Ok rc)
    /\ (forall p, p <> PBXPROJ_PATH -> p <> BACKUP_PATH ->
          files (world st) !! p = files w !! p)
    /\ (forall p q, In (ECopy p q) (log st) ->
          p = PBXPROJ_PATH /\ q = BACKUP_PATH)
    /\ (forall p c, In (EWrite p c) (log st) -> p = PBXPROJ_PATH).
Proof.
  intros E. unfold run, main.
  destruct (main_with_found orc V5_FILES w raw E V5_no_escape)
    as (y & n & k & st & es1 & es2 & Hs & Hrun & Hfiles & Hlog & He2 & Hb).
  pose proof (steps_prints _ _ _ _ _ _ Hs) as He1.
  exists st, (returncode (run_shell orc BUILD_CMD (world st))).
  split; [done|]. split; [|split].
  - intros p Hp Hq. rewrite Hfiles. unfold written_back.
    destruct (0 <? n)%nat.
    + rewrite lookup_insert_ne by done. by rewrite lookup_insert_ne.
    + by rewrite lookup_insert_ne.
  - intros p q Hi. rewrite Hlog in Hi.
    destruct (file_event_places n y es1 es2 (ECopy p q) He1 He2 eq_refl Hi)
      as [Heq | Heq]; [|discriminate Heq].
    set (a := PBXPROJ_PATH) in *. set (b := BACKUP_PATH) in *.
    split; congruence.
  - intros p c Hi. rewrite Hlog in Hi.
    destruct (file_event_places n y es1 es2 (EWrite p c) He1 He2 eq_refl Hi)
      as [Heq | Heq]; [discriminate Heq|].
    set (a := PBXPROJ_PATH) in *. congruence.
Qed.

Lemma run_touches_manifest_and_backup_only_witness :
  exists st rc,
    run example_oracle (example_world example_manifest) = (st, Ok rc)
    /\ (forall p, p <> PBXPROJ_PATH -> p <> BACKUP_PATH ->
          files (world st) !! p
          = files (example_world example_manifest) !! p)
    /\ (forall p q, In (ECopy p q) (log st) ->
          p = PBXPROJ_PATH /\ q = BACKUP_PATH)
    /\ (forall p c, In (EWrite p c) (log st) -> p = PBXPROJ_PATH).
Proof.
  apply (run_touches_manifest_and_backup_only example_oracle
           (example_world example_manifest) example_manifest).
  vm_compute. reflexivity.
Defined.

(** ** The random bits an identifier keeps *)

(** X13: an identifier is made from the first 24 of the 32 hexadecimal
    digits of the UUID, so the last four of the sixteen random bytes play
    no part: two draws that agree above their low 32 bits give the same
    identifier. *)
Theorem generated_id_ignores_low_bytes (r r' : N) :
  N.shiftr r 32 = N.shiftr r' 32 -> generate_uuid r = generate_uuid r'.
Proof.
  intros H. unfold generate_uuid, uuid_hex. f_equal.
  rewrite !firstn_map. apply map_ext_in. intros k Hk.
  change (take 24 (seq 0 32)) with (seq 0 24) in Hk.
  apply in_seq in Hk. f_equal.
  apply N.bits_inj. intros i.
  rewrite !N.land_spec, !N.shiftr_spec by lia.
  destruct (N.lt_ge_cases i 4) as [Hi | Hi].
  - f_equal. rewrite !uuid4_bit, !N.land_spec.
    set (j := (i + 4 * N.of_nat (31 - k))%N).
    assert (Hj : N.testbit r j = N.testbit r' j).
    { replace j with (j - 32 + 32)%N by (unfold j; lia).
      rewrite <- !N.shiftr_spec by lia. by rewrite H. }
    by rewrite Hj.
  - change 15%N with (N.ones 4). rewrite N.ones_spec_high by lia.
    by rewrite !andb_false_r.
Qed.

Lemma generated_id_ignores_low_bytes_witness :
  generate_uuid 4294967301 = generate_uuid 4294967373.
Proof.
  apply (generated_id_ignores_low_bytes 4294967301 4294967373).
  vm_compute. reflexivity.
Defined.
